(** * Grid2Op_Resilience: a shallow embedding of the environment engine

    The development follows the Python sources:
    - [grid2op/Environment/Environment.py]   (construction, [max_episode_duration],
      [simulate], [reset], [get_kwargs]);
    - [grid2op/Observation/EssentialObservation.py]   ([update]);
    - [grid2op/Reward/*.py]   (the reward and metric classes).

    Python objects are records, numpy arrays are lists, [dt_int] is a 32-bit
    integer with its wrap-around written out, and floating-point arithmetic is
    an interface ([FloatOps]) so that no property depends on rounding. *)

From Stdlib Require Import ZArith Bool List Lia Ascii.
From stdpp Require Import base option list gmap strings sorting.

Local Open Scope string_scope.
Local Open Scope list_scope.
Local Open Scope Z_scope.

(** ** grid2op.dtypes *)

(** [dt_float] is numpy's [float32]; its arithmetic is kept abstract. *)
Class FloatOps := {
  Float : Type;
  dt_float : Float -> Float;          (* the cast [dt_float(x)] *)
  float_of_int : Z -> Float;          (* an integer used as a float *)
  fadd : Float -> Float -> Float;
  fmul : Float -> Float -> Float;
  fdiv : Float -> Float -> Float;     (* numpy division: no exception *)
  fabs : Float -> Float;
  fltb : Float -> Float -> bool;
}.

(** [np.iinfo(np.int32).max] *)
Definition int32_max : Z := 2147483647.

(** [dt_int(x)]: [x] stored in a two's complement 32-bit integer. *)
Definition dt_int (x : Z) : Z := (x + 2 ^ 31) mod 2 ^ 32 - 2 ^ 31.

(** ** grid2op.Exceptions *)

(** Modelled from the spec: the module [grid2op.Exceptions] is not part of the
    sources at hand.  Configuration errors and resource-contract violations are
    both fatal errors of the library: [EnvError] is a subclass of
    [Grid2OpException].  The other classes are Python built-ins or come from
    the collaborators. *)
Inductive ExcClass :=
| Grid2OpException
| EnvError
| TypeError
| ZeroDivisionError
| IndexError
| ForeignError (name : string).

Record Exc := mkExc { exc_class : ExcClass; exc_arg : string }.

(** [isinstance(e, Grid2OpException)] *)
Definition is_Grid2OpException (e : Exc) : bool :=
  match exc_class e with
  | Grid2OpException | EnvError => true
  | _ => false
  end.

(** The errors of numpy for operands whose shapes do not agree. *)
Definition broadcast_error : Exc :=
  mkExc (ForeignError "ValueError") "operands could not be broadcast together".
Definition mask_error : Exc :=
  mkExc IndexError "boolean index did not match indexed array".
Definition index_error : Exc := mkExc IndexError "index out of bounds".

(** ** Python classes and values *)

(** A class is known by its name and the names of its proper ancestors. *)
Record PyClass := mkClass { cls_name : string; cls_bases : list string }.

(** [issubclass(c, base)] *)
Definition issubclass (c : PyClass) (base : string) : bool :=
  bool_decide (base = cls_name c ∨ base ∈ cls_bases c).

Record datetime := mkDatetime {
  dt_year : Z; dt_month : Z; dt_day : Z;
  dt_hour : Z; dt_minute : Z; dt_weekday : Z }.

Section Objects.
Context {FO : FloatOps}.

(** The dictionary [{"injection": {"load_p": .., "load_q": .., "prod_p": ..,
    "prod_v": ..}}] built by the observation and returned by the chronics. *)
Definition InjAction : Type := gmap string (gmap string (list Float)).

(** The state of a backend object, as far as the engine reads or writes it.
    The arrays are what the reporting interface returns. *)
Record Backend := mkBackend {
  bk_type : PyClass;                         (* [type(backend)] *)
  _is_loaded : bool;
  _PATH_ENV : option string;
  n_line : nat;
  bk_line_status : list bool;                (* [get_line_status()] *)
  bk_topo_vect : list Z;                     (* [get_topo_vect()] *)
  bk_generators_info : list Float * list Float * list Float;
  bk_loads_info : list Float * list Float * list Float;
  bk_lines_or_info : list Float * list Float * list Float * list Float;
  bk_lines_ex_info : list Float * list Float * list Float * list Float;
  bk_relative_flow : list Float;             (* [get_relative_flow()] *)
  bk_thermal_limit_a : list Float;
  can_output_theta : bool;
  bk_theta : list Float * list Float * list Float * list Float * list Float;
  bk_num_islands : Z;                        (* [get_num_islands()] *)
}.

(** Modelled from the spec: the class [Backend] is not part of the sources at
    hand.  [is_loaded] is the property that reads the private flag
    [_is_loaded]; assigning [True] to it sets the flag, and only a direct
    write to [_is_loaded] can clear it. *)
Definition is_loaded (b : Backend) : bool := _is_loaded b.

Definition set__is_loaded (v : bool) (b : Backend) : Backend :=
  mkBackend (bk_type b) v (_PATH_ENV b) (n_line b) (bk_line_status b)
    (bk_topo_vect b) (bk_generators_info b) (bk_loads_info b)
    (bk_lines_or_info b) (bk_lines_ex_info b) (bk_relative_flow b)
    (bk_thermal_limit_a b) (can_output_theta b) (bk_theta b) (bk_num_islands b).

Definition set__PATH_ENV (p : string) (b : Backend) : Backend :=
  mkBackend (bk_type b) (_is_loaded b) (Some p) (n_line b) (bk_line_status b)
    (bk_topo_vect b) (bk_generators_info b) (bk_loads_info b)
    (bk_lines_or_info b) (bk_lines_ex_info b) (bk_relative_flow b)
    (bk_thermal_limit_a b) (can_output_theta b) (bk_theta b) (bk_num_islands b).

(** The chronics handler: its cursor in the time series, and what its
    [max_episode_duration()] and [forecasts()] methods return there. *)
Record ChronicsHandler := mkChronics {
  ch_cursor : nat;
  ch_max_episode_duration : Z;
  ch_forecasts : list (datetime * InjAction);
}.

Inductive PyVal :=
| PyNone
| PyBool (b : bool)
| PyInt (n : Z)
| PyFloat (x : Float)
| PyStr (s : string)
| PyType (c : PyClass)                  (* a class *)
| PyInstance (c : PyClass)              (* an instance, state not modelled *)
| PyBackend (b : Backend)               (* an instance of a [Backend] class *)
| PyChronics (c : ChronicsHandler)      (* an instance of [ChronicsHandler] *)
| PyIntArray (l : list Z)
| PyFloatArray (l : list Float)
| PyTypes (d : list (string * PyClass)). (* a dictionary of named classes *)

(** [isinstance(v, type)] *)
Definition isinstance_type (v : PyVal) : bool :=
  match v with PyType _ => true | _ => false end.

(** [issubclass(v, base)], called on values already known to be classes. *)
Definition issubclass_val (v : PyVal) (base : string) : bool :=
  match v with PyType c => issubclass c base | _ => false end.

(** [isinstance(v, Backend)] *)
Definition isinstance_Backend (v : PyVal) : bool :=
  match v with PyBackend _ => true | _ => false end.


(** A constructor argument that has to be a class derived from [base]: the
    two checks [isinstance(v, type)] and [issubclass(v, base)]. *)
Definition well_formed_class (v : PyVal) (base : string) : bool :=
  isinstance_type v && issubclass_val v base.

(** Python truth value, for [if fail_to_start:]. *)
Definition truthy (v : PyVal) : bool :=
  match v with
  | PyNone => false
  | PyBool b => b
  | PyInt n => negb (n =? 0)
  | PyStr s => match s with EmptyString => false | _ => true end
  | PyTypes d => match d with [] => false | _ => true end
  | _ => true
  end.

End Objects.

(** ** Actions, observations and the environment object *)

Section DataModel.
Context {FO : FloatOps}.

(** Modelled from the spec: the module [grid2op.Action] is not part of the
    sources at hand.  An action is a sparse delta over line status, bus
    assignment, redispatch, curtailment, storage and the alarm; the recorder
    class reads its [set_bus] and [set_line_status]. *)
Record Action := mkAction {
  set_line_status : list Z;      (* per line: -1 disconnect, 0 nothing, 1 connect *)
  set_bus : list Z;              (* per element: 0 nothing, -1, 1, 2, ... *)
  redispatch : list Float;
  curtail : list Float;
  storage_p : list Float;
  raise_alarm : bool;
}.

(** The attributes that [EssentialObservation.update] assigns. *)
Record Observation := mkObservation {
  current_step : Z;
  max_step : Z;
  year : Z; month : Z; day : Z;
  hour_of_day : Z; minute_of_hour : Z; day_of_week : Z;
  timestep_overflow : list Z;
  line_status : list bool;
  topo_vect : list Z;
  gen_p : list Float; gen_q : list Float; gen_v : list Float;
  load_p : list Float; load_q : list Float; load_v : list Float;
  p_or : list Float; q_or : list Float; v_or : list Float; a_or : list Float;
  p_ex : list Float; q_ex : list Float; v_ex : list Float; a_ex : list Float;
  _forecasted_inj : list (datetime * InjAction);
  _forecasted_grid : list (option Backend);
  rho : list Float;
  time_before_cooldown_line : list Z;
  time_before_cooldown_sub : list Z;
  _thermal_limit : list Float;
  support_theta : bool;
  theta_or : list Float; theta_ex : list Float;
  load_theta : list Float; gen_theta : list Float; storage_theta : list Float;
  obs_n_line : nat;              (* the class attribute [n_line] *)
}.

(** What is missing of [BaseObservation]: the blank object its constructor
    builds and the two helpers that [update] calls first. *)
Class ObservationBase := {
  BaseObservation__init__ : Observation;
  BaseObservation_reset : Observation -> Observation;
  _reset_matrices : Observation -> Observation;
}.

(** Modelled from the spec: the token-bucket primitive of both budgets,
    [(balance, max, per-step income, cost-to-spend, cooldown-after-spend)],
    with the steps that remain of its cooldown. *)
Record Budget := mkBudget {
  balance : Z;
  budget_max : Z;
  income : Z;
  cost : Z;
  cooldown_after_spend : Z;
  cooldown_left : Z;
}.

(** Modelled from the spec: the EnvironmentState of the step engine.  The
    fields read by [EssentialObservation.update] keep the names they have
    there. *)
Record EnvironmentState := mkState {
  _line_status : list bool;
  _topo_vect : list Z;
  _times_before_line_status_actionable : list Z;
  _times_before_topology_actionable : list Z;
  _timestep_overflow : list Z;
  _target_dispatch : list Float;
  _storage_current_charge : list Float;
  _attack : option (nat * Z);          (* attacked line, steps that remain *)
  opponent_budget : Budget;
  attention_budget : Budget;
  time_stamp : datetime;
  nb_time_step : Z;
  done : bool;                         (* the terminal flag *)
}.

(** The environment object.  The attributes that the methods below compute
    with are fields; the others are kept by name in [attrs]. *)
Record Environment := mkEnv {
  name : string;
  _init_grid_path : string;
  _read_from_local_dir : bool;
  with_forecast : bool;
  _thermal_limit_a : option (list Float);
  _voltagecontrolerClass : PyVal;
  other_rewards : list (string * PyClass);
  backend : Backend;
  chronics_handler : ChronicsHandler;
  attrs : gmap string PyVal;
  env_state : EnvironmentState;
  space_prng : Z;
  opponent_seed : Z;
  current_obs : Observation;
  _new_load : option (list Float);
  gen_cost_per_MW : option (list Float);   (* [None] or an array *)
  (* what [_p_difference()] and [_load_difference()] return: arrays over the
     generators and over the loads *)
  p_difference : list Float;
  load_difference : list Float;
}.

Definition set_backend (b : Backend) (e : Environment) : Environment :=
  mkEnv (name e) (_init_grid_path e) (_read_from_local_dir e) (with_forecast e)
    (_thermal_limit_a e) (_voltagecontrolerClass e) (other_rewards e) b
    (chronics_handler e) (attrs e) (env_state e) (space_prng e)
    (opponent_seed e) (current_obs e) (_new_load e) (gen_cost_per_MW e)
    (p_difference e) (load_difference e).

Definition set_chronics_handler (c : ChronicsHandler) (e : Environment) : Environment :=
  mkEnv (name e) (_init_grid_path e) (_read_from_local_dir e) (with_forecast e)
    (_thermal_limit_a e) (_voltagecontrolerClass e) (other_rewards e) (backend e)
    c (attrs e) (env_state e) (space_prng e)
    (opponent_seed e) (current_obs e) (_new_load e) (gen_cost_per_MW e)
    (p_difference e) (load_difference e).

Definition set__thermal_limit_a (t : option (list Float)) (e : Environment) : Environment :=
  mkEnv (name e) (_init_grid_path e) (_read_from_local_dir e) (with_forecast e)
    t (_voltagecontrolerClass e) (other_rewards e) (backend e)
    (chronics_handler e) (attrs e) (env_state e) (space_prng e)
    (opponent_seed e) (current_obs e) (_new_load e) (gen_cost_per_MW e)
    (p_difference e) (load_difference e).

(** [self.<attribute> = v] for an attribute kept in [attrs] *)
Definition setattr (k : string) (v : PyVal) (e : Environment) : Environment :=
  mkEnv (name e) (_init_grid_path e) (_read_from_local_dir e) (with_forecast e)
    (_thermal_limit_a e) (_voltagecontrolerClass e) (other_rewards e) (backend e)
    (chronics_handler e) (<[k:=v]> (attrs e)) (env_state e) (space_prng e)
    (opponent_seed e) (current_obs e) (_new_load e) (gen_cost_per_MW e)
    (p_difference e) (load_difference e).

Definition set_env_state (s : EnvironmentState) (e : Environment) : Environment :=
  mkEnv (name e) (_init_grid_path e) (_read_from_local_dir e) (with_forecast e)
    (_thermal_limit_a e) (_voltagecontrolerClass e) (other_rewards e) (backend e)
    (chronics_handler e) (attrs e) s (space_prng e)
    (opponent_seed e) (current_obs e) (_new_load e) (gen_cost_per_MW e)
    (p_difference e) (load_difference e).

Definition set_current_obs (o : Observation) (e : Environment) : Environment :=
  mkEnv (name e) (_init_grid_path e) (_read_from_local_dir e) (with_forecast e)
    (_thermal_limit_a e) (_voltagecontrolerClass e) (other_rewards e) (backend e)
    (chronics_handler e) (attrs e) (env_state e) (space_prng e)
    (opponent_seed e) o (_new_load e) (gen_cost_per_MW e)
    (p_difference e) (load_difference e).

Definition set_gen_cost_per_MW (c : option (list Float)) (e : Environment)
    : Environment :=
  mkEnv (name e) (_init_grid_path e) (_read_from_local_dir e) (with_forecast e)
    (_thermal_limit_a e) (_voltagecontrolerClass e) (other_rewards e) (backend e)
    (chronics_handler e) (attrs e) (env_state e) (space_prng e)
    (opponent_seed e) (current_obs e) (_new_load e) c
    (p_difference e) (load_difference e).

Definition set_seeds (seed opp : Z) (e : Environment) : Environment :=
  mkEnv (name e) (_init_grid_path e) (_read_from_local_dir e) (with_forecast e)
    (_thermal_limit_a e) (_voltagecontrolerClass e) (other_rewards e) (backend e)
    (chronics_handler e) (attrs e) (env_state e) seed
    opp (current_obs e) (_new_load e) (gen_cost_per_MW e)
    (p_difference e) (load_difference e).

Definition set_done (d : bool) (s : EnvironmentState) : EnvironmentState :=
  mkState (_line_status s) (_topo_vect s) (_times_before_line_status_actionable s)
    (_times_before_topology_actionable s) (_timestep_overflow s)
    (_target_dispatch s) (_storage_current_charge s) (_attack s)
    (opponent_budget s) (attention_budget s) (time_stamp s) (nb_time_step s) d.

Definition set__line_status (l : list bool) (s : EnvironmentState) : EnvironmentState :=
  mkState l (_topo_vect s) (_times_before_line_status_actionable s)
    (_times_before_topology_actionable s) (_timestep_overflow s)
    (_target_dispatch s) (_storage_current_charge s) (_attack s)
    (opponent_budget s) (attention_budget s) (time_stamp s) (nb_time_step s)
    (done s).

(** ** Environment.max_episode_duration *)

Definition max_episode_duration (self : Environment) : Z :=
  let tmp := dt_int (ch_max_episode_duration (chronics_handler self)) in
  if tmp <? 0 then dt_int int32_max else tmp.

(** Modelled from the spec: [BaseEnv.get_thermal_limit] is not part of the
    sources at hand; it reports the thermal limits that the environment holds
    (those of the backend while none were given). *)
Definition get_thermal_limit (self : Environment) : list Float :=
  match _thermal_limit_a self with
  | Some t => t
  | None => bk_thermal_limit_a (backend self)
  end.

End DataModel.

(** ** Construction of an environment

    The constructor runs in a state-and-error monad over the object being
    built.  A call into code that is not part of the sources at hand (the
    backend, the chronics handler, the helper classes, [BaseEnv]) is an event:
    it is written to the log, and the collaborators decide, from the calls made
    so far, whether it raises or what it returns. *)

Record Call := mkCall { call_target : string; call_method : string }.

#[global] Instance Call_eq_dec : EqDecision Call.
Proof. solve_decision. Defined.

Section Construction.
Context {FO : FloatOps} {OB : ObservationBase}.

Inductive Outcome :=
| Raises (e : Exc)
| Returns (v : PyVal).

Class Externals := {
  (* the answer to a call, given the calls made before it (latest first) *)
  world : list Call -> Call -> Outcome;
  (* [Backend.copy()] *)
  backend_copy : Backend -> Backend;
}.
Context {EX : Externals}.

Record CState := mkCState { cs_self : Environment; cs_log : list Call }.

Definition M (A : Type) : Type := CState -> (Exc + A) * CState.

#[global] Instance M_ret : MRet M := λ A a s, (inr a, s).
#[global] Instance M_bind : MBind M := λ A B f m s,
  match m s with
  | (inl e, s') => (inl e, s')
  | (inr a, s') => f a s'
  end.

Definition raise {A} (e : Exc) : M A := λ s, (inl e, s).
Definition get_self : M Environment := λ s, (inr (cs_self s), s).
Definition modify (f : Environment -> Environment) : M unit :=
  λ s, (inr tt, mkCState (f (cs_self s)) (cs_log s)).
Definition when (c : bool) (m : M unit) : M unit := if c then m else mret tt.

(** A call to a collaborator. *)
Definition call (target method : string) : M PyVal := λ s,
  let c := mkCall target method in
  let s' := mkCState (cs_self s) (c :: cs_log s) in
  match world (cs_log s) c with
  | Raises e => (inl e, s')
  | Returns v => (inr v, s')
  end.

(** A method of [self.backend]: when it returns a backend state, that is the
    state of the backend object after the call. *)
Definition bcall (method : string) : M PyVal :=
  v ← call "backend" method;
  match v with
  | PyBackend b' => modify (set_backend b')
  | _ => mret tt
  end;;
  mret v.

(** A method of [self.chronics_handler], in the same way. *)
Definition ccall (method : string) : M PyVal :=
  v ← call "chronics_handler" method;
  match v with
  | PyChronics c' => modify (set_chronics_handler c')
  | _ => mret tt
  end;;
  mret v.

(** [self.<attribute> = <result of the call>] *)
Definition setattr_call (k target method : string) : M unit :=
  v ← call target method; modify (setattr k v).

Definition warn : M unit := _ ← call "warnings" "warn"; mret tt.

(** The error of the eager check on the backend. *)
Definition same_backend_twice : Exc :=
  mkExc EnvError "Impossible to use the same backend twice".

(** [Environment._init_backend], from the loading of the grid on: what the
    method does once the reward class and the backend have been checked. *)
Definition _init_backend_build
    (chronics_handler' names_chronics_to_backend
     actionClass observationClass rewardClass legalActClass : PyVal) : M unit :=
  self ← get_self;
  when (_read_from_local_dir self)
    (p ← call "self" "get_path_env";
     modify (λ e, set_backend
       (match p with PyStr s => set__PATH_ENV s (backend e)
                   | _ => backend e end) e));;
  bcall "set_env_name";;
  bcall "load_grid";;
  call "self" "get_path_env";; bcall "load_redispacthing_data";;
  call "self" "get_path_env";; bcall "load_storage_data";;
  call "self" "get_path_env";;
  exc_ ← bcall "load_grid_layout";
  when (match exc_ with PyNone => false | _ => true end) warn;;
  modify (λ e, set_backend (set__is_loaded true (backend e)) e);;
  (* alarm set up *)
  call "self" "load_alarm_data";;
  bcall "assert_grid_correct";;
  call "self" "_handle_compat_glop_version";;
  call "self" "_has_been_initialized";;
  modify (λ e, set_env_state
    (set__line_status (replicate (n_line (backend e)) true) (env_state e)) e);;
  modify (λ e, setattr "_disc_lines"
    (PyIntArray (replicate (n_line (backend e)) (0 - 1))) e);;
  self ← get_self;
  match _thermal_limit_a self with
  | None => modify (set__thermal_limit_a
              (Some (dt_float <$> bk_thermal_limit_a (backend self))))
  | Some _ => _ ← bcall "set_thermal_limit"; mret tt
  end;;
  bcall "generators_info";;
  (* rules of the game *)
  when (negb (isinstance_type legalActClass))
    (raise (mkExc Grid2OpException "legalActClass should be a type (a class)"));;
  when (negb (issubclass_val legalActClass "BaseRules"))
    (raise (mkExc Grid2OpException "legalActClass should derive from BaseRules"));;
  setattr_call "_game_rules" "RulesChecker" "__init__";;
  modify (setattr "_legalActClass" legalActClass);;
  (* action helper *)
  when (negb (isinstance_type actionClass))
    (raise (mkExc Grid2OpException "actionClass should be a type (a class)"));;
  when (negb (issubclass_val actionClass "BaseAction"))
    (raise (mkExc Grid2OpException "actionClass should derive from BaseAction"));;
  when (negb (isinstance_type observationClass))
    (raise (mkExc Grid2OpException "observationClass should be a type (a class)"));;
  when (negb (issubclass_val observationClass "BaseObservation"))
    (raise (mkExc Grid2OpException "observationClass should derive from BaseObservation"));;
  (* action affecting the grid that will be made by the agent *)
  modify (setattr "_rewardClass" rewardClass);;
  setattr_call "_actionClass" "actionClass" "init_grid";;
  call "_actionClass" "_add_shunt_data";;
  call "_actionClass" "_update_value_set";;
  setattr_call "_observationClass" "observationClass" "init_grid";;
  setattr_call "_complete_action_cls" "CompleteAction" "init_grid";;
  setattr_call "_helper_action_class" "ActionSpace" "init_grid";;
  setattr_call "_action_space" "_helper_action_class" "__call__";;
  setattr_call "_helper_action_env" "_helper_action_class" "__call__";;
  (* handles input data *)
  c ← match chronics_handler' with
      | PyChronics c => mret c
      | _ => raise (mkExc Grid2OpException
                      "chronics_handler should derive from ChronicsHandler")
      end;
  modify (set_chronics_handler c);;
  ccall "initialize";;
  modify (setattr "_names_chronics_to_backend" names_chronics_to_backend);;
  setattr_call "_helper_observation_class" "ObservationSpace" "init_grid";;
  setattr_call "_observation_space" "_helper_observation_class" "__call__";;
  (* the backend has to be consistent with the chronics *)
  ccall "check_validity";;
  setattr_call "delta_time_seconds" "chronics_handler" "time_interval";;
  call "self" "_reset_storage";;
  (* reward function *)
  setattr_call "_reward_helper" "RewardHelper" "__init__";;
  call "_reward_helper" "initialize";;
  self ← get_self;
  mapM (λ kv : string * PyClass, call kv.1 "initialize") (other_rewards self);;
  (* controller for voltage *)
  match _voltagecontrolerClass self with
  | PyType c =>
      when (negb (issubclass c "BaseVoltageController"))
        (raise (mkExc Grid2OpException
                  "voltagecontrolClass should derive from ControlVoltageFromFile"))
  | _ => raise (mkExc TypeError "issubclass() arg 1 must be a class")
  end;;
  setattr_call "_voltage_controler" "_voltagecontrolerClass" "__call__";;
  call "self" "_create_opponent";;
  call "self" "_create_attention_budget";;
  (* one step, to load the environment properly *)
  call "self" "_reset_maintenance";;
  call "self" "_reset_redispatching";;
  call "_helper_action_env" "__call__";;
  fail_to_start ← call "self" "step";
  when (truthy fail_to_start)
    (raise (mkExc Grid2OpException
              "Impossible to initialize the powergrid, the powerflow diverge at iteration 0"));;
  bcall "assert_grid_correct_after_powerflow";;
  (* for gym compatibility *)
  setattr_call "reward_range" "_reward_helper" "range";;
  modify (setattr "viewer" PyNone);;
  modify (setattr "viewer_fig" PyNone);;
  modify (setattr "metadata" (PyTypes []));;
  modify (setattr "spec" PyNone);;
  modify (λ e, setattr "current_reward" (default PyNone (attrs e !! "reward_range")) e);;
  modify (λ e, set_env_state (set_done false (env_state e)) e);;
  (* reset everything to be consistent *)
  _ ← call "self" "_reset_vectors_and_timings"; mret tt.

(** [Environment._init_backend] *)
Definition _init_backend
    (chronics_handler' backend' names_chronics_to_backend
     actionClass observationClass rewardClass legalActClass : PyVal) : M unit :=
  when (negb (isinstance_type rewardClass))
    (raise (mkExc Grid2OpException "rewardClass should be a type (a class)"));;
  when (negb (issubclass_val rewardClass "BaseReward"))
    (raise (mkExc Grid2OpException "rewardClass should derive from BaseReward"));;
  (* backend *)
  b ← match backend' with
      | PyBackend b => mret b
      | _ => raise (mkExc Grid2OpException "backend should derive from Backend")
      end;
  modify (set_backend b);;
  self ← get_self;
  when (is_loaded (backend self)) (raise same_backend_twice);;
  _init_backend_build chronics_handler' names_chronics_to_backend
    actionClass observationClass rewardClass legalActClass.

(** Keyword arguments: [kw !! k] is the argument passed under the name [k]. *)
Definition arg (kw : gmap string PyVal) (k : string) (dflt : PyVal) : PyVal :=
  default dflt (kw !! k).

Definition required (kw : gmap string PyVal) (k : string) : M PyVal :=
  match kw !! k with
  | Some v => mret v
  | None => raise (mkExc TypeError "missing a required argument")
  end.

(** The default classes of the constructor's signature. *)
Definition TopologyAction := mkClass "TopologyAction" ["PlayableAction"; "BaseAction"].
Definition CompleteObservation := mkClass "CompleteObservation" ["BaseObservation"].
Definition FlatReward := mkClass "FlatReward" ["BaseReward"].
Definition AlwaysLegal := mkClass "AlwaysLegal" ["BaseRules"].
Definition ControlVoltageFromFile :=
  mkClass "ControlVoltageFromFile" ["BaseVoltageController"].

(** The object before [__init__] has run: every attribute is a placeholder,
    written before it is read. *)
Definition blank_backend : Backend :=
  mkBackend (mkClass "Backend" []) false None 0%nat [] [] ([], [], []) ([], [], [])
    ([], [], [], []) ([], [], [], []) [] [] false ([], [], [], [], []) 0.

Definition blank_budget : Budget := mkBudget 0 0 0 0 0 0.

Definition blank_state : EnvironmentState :=
  mkState [] [] [] [] [] [] [] None blank_budget blank_budget
    (mkDatetime 0 0 0 0 0 0) 0 false.

Definition blank_env : Environment :=
  mkEnv "unknown" "" false false None PyNone [] blank_backend
    (mkChronics 0%nat 0 []) ∅ blank_state 0 0 BaseObservation__init__
    None (Some []) [] [].

(** Modelled from the spec: [BaseEnv.__init__] is not part of the sources at
    hand.  It stores its arguments under the attribute names that
    [get_kwargs] reads back. *)
Definition BaseEnv__init__ (kw : gmap string PyVal) (init_grid_path : PyVal) : M unit :=
  call "BaseEnv" "__init__";;
  modify (λ e,
    mkEnv (name e)
      (match init_grid_path with PyStr s => s | _ => _init_grid_path e end)
      (_read_from_local_dir e)
      (truthy (arg kw "with_forecast" (PyBool true)))
      (match arg kw "thermal_limit_a" PyNone with
       | PyFloatArray l => Some l | _ => None end)
      (arg kw "voltagecontrolerClass" (PyType ControlVoltageFromFile))
      (match arg kw "other_rewards" (PyTypes []) with
       | PyTypes d => d | _ => [] end)
      (backend e) (chronics_handler e) (attrs e) (env_state e) (space_prng e)
      (opponent_seed e) (current_obs e) (_new_load e) (gen_cost_per_MW e)
      (p_difference e) (load_difference e));;
  mapM (λ kd : string * PyVal, modify (setattr ("_" +:+ kd.1) (arg kw kd.1 kd.2)))
    [("parameters", PyNone); ("epsilon_poly", PyNone); ("tol_poly", PyNone);
     ("opponent_action_class", PyNone); ("opponent_class", PyNone);
     ("opponent_init_budget", PyNone); ("opponent_budget_per_ts", PyNone);
     ("opponent_budget_class", PyNone); ("opponent_attack_duration", PyInt 0);
     ("opponent_attack_cooldown", PyInt 99999); ("kwargs_opponent", PyTypes []);
     ("attention_budget_cls", PyNone); ("kwargs_attention_budget", PyTypes []);
     ("has_attention_budget", PyBool false)];;
  mret tt.

(** [Environment.__init__], called with keyword arguments *)
Definition Environment__init__ (kw : gmap string PyVal) : M unit :=
  init_grid_path ← required kw "init_grid_path";
  chronics_handler' ← required kw "chronics_handler";
  backend' ← required kw "backend";
  _ ← required kw "parameters";
  BaseEnv__init__ kw init_grid_path;;
  let name' := arg kw "name" (PyStr "unknown") in
  when (match name' with PyStr "unknown" => true | _ => false end) warn;;
  modify (λ e,
    mkEnv (match name' with PyStr s => s | _ => name e end) (_init_grid_path e)
      (truthy (arg kw "_read_from_local_dir" (PyBool true)))
      (with_forecast e) (_thermal_limit_a e) (_voltagecontrolerClass e)
      (other_rewards e) (backend e) (chronics_handler e) (attrs e)
      (env_state e) (space_prng e) (opponent_seed e) (current_obs e)
      (_new_load e) (gen_cost_per_MW e) (p_difference e) (load_difference e));;
  (* for gym compatibility (initialized below) *)
  modify (setattr "reward_range" PyNone);;
  modify (setattr "viewer" PyNone);;
  modify (setattr "metadata" PyNone);;
  modify (setattr "spec" PyNone);;
  match arg kw "_raw_backend_class" PyNone with
  | PyNone =>
      modify (setattr "_raw_backend_class"
        (match backend' with PyBackend b => PyType (bk_type b) | _ => PyNone end))
  | c => modify (setattr "_raw_backend_class" c)
  end;;
  modify (setattr "_compat_glop_version" (arg kw "_compat_glop_version" PyNone));;
  let actionClass := arg kw "actionClass" (PyType TopologyAction) in
  let observationClass := arg kw "observationClass" (PyType CompleteObservation) in
  _init_backend chronics_handler' backend'
    (arg kw "names_chronics_to_backend" PyNone)
    actionClass observationClass
    (arg kw "rewardClass" (PyType FlatReward))
    (arg kw "legalActClass" (PyType AlwaysLegal));;
  modify (setattr "_actionClass_orig" actionClass);;
  modify (setattr "_observationClass_orig" observationClass).

(** Building an environment from keyword arguments: the outcome of the
    construction and the calls made. *)
Definition new_Environment (kw : gmap string PyVal) : (Exc + unit) * CState :=
  Environment__init__ kw (mkCState blank_env []).

(** [copy.deepcopy] of a value is the value. *)
Definition deepcopy (v : PyVal) : PyVal := v.

Definition getattr (self : Environment) (k : string) : PyVal :=
  default PyNone (attrs self !! k).

(** [Environment.get_kwargs] *)
Definition get_kwargs (self : Environment) (with_backend : bool) : gmap string PyVal :=
  let res : gmap string PyVal := ∅ in
  let res := <["init_grid_path" := PyStr (_init_grid_path self)]> res in
  let res := <["chronics_handler" := deepcopy (PyChronics (chronics_handler self))]> res in
  let res :=
    if with_backend then
      let res := <["backend" := PyBackend (backend_copy (backend self))]> res in
      (* res["backend"]._is_loaded = False *)
      alter (λ v, match v with
                  | PyBackend b => PyBackend (set__is_loaded false b)
                  | _ => v end) "backend" res
    else res in
  let res := <["parameters" := deepcopy (getattr self "_parameters")]> res in
  let res := <["names_chronics_to_backend" :=
                 deepcopy (getattr self "_names_chronics_to_backend")]> res in
  let res := <["actionClass" := getattr self "_actionClass_orig"]> res in
  let res := <["observationClass" := getattr self "_observationClass_orig"]> res in
  let res := <["rewardClass" := getattr self "_rewardClass"]> res in
  let res := <["legalActClass" := getattr self "_legalActClass"]> res in
  let res := <["epsilon_poly" := getattr self "_epsilon_poly"]> res in
  let res := <["tol_poly" := getattr self "_tol_poly"]> res in
  let res := <["thermal_limit_a" :=
                 match _thermal_limit_a self with
                 | Some l => PyFloatArray l | None => PyNone end]> res in
  let res := <["voltagecontrolerClass" := _voltagecontrolerClass self]> res in
  let res := <["other_rewards" := PyTypes (other_rewards self)]> res in
  let res := <["name" := PyStr (name self)]> res in
  let res := <["_raw_backend_class" := getattr self "_raw_backend_class"]> res in
  let res := <["with_forecast" := PyBool (with_forecast self)]> res in
  let res := <["opponent_action_class" := getattr self "_opponent_action_class"]> res in
  let res := <["opponent_class" := getattr self "_opponent_class"]> res in
  let res := <["opponent_init_budget" := getattr self "_opponent_init_budget"]> res in
  let res := <["opponent_budget_per_ts" := getattr self "_opponent_budget_per_ts"]> res in
  let res := <["opponent_budget_class" := getattr self "_opponent_budget_class"]> res in
  let res := <["opponent_attack_duration" := getattr self "_opponent_attack_duration"]> res in
  let res := <["opponent_attack_cooldown" := getattr self "_opponent_attack_cooldown"]> res in
  let res := <["kwargs_opponent" := getattr self "_kwargs_opponent"]> res in
  let res := <["attention_budget_cls" := getattr self "_attention_budget_cls"]> res in
  let res := <["kwargs_attention_budget" :=
                 deepcopy (getattr self "_kwargs_attention_budget")]> res in
  let res := <["has_attention_budget" := getattr self "_has_attention_budget"]> res in
  let res := <["_read_from_local_dir" := PyBool (_read_from_local_dir self)]> res in
  res.

(** The call that takes a step. *)
Definition step_call : Call := mkCall "self" "step".

(** [safe P L m]: the calls that [m] makes satisfy [L], and an exception that
    comes out of [m] satisfies [P] unless a collaborator raised it. *)
Definition safe {A} (P : Exc -> Prop) (L : Call -> Prop) (m : M A) : Prop :=
  forall s,
    (exists new, cs_log (m s).2 = new ++ cs_log s /\ Forall L new)
    /\ (forall e, (m s).1 = inl e -> P e \/ exists h c, world h c = Raises e).

(** [m] ends with an exception, whatever the state it starts from. *)
Definition fails {A} (m : M A) : Prop := forall s, exists e, (m s).1 = inl e.

Definition doomed {A} (P : Exc -> Prop) (L : Call -> Prop) (m : M A) : Prop :=
  safe P L m /\ fails m.

(** A malformed argument of the constructor: a reward, rules, action or
    observation class that is not a class derived from its base class, or a
    backend that is not an instance of [Backend]. *)
Definition malformed (backend' actionClass observationClass rewardClass
    legalActClass : PyVal) : Prop :=
  well_formed_class rewardClass "BaseReward" = false
  \/ isinstance_Backend backend' = false
  \/ well_formed_class legalActClass "BaseRules" = false
  \/ well_formed_class actionClass "BaseAction" = false
  \/ well_formed_class observationClass "BaseObservation" = false.

(** The collaborators are polite when the exceptions they raise are errors
    of the library. *)
Definition polite : Prop :=
  forall h c e, world h c = Raises e -> is_Grid2OpException e = true.

End Construction.

(** ** EssentialObservation.update *)

Section ObservationAssembly.
Context {FO : FloatOps} {OB : ObservationBase}.

(** Modelled from the spec: [BaseObservation.get_time_stamp] is not part of
    the sources at hand; the time stamp of an observation is made of its time
    fields. *)
Definition get_time_stamp (self : Observation) : datetime :=
  mkDatetime (year self) (month self) (day self)
    (hour_of_day self) (minute_of_hour self) (day_of_week self).

(** The error of numpy for a slice assignment whose shapes do not agree. *)
Definition assign_error : Exc :=
  mkExc (ForeignError "ValueError") "could not broadcast input array".

(** [dest[:] = values] on arrays of one dimension: the destination keeps its
    shape and its type, to which the values are cast; an array of one
    element is broadcast, and any other shape raises a ValueError. *)
Definition assign {A B} (cast : B -> A) (dest : list A) (values : list B)
    : Exc + list A :=
  if bool_decide (length values = length dest) then inr (cast <$> values)
  else
    match values with
    | [v] => inr (replicate (length dest) (cast v))
    | _ => inl assign_error
    end.

(** What [dest[:] = values] leaves in the array when it returns, in the
    words of numpy: the values, cast, when the shapes agree, and the one
    value everywhere when it is broadcast. *)
Definition slice_assigned {A B} (cast : B -> A) (dest : list A) (values : list B)
    (stored : list A) : Prop :=
  length stored = length dest
  /\ (length values = length dest -> stored = cast <$> values)
  /\ (forall v, values = [v] -> stored = replicate (length dest) (cast v)).

(** [dt_float(1.0 * a)] *)
Definition times_one (a : list Float) : list Float :=
  (λ x, dt_float (fmul (float_of_int 1) x)) <$> a.

(** [update] reads the environment and its collaborators through their
    methods, and raises when an assignment does: a computation returns a
    value or an exception, with the calls it made, in their order. *)
Definition Traced (A : Type) : Type := (Exc + A) * list Call.

#[global] Instance Traced_ret : MRet Traced := λ A a, (inr a, []).
#[global] Instance Traced_bind : MBind Traced := λ A B f m,
  match m with
  | (inl e, calls) => (inl e, calls)
  | (inr a, calls) => let '(b, calls') := f a in (b, calls ++ calls')
  end.

(** The call [target.method()] of a method that is not part of the sources
    at hand, which returns [v]. *)
Definition ask {A} (target method : string) (v : A) : Traced A :=
  (inr v, [mkCall target method]).

(** The call [target.method()] of a method of the sources, with the calls
    that its body makes. *)
Definition method {A} (target name : string) (body : Traced A) : Traced A :=
  (body.1, mkCall target name :: body.2).

(** An assignment, which makes no call. *)
Definition assigned {A} (r : Exc + A) : Traced A := (r, []).

(** [Environment.max_episode_duration], with the call it makes. *)
Definition max_episode_duration_traced (self : Environment) : Traced Z :=
  tmp ← ask "chronics_handler" "max_episode_duration"
          (ch_max_episode_duration (chronics_handler self));
  let tmp := dt_int tmp in
  mret (if tmp <? 0 then dt_int int32_max else tmp).

(** [EssentialObservation.update(self, env, with_forecast)]: the object after
    the call when it returns, or the exception it raises, and the calls
    made.  (When an assignment raises, the object keeps what the statements
    before it have assigned.) *)
Definition update_traced (self : Observation) (env : Environment)
    (with_forecast' : bool) : Traced Observation :=
  (* reset the matrices *)
  let self := _reset_matrices self in
  let self := BaseObservation_reset self in
  let bk := backend env in
  (* counter *)
  let current_step' := nb_time_step (env_state env) in
  max_step' ← method "env" "max_episode_duration" (max_episode_duration_traced env);
  (* extract the time stamps *)
  let ts := time_stamp (env_state env) in
  let timestamp :=
    mkDatetime (dt_int (dt_year ts)) (dt_int (dt_month ts)) (dt_int (dt_day ts))
      (dt_int (dt_hour ts)) (dt_int (dt_minute ts)) (dt_int (dt_weekday ts)) in
  (* get the values related to topology *)
  timestep_overflow' ←
    assigned (assign dt_int (timestep_overflow self) (_timestep_overflow (env_state env)));
  status ← ask "backend" "get_line_status" (bk_line_status bk);
  line_status' ← assigned (assign id (line_status self) status);
  topo ← ask "backend" "get_topo_vect" (bk_topo_vect bk);
  topo_vect' ← assigned (assign dt_int (topo_vect self) topo);
  (* get the values related to continuous values *)
  '(p, q, v) ← ask "backend" "generators_info" (bk_generators_info bk);
  gen_p' ← assigned (assign dt_float (gen_p self) p);
  gen_q' ← assigned (assign dt_float (gen_q self) q);
  gen_v' ← assigned (assign dt_float (gen_v self) v);
  '(p, q, v) ← ask "backend" "loads_info" (bk_loads_info bk);
  load_p' ← assigned (assign dt_float (load_p self) p);
  load_q' ← assigned (assign dt_float (load_q self) q);
  load_v' ← assigned (assign dt_float (load_v self) v);
  '(p, q, v, a) ← ask "backend" "lines_or_info" (bk_lines_or_info bk);
  p_or' ← assigned (assign dt_float (p_or self) p);
  q_or' ← assigned (assign dt_float (q_or self) q);
  v_or' ← assigned (assign dt_float (v_or self) v);
  a_or' ← assigned (assign dt_float (a_or self) a);
  '(p, q, v, a) ← ask "backend" "lines_ex_info" (bk_lines_ex_info bk);
  p_ex' ← assigned (assign dt_float (p_ex self) p);
  q_ex' ← assigned (assign dt_float (q_ex self) q);
  v_ex' ← assigned (assign dt_float (v_ex self) v);
  a_ex' ← assigned (assign dt_float (a_ex self) a);
  (* handles forecasts here *)
  forecasted ←
    (if with_forecast' then
       let dict_ : gmap string (list Float) :=
         <["prod_v" := times_one gen_v']>
           (<["prod_p" := times_one gen_p']>
             (<["load_q" := times_one load_q']>
               (<["load_p" := times_one load_p']> ∅))) in
       let inj_action : InjAction := <["injection" := dict_]> ∅ in
       (* timestamp = self.get_time_stamp(): the time fields assigned above *)
       rows ← ask "chronics_handler" "forecasts" (ch_forecasts (chronics_handler env));
       let forecasted_inj := [(timestamp, inj_action)] ++ rows in
       mret (forecasted_inj, (λ _, None) <$> forecasted_inj)
     else mret (_forecasted_inj self, _forecasted_grid self));
  flow ← ask "backend" "get_relative_flow" (bk_relative_flow bk);
  rho' ← assigned (assign dt_float (rho self) (dt_float <$> flow));
  (* cool down and reconnection time *)
  cooldown_line ←
    assigned (assign dt_int (time_before_cooldown_line self)
                (_times_before_line_status_actionable (env_state env)));
  cooldown_sub ←
    assigned (assign dt_int (time_before_cooldown_sub self)
                (_times_before_topology_actionable (env_state env)));
  thermal ← ask "env" "get_thermal_limit" (get_thermal_limit env);
  thermal' ← assigned (assign dt_float (_thermal_limit self) thermal);
  '(support, theta_or', theta_ex', load_theta', gen_theta', storage_theta') ←
    (if can_output_theta bk then
       '(t_or, t_ex, t_load, t_gen, t_storage) ← ask "backend" "get_theta" (bk_theta bk);
       theta_or' ← assigned (assign dt_float (theta_or self) t_or);
       theta_ex' ← assigned (assign dt_float (theta_ex self) t_ex);
       load_theta' ← assigned (assign dt_float (load_theta self) t_load);
       gen_theta' ← assigned (assign dt_float (gen_theta self) t_gen);
       storage_theta' ← assigned (assign dt_float (storage_theta self) t_storage);
       mret (true, theta_or', theta_ex', load_theta', gen_theta', storage_theta')
     else mret (support_theta self, theta_or self, theta_ex self, load_theta self,
                gen_theta self, storage_theta self));
  mret
    {| current_step := current_step';
       max_step := max_step';
       year := dt_year timestamp; month := dt_month timestamp;
       day := dt_day timestamp; hour_of_day := dt_hour timestamp;
       minute_of_hour := dt_minute timestamp; day_of_week := dt_weekday timestamp;
       timestep_overflow := timestep_overflow';
       line_status := line_status';
       topo_vect := topo_vect';
       gen_p := gen_p'; gen_q := gen_q'; gen_v := gen_v';
       load_p := load_p'; load_q := load_q'; load_v := load_v';
       p_or := p_or'; q_or := q_or'; v_or := v_or'; a_or := a_or';
       p_ex := p_ex'; q_ex := q_ex'; v_ex := v_ex'; a_ex := a_ex';
       _forecasted_inj := forecasted.1;
       _forecasted_grid := forecasted.2;
       rho := rho';
       time_before_cooldown_line := cooldown_line;
       time_before_cooldown_sub := cooldown_sub;
       _thermal_limit := thermal';
       support_theta := support;
       theta_or := theta_or'; theta_ex := theta_ex';
       load_theta := load_theta'; gen_theta := gen_theta';
       storage_theta := storage_theta';
       obs_n_line := obs_n_line self |}.

(** The object after the call, or the exception raised. *)
Definition update (self : Observation) (env : Environment) (with_forecast' : bool)
    : Exc + Observation :=
  (update_traced self env with_forecast').1.

(** The calls of [update], the first one first. *)
Definition update_calls (self : Observation) (env : Environment)
    (with_forecast' : bool) : list Call :=
  (update_traced self env with_forecast').2.

(** The methods of the backend that report its state. *)
Definition reporting_interface : list string :=
  ["get_line_status"; "get_topo_vect"; "generators_info"; "loads_info";
   "lines_or_info"; "lines_ex_info"; "get_relative_flow"; "get_theta"].

End ObservationAssembly.

(** ** The reward classes of [grid2op/Reward] *)

Section Rewards.
Context {FO : FloatOps} {OB : ObservationBase}.

(** What a reward callable hands back to the engine. *)
Inductive RewardValue :=
| RFloat (x : Float)                       (* a Python or numpy float *)
| RInt (n : Z)                             (* a Python integer *)
| RArray (l : list Float)                  (* a numpy array *)
| RDict (d : gmap string (list Z)).        (* a dictionary of arrays *)





(** [np.sum] *)
Definition np_sum (a : list Float) : Float := foldl fadd (float_of_int 0) a.

(** [a * b] on arrays of one dimension: their shapes agree, or one of them
    has one element, which is broadcast; else numpy raises a ValueError. *)
Definition np_multiply (a b : list Float) : Exc + list Float :=
  if bool_decide (length a = length b) then inr (zip_with fmul a b)
  else
    match a, b with
    | [x], _ => inr (fmul x <$> b)
    | _, [y] => inr ((λ x, fmul x y) <$> a)
    | _, _ => inl broadcast_error
    end.

(** [None * array] *)
Definition none_operand : Exc :=
  mkExc TypeError "unsupported operand type(s) for *: 'NoneType' and 'float'".

(** [BaseEnv.get_obs] and the observation space are not part of the sources
    at hand: the observation that [env.get_obs()] returns is a parameter. *)
Class ObservationSpace := {
  get_obs : Environment -> Observation;
}.
Context {OS : ObservationSpace}.

(** *** ActionRecorder *)


(** *** ResilienceReward *)

Record ResilienceReward := mkResilienceReward {
  _lambda : Float;
  eps : Float;
  min_pen_lte : Float;
  max_pen_gte : Float;
  (* set by [initialize] *)
  isolated_penalty_multiplier : option Z;
  reward_min : option Float;
  reward_illegal : option Float;
  reward_max : option Float;
}.

Definition ResilienceReward__init__ : ResilienceReward :=
  mkResilienceReward (float_of_int 1000) (float_of_int 1000)
    (dt_float (float_of_int 0)) (dt_float (float_of_int 10))
    None None None None.

Definition ResilienceReward_initialize (self : ResilienceReward) (env : Environment)
    : ResilienceReward :=
  mkResilienceReward (_lambda self) (eps self) (min_pen_lte self) (max_pen_gte self)
    (Some 1) (Some (float_of_int 0)) (Some (float_of_int (-1)))
    (Some (dt_float (float_of_int (Z.of_nat (n_line (backend env)))))).

(** Reading an attribute that [initialize] sets. *)
Definition attribute (a : option Float) : Exc + RewardValue :=
  match a with
  | Some x => inr (RFloat x)
  | None => inl (mkExc (ForeignError "AttributeError") "no such attribute")
  end.

(** The loop [for line_idx in range(n_line)] that counts the connected
    lines; [obs.line_status[line_idx]] raises out of range. *)
Fixpoint count_connected (status : list bool) (idx : list nat) (conn_line : Z)
    : Exc + Z :=
  match idx with
  | [] => inr conn_line
  | line_idx :: rest =>
      match status !! line_idx with
      | None => inl (mkExc IndexError "index out of bounds")
      | Some false => count_connected status rest conn_line
      | Some true => count_connected status rest (conn_line + 1)
      end
  end.

Definition ResilienceReward__call__ (self : ResilienceReward)
    (action : Action) (env : Environment)
    (has_error is_done is_illegal is_ambiguous : bool) : Exc + RewardValue :=
  if has_error && (is_illegal || is_ambiguous) then attribute (reward_illegal self)
  else if has_error && is_done then attribute (reward_min self)
  else
    (* Get info from env *)
    let obs := current_obs env in
    let n_line := obs_n_line obs in
    match count_connected (line_status obs) (seq 0 n_line) 0 with
    | inl e => inl e
    | inr conn_line =>
        if bool_decide (n_line = 0%nat)
        then inl (mkExc ZeroDivisionError "division by zero")
        else
          let LC := fdiv (float_of_int conn_line) (float_of_int (Z.of_nat n_line)) in
          let actual_load := load_p (current_obs env) in
          let LS :=
            match _new_load env with
            | None => float_of_int 0
            | Some scheduled_load => fdiv (np_sum actual_load) (np_sum scheduled_load)
            end in
          (* OC = np.sum(env.gen_cost_per_MW * env._p_difference()) *)
          match gen_cost_per_MW env with
          | None => inl none_operand
          | Some cost =>
              match np_multiply cost (p_difference env) with
              | inl e => inl e
              | inr costs =>
                  let OC := np_sum costs in
                  let reward := fadd (fmul (_lambda self) LS) (fmul (eps self) LC) in
                  inr (RFloat reward)
              end
          end
    end.

(** *** GenDiffMetric *)


(** *** GridIntegrityMetric *)


(** *** ResponseQualityMetric *)

(** The loop over the lines whose cooldown is over: a line that could be
    reconnected but is not adds [dt_float(1.0)]. *)
Fixpoint count_reconnectable (status : list bool) (lines_id : list nat)
    (n_lines : Float) : Exc + Float :=
  match lines_id with
  | [] => inr n_lines
  | line_id :: rest =>
      match status !! line_id with
      | None => inl (mkExc IndexError "index out of bounds")
      | Some false =>
          count_reconnectable status rest (fadd n_lines (dt_float (float_of_int 1)))
      | Some true => count_reconnectable status rest n_lines
      end
  end.

Definition ResponseQualityMetric__call__ (action : Action) (env : Environment)
    (has_error is_done is_illegal is_ambiguous : bool) : Exc + RewardValue :=
  if has_error || is_illegal || is_ambiguous then inr (RInt (-1))
  else
    (* Get obs from env *)
    let obs := get_obs env in
    (* All lines ids *)
    let lines_id := seq 0 (n_line (backend env)) in
    if negb (bool_decide (length (time_before_cooldown_line obs) = length lines_id))
    then inl (mkExc IndexError "boolean index did not match")
    else
      let lines_id :=
        (filter (λ ic : nat * Z, ic.2 = 0)
           (zip lines_id (time_before_cooldown_line obs))).*1 in
      match count_reconnectable (line_status obs) lines_id (dt_float (float_of_int 0)) with
      | inl e => inl e
      | inr n_lines => inr (RFloat n_lines)
      end.

(** *** UnsuppliedLoadMetric *)


End Rewards.

(** ** The step engine

    [BaseEnv] (with [step] and the reset of the counters),
    [BaseObservation.simulate] and the observation space are not part of the
    sources at hand: the engine of this section is modelled from the
    specification.  It follows the per-step contract point by point; the
    components that the specification treats as collaborators (rule checker,
    chronics, opponent policy, topology and injection model, backend solver,
    reward) are the fields of [Collaborators]. *)

Section StepEngine.
Context {FO : FloatOps} {OB : ObservationBase} {OS : ObservationSpace} {EX : Externals}.

(** Modelled from the spec: a row of the chronics, which [load_next] is
    missing to return: the time it is for, the scheduled injections and the
    lines under scheduled maintenance. *)
Record Row := mkRow {
  row_time : datetime;
  row_injection : InjAction;
  row_maintenance : list bool;
}.

(** Modelled from the spec: the components that the specification names as
    collaborators of the step engine, none of them part of the sources at
    hand, and the values it calls configured. *)
Class Collaborators := {
  (* configured values *)
  NB_TIMESTEP_COOLDOWN_LINE : Z;
  NB_TIMESTEP_COOLDOWN_SUB : Z;
  NB_TIMESTEP_OVERFLOW_ALLOWED : Z;
  HARD_OVERFLOW_THRESHOLD : Float;
  cascade_cap : nat;
  attack_duration : Z;
  initial_state : EnvironmentState;
  (* rule checker *)
  legal : Action -> EnvironmentState -> bool;
  ambiguous : Action -> bool;
  fallback : Action;
  (* chronics: the next row, or the end of the episode *)
  load_next : Z -> ChronicsHandler -> option (Row * ChronicsHandler) * Z;
  next_chronics : ChronicsHandler -> ChronicsHandler;
  (* opponent policy: the line it asks to attack *)
  opponent_policy : Z -> EnvironmentState -> option nat * Z;
  (* topology and injection model *)
  compose : Row -> option nat -> Action -> EnvironmentState -> list bool * list Z;
  lines_reconfigured : Action -> EnvironmentState -> list bool;
  subs_reconfigured : Action -> EnvironmentState -> list bool;
  voltage_control : Action -> Row -> InjAction -> InjAction;
  resolve_redispatch : Action -> EnvironmentState -> InjAction -> InjAction * list Float;
  (* backend: commit and solve; the flag tells whether it converged *)
  runpf : Backend -> list bool -> list Z -> InjAction -> Backend * bool;
  backend_reset : Backend -> Backend;
  (* reward *)
  reward_fn : Action -> Environment -> bool -> bool -> bool -> bool -> Float;
}.
Context {CO : Collaborators}.

(** Modelled from the spec: the diagnostics and the result of [BaseEnv.step]. *)
Record Info := mkInfo {
  is_illegal : bool;
  is_ambiguous : bool;
  is_alarm_illegal : bool;
  has_error : bool;
  diverging_exception : option string;
  opponent_attack_info : option nat;
}.

(** Modelled from the spec: what [BaseEnv.step] returns. *)
Record StepOutput := mkOutput {
  out_obs : Observation;
  out_reward : Float;
  out_done : bool;
  out_info : Info;
}.

(** Modelled from the spec: the state error of [BaseEnv.step], raised by a
    step taken after the end of the episode. *)
Definition state_error : Exc :=
  mkExc Grid2OpException "Impossible to make a step: the episode is over, call reset()".

(** *** Budgets *)

(** Modelled from the spec: a spend is permitted if the balance covers its
    cost and the cooldown has elapsed. *)
Definition affordable (b : Budget) : bool :=
  (cost b <=? balance b) && (cooldown_left b =? 0).

(** Modelled from the spec: one step of a budget, missing with [BaseEnv]:
    income, the debit if a spend was accepted, and the cooldown, which
    decreases to zero or starts when [start_cooldown]. *)
Definition budget_step (spend start_cooldown : bool) (b : Budget) : Budget :=
  mkBudget
    (Z.min (budget_max b)
       (balance b + income b - (if spend then cost b else 0)))
    (budget_max b) (income b) (cost b) (cooldown_after_spend b)
    (if start_cooldown then cooldown_after_spend b
     else Z.max 0 (cooldown_left b - 1)).

(** Modelled from the spec: the opponent subsystem, missing from the
    sources.  An attack that is running goes on; a new one starts when the
    policy asks for it and the budget allows.  The result is the line forced
    out of service, the attack that remains, and the budget. *)
Definition opponent_step (asked : option nat) (s : EnvironmentState)
    : option nat * option (nat * Z) * Budget :=
  match _attack s with
  | Some (l, remaining) =>
      if remaining <=? 1
      then (Some l, None, budget_step false true (opponent_budget s))
      else (Some l, Some (l, remaining - 1),
            budget_step false false (opponent_budget s))
  | None =>
      match asked with
      | Some l =>
          if affordable (opponent_budget s) && (0 <? attack_duration)
          then (Some l,
                (if attack_duration <=? 1 then None else Some (l, attack_duration - 1)),
                budget_step true (attack_duration <=? 1) (opponent_budget s))
          else (None, None, budget_step false false (opponent_budget s))
      | None => (None, None, budget_step false false (opponent_budget s))
      end
  end.

(** *** Cascading failures *)

(** Modelled from the spec: the lines whose relative flow is above a
    threshold, and their disconnection (missing with [BaseEnv]). *)
Definition over (threshold : Float) (bk : Backend) : list bool :=
  (λ r, fltb threshold r) <$> bk_relative_flow bk.

(** Modelled from the spec: the forced disconnection of the lines that
    tripped. *)
Definition disconnect (tripped status : list bool) : list bool :=
  zip_with (λ t s, s && negb t) tripped status.

(** Modelled from the spec: the cascade loop of [BaseEnv.step].  Solve;
    disconnect the lines above the hard threshold and solve again, at most
    [fuel] times.  The flag is false when the divergence persists. *)
Fixpoint cascade (fuel : nat) (bk : Backend) (status : list bool) (topo : list Z)
    (inj : InjAction) : Backend * list bool * bool :=
  match fuel with
  | O => (bk, status, false)
  | S fuel' =>
      let '(bk', converged) := runpf bk status topo inj in
      let tripped := over HARD_OVERFLOW_THRESHOLD bk' in
      if existsb id tripped
      then cascade fuel' bk' (disconnect tripped status) topo inj
      else (bk', status, converged)
  end.

(** *** Timers *)

(** Modelled from the spec: the soft-overflow timer of a line, missing with
    [BaseEnv]; it counts the consecutive steps above the soft threshold. *)
Definition overflow_timers (bk : Backend) (timers : list Z) : list Z :=
  zip_with (λ (o : bool) t, if o then t + 1 else 0) (over (float_of_int 1) bk) timers.

(** Modelled from the spec: the lines whose timer exceeds the configured
    number of steps. *)
Definition timed_out (timers : list Z) : list bool :=
  (λ t, NB_TIMESTEP_OVERFLOW_ALLOWED <? t) <$> timers.

(** Modelled from the spec: a cooldown counter after a step of [BaseEnv]:
    the configured value if the step reconfigured its line or substation,
    else one less, not below zero. *)
Definition cooldown_step (configured : Z) (reconfigured : list bool) (c : list Z)
    : list Z :=
  zip_with (λ (r : bool) x, if r then configured else Z.max 0 (x - 1)) reconfigured c.

(** *** One step *)

(** Modelled from the spec: observation assembly by the missing observation
    space, which is what [get_obs] returns. *)
Definition assemble (env : Environment) : Observation := get_obs env.

(** Modelled from the spec: the body of [BaseEnv.step], given what the
    chronics (or the forecast) provide for it; [None] is the end of the
    episode. *)
Definition step_on (next : option Row) (action : Action) (env : Environment)
    : StepOutput * Environment :=
  let s := env_state env in
  (* 1. legality filter *)
  let illegal := negb (legal action s) in
  let ambig := ambiguous action in
  let act := if illegal || ambig then fallback else action in
  match next with
  | None =>
      (* the chronics are exhausted: the episode is over, without an error *)
      let env1 := set_env_state (set_done true s) env in
      let obs := assemble env1 in
      let env2 := set_current_obs obs env1 in
      (mkOutput obs (reward_fn act env2 false true illegal ambig) true
         (mkInfo illegal ambig false false None None), env2)
  | Some row =>
      (* 2. exogenous composition: chronics < opponent < agent *)
      let '(asked, opp_seed') := opponent_policy (opponent_seed env) s in
      let '(forced, attack', opp_budget') := opponent_step asked s in
      let alarm_ok := raise_alarm act && affordable (attention_budget s) in
      let alarm_illegal := raise_alarm act && negb (affordable (attention_budget s)) in
      let '(status0, topo) := compose row forced act s in
      (* 3. voltage control and 4. redispatch resolution *)
      let inj := voltage_control act row (row_injection row) in
      let '(inj, dispatch') := resolve_redispatch act s inj in
      (* 5. commit to the backend, solve; 6. divergence and cascade *)
      let '(bk, status1, converged) := cascade cascade_cap (backend env) status0 topo inj in
      (* 7. soft-overflow timers *)
      let timers := overflow_timers bk (_timestep_overflow s) in
      let soft := timed_out timers in
      let status2 := disconnect soft status1 in
      let timers := zip_with (λ (o : bool) t, if o then 0 else t) soft timers in
      (* 8. cooldowns and budgets *)
      let lines_hit := zip_with orb soft (lines_reconfigured act s) in
      let cd_line :=
        cooldown_step NB_TIMESTEP_COOLDOWN_LINE lines_hit
          (_times_before_line_status_actionable s) in
      let cd_sub :=
        cooldown_step NB_TIMESTEP_COOLDOWN_SUB (subs_reconfigured act s)
          (_times_before_topology_actionable s) in
      let att_budget' := budget_step alarm_ok alarm_ok (attention_budget s) in
      let s' :=
        mkState status2 topo cd_line cd_sub timers dispatch'
          (_storage_current_charge s) attack' opp_budget' att_budget'
          (row_time row) (nb_time_step s + 1) (negb converged) in
      let env1 := set_env_state s' (set_backend bk env) in
      (* 9. observation assembly and reward *)
      let obs := assemble env1 in
      let env2 := set_current_obs obs env1 in
      let err := negb converged in
      (* 10. the result *)
      (mkOutput obs (reward_fn act env2 err err illegal ambig) err
         (mkInfo illegal ambig alarm_illegal err
            (if err then Some "the power flow diverged" else None) forced),
       set_seeds (space_prng env2) opp_seed' env2)
  end.

(** Modelled from the spec: [BaseEnv.step(action)]: a state error once the
    episode is over; else the next row is read from the chronics and the
    step is taken. *)
Definition step (action : Action) (env : Environment)
    : Exc + (StepOutput * Environment) :=
  if done (env_state env) then inl state_error
  else
    let '(next, seed') := load_next (space_prng env) (chronics_handler env) in
    let env := set_seeds seed' (opponent_seed env) env in
    match next with
    | None => inr (step_on None action env)
    | Some (row, chronics') =>
        inr (step_on (Some row) action (set_chronics_handler chronics' env))
    end.

(** *** simulate *)

(** Modelled from the spec: the disposable copy that
    [BaseObservation.simulate] steps: the mutable state and an independent
    backend instance, as a new engine that is ready to step. *)
Definition throwaway_copy (env : Environment) : Environment :=
  set_env_state (set_done false (env_state env))
    (set_backend (backend_copy (backend env)) env).

(** Modelled from the spec: the one-step-ahead forecast held by an
    observation, as the row that [BaseObservation.simulate] steps against. *)
Definition forecast_row (obs : Observation) : option Row :=
  (λ ti : datetime * InjAction, mkRow ti.1 ti.2 []) <$> (_forecasted_inj obs !! 1%nat).

(** Modelled from the spec: [BaseObservation.simulate(action)]: one step of
    the copy against the forecast; the copy is dropped. *)
Definition Observation_simulate (obs : Observation) (env : Environment)
    (action : Action) : StepOutput :=
  (step_on (forecast_row obs) action (throwaway_copy env)).1.

(** *** reset *)

(** The empty action, [self._helper_action_env({})]. *)
Definition do_nothing : Action := mkAction [] [] [] [] [] false.

(** Modelled from the spec: [BaseEnv._reset_vectors_and_timings] and the
    reset of the budgets: all counters and budgets at their configured
    defaults, the machine ready. *)
Definition _reset_vectors_and_timings (env : Environment) : Environment :=
  set_env_state (set_done false initial_state) env.

(** [Environment.reset_grid] *)
Definition reset_grid (env : Environment) : option Exc * Environment :=
  let env := set_backend (backend_reset (backend env)) env in
  match step do_nothing env with
  | inl e => (Some e, env)
  | inr (out, env') =>
      if out_done out
      then (Some (mkExc Grid2OpException
                    "Impossible to initialize the powergrid, the powerflow diverge at iteration 0"),
            env')
      else (None, env')
  end.

(** [Environment.reset]: the environment after the call, and the observation
    it returns unless the grid could not be initialised.  The resets of the
    parent class, of the maintenance, of the redispatching, of the opponent
    and of the rewards are not part of the sources at hand: together they put
    all counters and budgets at their configured defaults, which is what
    [_reset_vectors_and_timings] stands for. *)
Definition reset (env : Environment) : (Exc + Observation) * Environment :=
  (* super().reset() *)
  let env := _reset_vectors_and_timings env in
  (* self.chronics_handler.next_chronics(); self.chronics_handler.initialize(..) *)
  let env := set_chronics_handler (next_chronics (chronics_handler env)) env in
  let env := setattr "_env_modification" PyNone env in
  (* _reset_maintenance(); _reset_redispatching(); _reset_vectors_and_timings() *)
  let env := _reset_vectors_and_timings env in
  match reset_grid env with
  | (Some e, env) => (inl e, env)
  | (None, env) =>
      let env := setattr "viewer_fig" PyNone env in
      let env := _reset_vectors_and_timings env in
      (* self._oppSpace.reset(); the rewards and the observation space too *)
      (inr (get_obs env), env)
  end.

(** *** The caller's view: observations are objects

    An observation handed to the caller is an object of its own: the store
    [w_heap] holds the objects built so far, and a result names its
    observation by its address. *)

Record World := mkWorld { w_env : Environment; w_heap : list Observation }.

(** A new object: its address and the store that holds it. *)
Definition alloc (o : Observation) (h : list Observation) : nat * list Observation :=
  (length h, h ++ [o]).

(** [(observation, reward, done, info)] *)
Definition StepTuple : Type := nat * Float * bool * Info.

(** [env.step(action)], as the caller sees it. *)
Definition Environment_step (action : Action) (w : World)
    : (Exc + StepTuple) * World :=
  match step action (w_env w) with
  | inl e => (inl e, w)
  | inr (out, env') =>
      let '(l, h) := alloc (out_obs out) (w_heap w) in
      (inr (l, out_reward out, out_done out, out_info out), mkWorld env' h)
  end.

(** Modelled from the spec: [Environment.simulate] is
    [self.get_obs().simulate(action)], and neither method is part of the
    sources at hand.  In the words of the specification the step is taken on
    a disposable copy, which is dropped: the engine that the world holds is
    the one before the call. *)
Definition simulate (action : Action) (w : World) : StepTuple * World :=
  let obs := get_obs (w_env w) in
  let '(_, h) := alloc obs (w_heap w) in
  let out := Observation_simulate obs (w_env w) action in
  let '(l, h) := alloc (out_obs out) h in
  ((l, out_reward out, out_done out, out_info out), mkWorld (w_env w) h).

(** [env.reset()], as the caller sees it. *)
Definition Environment_reset (w : World) : (Exc + nat) * World :=
  match reset (w_env w) with
  | (inl e, env') => (inl e, mkWorld env' (w_heap w))
  | (inr obs, env') =>
      let '(l, h) := alloc obs (w_heap w) in
      (inr l, mkWorld env' h)
  end.

(** A call of the caller, and what it gets back. *)
Inductive Op :=
| OpStep (action : Action)
| OpSimulate (action : Action)
| OpReset.

Inductive Result :=
| ResStep (r : Exc + StepTuple)
| ResSimulate (r : StepTuple)
| ResReset (r : Exc + nat).

Definition exec (op : Op) (w : World) : Result * World :=
  match op with
  | OpStep a => let '(r, w') := Environment_step a w in (ResStep r, w')
  | OpSimulate a => let '(r, w') := simulate a w in (ResSimulate r, w')
  | OpReset => let '(r, w') := Environment_reset w in (ResReset r, w')
  end.

Fixpoint run (ops : list Op) (w : World) : list Result * World :=
  match ops with
  | [] => ([], w)
  | op :: ops' =>
      let '(r, w1) := exec op w in
      let '(rs, w2) := run ops' w1 in
      (r :: rs, w2)
  end.

End StepEngine.

(** ** Construction: what the object holds

    Two predicates on the statements of the constructor, to follow an
    attribute from the statement that assigns it to the end. *)

Section ConstructionInvariants.
Context {FO : FloatOps} {OB : ObservationBase} {EX : Externals}.

(** [keeps I m]: [m] leaves the object in [I] when it finds it there. *)
Definition keeps {A} (I : Environment -> Prop) (m : M A) : Prop :=
  forall s, I (cs_self s) -> I (cs_self (m s).2).

(** [ensures Q m]: when [m] returns, the object is in [Q]. *)
Definition ensures {A} (Q : Environment -> Prop) (m : M A) : Prop :=
  forall s a, (m s).1 = inr a -> Q (cs_self (m s).2).

End ConstructionInvariants.

(** ** Environment._handle_compat_glop_version

    The method rewrites the description of the grid that the class of the
    backend holds, so that an environment made for a version of the library
    without storage units can be read back: the storage units leave the
    topology vector. *)

(** A two-dimensional numpy array of integers. *)
Record Matrix := mkMatrix { m_cols : nat; m_rows : list (list Z) }.

(** The class attributes of [type(self.backend)] that the method reads and
    writes. *)
Record GridClass := mkGridClass {
  glop_version : string;
  BEFORE_COMPAT_VERSION : string;
  n_sub : Z;
  n_storage : Z;
  dim_topo : Z;
  sub_info : list Z;
  load_pos_topo_vect : list Z;
  gen_pos_topo_vect : list Z;
  line_or_pos_topo_vect : list Z;
  line_ex_pos_topo_vect : list Z;
  storage_pos_topo_vect : list Z;
  load_to_sub_pos : list Z;
  gen_to_sub_pos : list Z;
  line_or_to_sub_pos : list Z;
  line_ex_to_sub_pos : list Z;
  storage_to_sub_pos : list Z;
  load_to_subid : list Z;
  gen_to_subid : list Z;
  line_or_to_subid : list Z;
  line_ex_to_subid : list Z;
  storage_to_subid : list Z;
  _topo_vect_to_sub : list Z;
  grid_objects_types : Matrix;
  STORAGE_COL : nat;
}.

(** A loop whose body may raise. *)
Fixpoint for_each {A B} (body : A -> B -> Exc + A) (a : A) (l : list B) : Exc + A :=
  match l with
  | [] => inr a
  | x :: l =>
      match body a x with
      | inl e => inl e
      | inr a' => for_each body a' l
      end
  end.

(** [sorted(l, reverse=True)] *)
Definition sorted_reverse (l : list Z) : list Z := merge_sort Z.ge l.

(** [vect[vect >= stor_loc] -= 1] on an array of [dt_int] *)
Definition shift_from (stor_loc : Z) (vect : list Z) : list Z :=
  (fun v => if bool_decide (stor_loc <= v) then dt_int (v - 1) else v) <$> vect.

(** [vect[(vect >= stor_loc) & (sub_id_me == sub_id)] -= 1]: the two arrays
    are compared element by element, an array of one element being
    broadcast. *)
Definition shift_from_in (stor_loc sub_id : Z) (vect sub_id_me : list Z)
    : Exc + list Z :=
  let shift v s :=
    if bool_decide (stor_loc <= v) && bool_decide (s = sub_id)
    then dt_int (v - 1) else v in
  if bool_decide (length vect = length sub_id_me)
  then inr (zip_with shift vect sub_id_me)
  else
    match sub_id_me, vect with
    | [s], _ => inr ((fun v => shift v s) <$> vect)
    | _, [_] => inl mask_error
    | _, _ => inl broadcast_error
    end.

(** [np.where(a == x)[0]] *)
Definition np_where_eq (a : list Z) (x : Z) : list nat :=
  (filter (fun ia : nat * Z => ia.2 = x) (zip (seq 0 (length a)) a)).*1.

(** [a[ids]] for an array of indices *)
Definition take_ids (a : list Z) (ids : list nat) : Exc + list Z :=
  match mapM (fun i => a !! i) ids with
  | Some l => inr l
  | None => inl index_error
  end.

(** [np.sum(a == x)] *)
Definition np_count_eq (a : list Z) (x : Z) : Z :=
  Z.of_nat (length (filter (fun s => s = x) a)).

(** [np.repeat(a, repeats=repeats)] *)
Definition np_repeat (a repeats : list Z) : Exc + list Z :=
  let negative :=
    mkExc (ForeignError "ValueError") "repeats may not contain negative values" in
  match repeats with
  | [r] =>
      if r <? 0 then inl negative
      else inr (mjoin ((fun x => replicate (Z.to_nat r) x) <$> a))
  | _ =>
      if negb (bool_decide (length repeats = length a)) then inl broadcast_error
      else if existsb (fun r => r <? 0) repeats then inl negative
      else inr (mjoin (zip_with (fun x r => replicate (Z.to_nat r) x) a repeats))
  end.

(** [m[m[:, col] == -1, :]] *)
Definition rows_without (col : nat) (m : Matrix) : Exc + Matrix :=
  if bool_decide (col < m_cols m)%nat
  then inr (mkMatrix (m_cols m)
              (filter (fun row : list Z => row !! col = Some (-1)) (m_rows m)))
  else inl index_error.

Definition Vects : Type := list Z * list Z * list Z * list Z.

(** The first loop: the positions in the topology vector. *)
Definition drop_storage_pos_topo_vect (cls_bk : GridClass) : Vects :=
  let stor_locs := storage_pos_topo_vect cls_bk in
  foldl (fun '(load, gen, line_or, line_ex) stor_loc =>
           (shift_from stor_loc load, shift_from stor_loc gen,
            shift_from stor_loc line_or, shift_from stor_loc line_ex))
    (load_pos_topo_vect cls_bk, gen_pos_topo_vect cls_bk,
     line_or_pos_topo_vect cls_bk, line_ex_pos_topo_vect cls_bk)
    (sorted_reverse stor_locs).

(** The second loop, for one substation: the positions in the substation. *)
Definition drop_storage_sub_pos (cls_bk : GridClass) (vs : Vects) (sub_id : Z)
    : Exc + Vects :=
  if existsb (fun s => s =? sub_id) (storage_to_subid cls_bk)
  then
    let stor_ids := np_where_eq (storage_to_subid cls_bk) sub_id in
    match take_ids (storage_to_sub_pos cls_bk) stor_ids with
    | inl e => inl e
    | inr stor_locs =>
        for_each (fun '(load, gen, line_or, line_ex) stor_loc =>
            match shift_from_in stor_loc sub_id load (load_to_subid cls_bk) with
            | inl e => inl e
            | inr load =>
            match shift_from_in stor_loc sub_id gen (gen_to_subid cls_bk) with
            | inl e => inl e
            | inr gen =>
            match shift_from_in stor_loc sub_id line_or (line_or_to_subid cls_bk) with
            | inl e => inl e
            | inr line_or =>
            match shift_from_in stor_loc sub_id line_ex (line_ex_to_subid cls_bk) with
            | inl e => inl e
            | inr line_ex => inr (load, gen, line_or, line_ex)
            end end end end)
          vs (sorted_reverse stor_locs)
    end
  else inr vs.

(** The third loop: [sub_info[sub_id] -= np.sum(storage_to_subid == sub_id)] *)
Definition drop_storage_sub_info (cls_bk : GridClass) (info : list Z) (sub_id : Z)
    : Exc + list Z :=
  match info !! Z.to_nat sub_id with
  | None => inl index_error
  | Some n =>
      inr (<[Z.to_nat sub_id :=
               dt_int (n - np_count_eq (storage_to_subid cls_bk) sub_id)]> info)
  end.

(** [cls_bk.glop_version = self._compat_glop_version] *)
Definition set_glop_version (v : string) (cls_bk : GridClass) : GridClass :=
  mkGridClass v (BEFORE_COMPAT_VERSION cls_bk) (n_sub cls_bk)
    (n_storage cls_bk) (dim_topo cls_bk) (sub_info cls_bk)
    (load_pos_topo_vect cls_bk) (gen_pos_topo_vect cls_bk)
    (line_or_pos_topo_vect cls_bk) (line_ex_pos_topo_vect cls_bk)
    (storage_pos_topo_vect cls_bk)
    (load_to_sub_pos cls_bk) (gen_to_sub_pos cls_bk)
    (line_or_to_sub_pos cls_bk) (line_ex_to_sub_pos cls_bk)
    (storage_to_sub_pos cls_bk)
    (load_to_subid cls_bk) (gen_to_subid cls_bk)
    (line_or_to_subid cls_bk) (line_ex_to_subid cls_bk)
    (storage_to_subid cls_bk) (_topo_vect_to_sub cls_bk)
    (grid_objects_types cls_bk) (STORAGE_COL cls_bk).

(** The two assignments to [_topo_vect_to_sub] and [grid_objects_types]. *)
Definition set_topo_vect_to_sub_and_types (topo_vect_to_sub : list Z)
    (types : Matrix) (cls_bk : GridClass) : GridClass :=
  mkGridClass (glop_version cls_bk) (BEFORE_COMPAT_VERSION cls_bk) (n_sub cls_bk)
    (n_storage cls_bk) (dim_topo cls_bk) (sub_info cls_bk)
    (load_pos_topo_vect cls_bk) (gen_pos_topo_vect cls_bk)
    (line_or_pos_topo_vect cls_bk) (line_ex_pos_topo_vect cls_bk)
    (storage_pos_topo_vect cls_bk)
    (load_to_sub_pos cls_bk) (gen_to_sub_pos cls_bk)
    (line_or_to_sub_pos cls_bk) (line_ex_to_sub_pos cls_bk)
    (storage_to_sub_pos cls_bk)
    (load_to_subid cls_bk) (gen_to_subid cls_bk)
    (line_or_to_subid cls_bk) (line_ex_to_subid cls_bk)
    (storage_to_subid cls_bk) topo_vect_to_sub types (STORAGE_COL cls_bk).

(** The branch of the oldest version, from the first loop to the assignment
    of [grid_objects_types]: what [_handle_compat_glop_version] does to the
    class [cls_bk] before it calls [set_no_storage()]. *)
Definition drop_storage (v : string) (cls_bk : GridClass) : Exc + GridClass :=
  let '(load_pos, gen_pos, line_or_pos, line_ex_pos) :=
    drop_storage_pos_topo_vect cls_bk in
  (* deals with the "sub_pos" vector *)
  match for_each (drop_storage_sub_pos cls_bk)
          (load_to_sub_pos cls_bk, gen_to_sub_pos cls_bk,
           line_or_to_sub_pos cls_bk, line_ex_to_sub_pos cls_bk)
          (seqZ 0 (n_sub cls_bk)) with
  | inl e => inl e
  | inr (load_sub_pos, gen_sub_pos, line_or_sub_pos, line_ex_sub_pos) =>
  (* remove storage from the number of element in the substation *)
  match for_each (drop_storage_sub_info cls_bk) (sub_info cls_bk)
          (seqZ 0 (n_sub cls_bk)) with
  | inl e => inl e
  | inr info =>
  (* remove storage from the total number of element *)
  let dim := dim_topo cls_bk - n_storage cls_bk in
  (* recompute this private member *)
  match np_repeat (seqZ 0 (n_sub cls_bk)) info with
  | inl e => inl e
  | inr topo_vect_to_sub =>
  match rows_without (STORAGE_COL cls_bk) (grid_objects_types cls_bk) with
  | inl e => inl e
  | inr new_grid_objects_types =>
      inr (mkGridClass v (BEFORE_COMPAT_VERSION cls_bk) (n_sub cls_bk)
             (n_storage cls_bk) dim info
             load_pos gen_pos line_or_pos line_ex_pos
             (storage_pos_topo_vect cls_bk)
             load_sub_pos gen_sub_pos line_or_sub_pos line_ex_sub_pos
             (storage_to_sub_pos cls_bk)
             (load_to_subid cls_bk) (gen_to_subid cls_bk)
             (line_or_to_subid cls_bk) (line_ex_to_subid cls_bk)
             (storage_to_subid cls_bk) topo_vect_to_sub
             new_grid_objects_types (STORAGE_COL cls_bk))
  end end end end.

(** The objects that the method works on: the class that its variable
    [cls_bk] names, the class of [self.backend] when a call has made it
    another one, and the two attributes that the method sets on the backend
    itself. *)
Record CompatState := mkCompatState {
  st_cls_bk : GridClass;
  st_type_backend : option GridClass;   (* [None]: it is still [cls_bk] *)
  st_backend__topo_vect_to_sub : option (list Z);
  st_backend_grid_objects_types : option Matrix;
}.

(** The calls of the method to code that is not part of the sources at hand:
    what each of them makes of these objects, unless it raises. *)
Class CompatExternals := {
  warnings_warn : option Exc;
  backend_set_env_name : CompatState -> Exc + CompatState;
  cls_bk_set_no_storage : CompatState -> Exc + CompatState;
  Environment_deactivate_storage : CompatState -> Exc + CompatState;
  backend_storage_deact_for_backward_comaptibility : CompatState -> Exc + CompatState;
  backend_assert_grid_correct : CompatState -> Exc + CompatState;
}.

Section CompatMethod.
Context {CE : CompatExternals}.

(** One statement after the other, as long as none raises. *)
Definition and_then {A B} (r : Exc + A) (f : A -> Exc + B) : Exc + B :=
  match r with
  | inl e => inl e
  | inr a => f a
  end.

(** [type(self.backend)] *)
Definition type_backend (s : CompatState) : GridClass :=
  default (st_cls_bk s) (st_type_backend s).

(** [cls_bk = type(self.backend)] *)
Definition bind_cls_bk (s : CompatState) : CompatState :=
  mkCompatState (type_backend s) None (st_backend__topo_vect_to_sub s)
    (st_backend_grid_objects_types s).

(** The class and the backend after the first part of the branch: [cls_bk]
    is the class rewritten, and the backend holds its own
    [_topo_vect_to_sub] and [grid_objects_types]. *)
Definition store_class (cls_bk : GridClass) (s : CompatState) : CompatState :=
  mkCompatState cls_bk (st_type_backend s)
    (Some (_topo_vect_to_sub cls_bk)) (Some (grid_objects_types cls_bk)).

(** The end of the branch, from [cls_bk.set_no_storage()] on: four calls,
    and the two assignments to the class of the backend. *)
Definition erase_storage (new_grid_objects_types : Matrix) (s : CompatState)
    : Exc + CompatState :=
  (* erase all trace of storage units *)
  and_then (cls_bk_set_no_storage s) (fun s =>
  and_then (Environment_deactivate_storage s) (fun s =>
  and_then (backend_storage_deact_for_backward_comaptibility s) (fun s =>
  (* and recomputes everything while making sure everything is consistent *)
  and_then (backend_assert_grid_correct s) (fun s =>
  and_then (np_repeat (seqZ 0 (n_sub (st_cls_bk s))) (sub_info (st_cls_bk s)))
    (fun topo_vect_to_sub =>
  inr (match st_type_backend s with
       | None =>
           mkCompatState
             (set_topo_vect_to_sub_and_types topo_vect_to_sub
                new_grid_objects_types (st_cls_bk s))
             None (st_backend__topo_vect_to_sub s) (st_backend_grid_objects_types s)
       | Some type_backend =>
           mkCompatState (st_cls_bk s)
             (Some (set_topo_vect_to_sub_and_types topo_vect_to_sub
                      new_grid_objects_types type_backend))
             (st_backend__topo_vect_to_sub s) (st_backend_grid_objects_types s)
       end)))))).

(** [Environment._handle_compat_glop_version]; [version] is
    [grid2op.__version__]. *)
Definition _handle_compat_glop_version (version : string)
    (_compat_glop_version : option string) (s : CompatState)
    : Exc + CompatState :=
  match _compat_glop_version with
  | None => inr s
  | Some v =>
      if bool_decide (v = version) then inr s
      else
        match warnings_warn with
        | Some e => inl e
        | None =>
        and_then (backend_set_env_name s) (fun s =>
        let cls_bk := type_backend s in
        let s := bind_cls_bk s in
        if negb (bool_decide (v = BEFORE_COMPAT_VERSION cls_bk))
        then
          inr (mkCompatState (set_glop_version v cls_bk) None
                 (st_backend__topo_vect_to_sub s) (st_backend_grid_objects_types s))
        else
          (* oldest version: no storage and no curtailment available *)
          and_then (drop_storage v cls_bk) (fun cls_bk =>
          erase_storage (grid_objects_types cls_bk) (store_class cls_bk s)))
        end
  end.

End CompatMethod.

(** The positions of the elements that are not storage units. *)
Definition pos_topo_vect (cls_bk : GridClass) : list Z :=
  load_pos_topo_vect cls_bk ++ gen_pos_topo_vect cls_bk
  ++ line_or_pos_topo_vect cls_bk ++ line_ex_pos_topo_vect cls_bk.

(** The entries of [pos] for the elements of the substation [sub_id]. *)
Definition of_sub (sub_id : Z) (pos subid : list Z) : list Z :=
  (filter (fun ps : Z * Z => ps.2 = sub_id) (zip pos subid)).*1.

(** The positions, in the substation [sub_id], of its elements that are not
    storage units. *)
Definition sub_pos (cls_bk : GridClass) (sub_id : Z) : list Z :=
  of_sub sub_id (load_to_sub_pos cls_bk) (load_to_subid cls_bk)
  ++ of_sub sub_id (gen_to_sub_pos cls_bk) (gen_to_subid cls_bk)
  ++ of_sub sub_id (line_or_to_sub_pos cls_bk) (line_or_to_subid cls_bk)
  ++ of_sub sub_id (line_ex_to_sub_pos cls_bk) (line_ex_to_subid cls_bk).

(** The arrays that describe where the elements are have the shapes that go
    together. *)
Definition well_shaped (cls_bk : GridClass) : Prop :=
  length (load_to_sub_pos cls_bk) = length (load_to_subid cls_bk)
  /\ length (gen_to_sub_pos cls_bk) = length (gen_to_subid cls_bk)
  /\ length (line_or_to_sub_pos cls_bk) = length (line_or_to_subid cls_bk)
  /\ length (line_ex_to_sub_pos cls_bk) = length (line_ex_to_subid cls_bk)
  /\ length (storage_to_sub_pos cls_bk) = length (storage_to_subid cls_bk)
  /\ length (sub_info cls_bk) = Z.to_nat (n_sub cls_bk)
  /\ (STORAGE_COL cls_bk < m_cols (grid_objects_types cls_bk))%nat.


(** Where the loop [for stor_loc in sorted(stor_locs, reverse=True)] takes the
    position [p]. *)
Definition compact (stor_locs : list Z) (p : Z) : Z :=
  foldl (fun v stor_loc => if bool_decide (stor_loc <= v) then dt_int (v - 1) else v)
    p (sorted_reverse stor_locs).

(** The number of entries of [l] below [p]. *)
Definition below (p : Z) (l : list Z) : Z :=
  Z.of_nat (length (filter (fun s => s < p) l)).

(** The storage units of the substation [sub_id], by their positions in it. *)
Definition storage_of_sub (cls_bk : GridClass) (sub_id : Z) : list Z :=
  of_sub sub_id (storage_to_sub_pos cls_bk) (storage_to_subid cls_bk).

(** Where the second loop takes the position [p] of an element of the
    substation [sub_id]. *)
Definition compact_in (cls_bk : GridClass) (p sub_id : Z) : Z :=
  if bool_decide (0 <= sub_id < n_sub cls_bk)
  then compact (storage_of_sub cls_bk sub_id) p
  else p.

(** The elements are numbered in the topology vector: the positions of the
    elements, storage units included, are the integers below [dim_topo],
    each of them once. *)
Definition valid_pos_topo_vect (cls_bk : GridClass) : Prop :=
  pos_topo_vect cls_bk ++ storage_pos_topo_vect cls_bk ≡ₚ seqZ 0 (dim_topo cls_bk)
  /\ dim_topo cls_bk <= 2 ^ 31
  /\ n_storage cls_bk = Z.of_nat (length (storage_pos_topo_vect cls_bk)).

(** The elements of every substation are numbered in it, below the number of
    its elements. *)
Definition valid_sub_pos (cls_bk : GridClass) : Prop :=
  forall (i : nat) (n : Z),
    sub_info cls_bk !! i = Some n ->
    0 <= n < 2 ^ 31
    /\ sub_pos cls_bk (Z.of_nat i) ++ storage_of_sub cls_bk (Z.of_nat i)
       ≡ₚ seqZ 0 n.

(** The description of a grid that the method is given. *)
Definition consistent (cls_bk : GridClass) : Prop :=
  well_shaped cls_bk /\ valid_pos_topo_vect cls_bk /\ valid_sub_pos cls_bk.

(** [np.sum] of an array of integers *)
Definition sum_int (l : list Z) : Z := foldr Z.add 0 l.

(** The table [grid_objects_types] has a row for every position of the
    topology vector, and the rows of the storage units are those with an
    entry in the storage column. *)
Definition rows_tagged (cls_bk : GridClass) : Prop :=
  Z.of_nat (length (m_rows (grid_objects_types cls_bk))) = dim_topo cls_bk
  /\ forall (p : nat) (row : list Z),
       m_rows (grid_objects_types cls_bk) !! p = Some row ->
       (row !! STORAGE_COL cls_bk = Some (-1)
        <-> Z.of_nat p ∉ storage_pos_topo_vect cls_bk).

(** The method applies: a compatibility version is asked for, and it is the
    oldest one. *)
Definition applies (version : string) (v : string) (cls_bk : GridClass) : Prop :=
  v <> version /\ v = BEFORE_COMPAT_VERSION cls_bk.

(** ** Environment.train_val_split

    The method splits the directory of an environment in two, with symbolic
    links.  What it reads of the file system is a parameter, what it writes
    is a log of operations; whether a write raises is for the operating
    system to decide, from the operations made so far. *)

(** A path, as the list of its components. *)
Definition Path : Type := list string.

Inductive FsOp :=
| Mkdir (path : Path)                  (* [os.mkdir(path)] *)
| Symlink (src dst : Path).            (* [os.symlink(src, dst)] *)

#[global] Instance FsOp_eq_dec : EqDecision FsOp.
Proof. solve_decision. Defined.

(** The modules [os] and [re] of the standard library. *)
Class Platform := {
  os_path_exists : Path -> bool;
  os_path_isfile : Path -> bool;
  os_path_isdir : Path -> bool;
  os_listdir : Path -> Exc + list string;
  (* the exception that a write raises, after the writes made so far *)
  os_raises : list FsOp -> FsOp -> option Exc;
  (* [re.sub(pattern, "", s)] *)
  re_sub : string -> string -> Exc + string;
}.

Section TrainValSplit.
Context {PF : Platform}.

(** [os.path.split] and [os.path.join] *)
Definition os_path_split (path : Path) : Path * string :=
  (removelast path, default EmptyString (last path)).
Definition os_path_join (path : Path) (name : string) : Path := path ++ [name].

(** A computation that writes to the file system. *)
Definition F (A : Type) : Type := list FsOp -> (Exc + A) * list FsOp.

#[local] Instance F_ret : MRet F := fun A a log => (inr a, log).
#[local] Instance F_bind : MBind F := fun A B f m log =>
  match m log with
  | (inl e, log') => (inl e, log')
  | (inr a, log') => f a log'
  end.

Definition F_raise {A} (e : Exc) : F A := fun log => (inl e, log).

(** A read that may raise. *)
Definition F_read {A} (r : Exc + A) : F A := fun log => (r, log).

(** A write. *)
Definition F_write (op : FsOp) : F unit := fun log =>
  match os_raises log op with
  | Some e => (inl e, log)
  | None => (inr tt, log ++ [op])
  end.

Definition os_mkdir (path : Path) : F unit := F_write (Mkdir path).
Definition os_symlink (src dst : Path) : F unit := F_write (Symlink src dst).

(** [for x in l: body(x)] *)
Fixpoint F_for {A} (l : list A) (body : A -> F unit) : F unit :=
  match l with
  | [] => mret tt
  | x :: l => body x;; F_for l body
  end.

(** The classes of characters of the two regular expressions. *)
Definition alnum (c : ascii) : bool :=
  let n := nat_of_ascii c in
  ((48 <=? n) && (n <=? 57) || (65 <=? n) && (n <=? 90)
   || (97 <=? n) && (n <=? 122))%nat.

Definition alnum_or_anchor (c : ascii) : bool :=
  alnum c || bool_decide (c ∈ [ascii_of_nat 92; "^"%char; "$"%char; "_"%char]).

(** [re.match(r"^[...]*$", s) is not None] for a class of characters: the
    characters of [s] are in the class, but for a newline that ends [s]
    (where [$] matches too). *)
Fixpoint re_match_class (cls : ascii -> bool) (s : string) : bool :=
  match s with
  | EmptyString => true
  | String c EmptyString => cls c || bool_decide (c = "010"%char)
  | String c rest => cls c && re_match_class cls rest
  end.

Definition REGEX_SPLIT : string -> bool := re_match_class alnum.

(** [isinstance(real_data, (MultifolderWithCache, Multifolder))], for an
    object known by its class *)
Definition isinstance_Multifolder (real_data : PyClass) : bool :=
  issubclass real_data "MultifolderWithCache" || issubclass real_data "Multifolder".

(** [Environment._chronics_folder_name] *)
Definition _chronics_folder_name : string := "chronics".

(** [sorted(l)] for a list of strings *)
Definition sorted (l : list string) : list string := merge_sort String.le l.

Definition RuntimeError (msg : string) : Exc := mkExc (ForeignError "RuntimeError") msg.

(** The body of the loop [for el in os.listdir(my_path)]. *)
Definition copy_entry (my_path path_train path_val : Path)
    (all_chron to_val : list string) (el : string) : F unit :=
  let chronics_dir := _chronics_folder_name in
  let tmp_path := os_path_join my_path el in
  if os_path_isfile tmp_path then
    (* this is a regular env file *)
    os_symlink tmp_path (os_path_join path_train el);;
    os_symlink tmp_path (os_path_join path_val el)
  else if os_path_isdir tmp_path then
    if bool_decide (el = chronics_dir) then
      (* this is the chronics folder *)
      os_mkdir (os_path_join path_train chronics_dir);;
      os_mkdir (os_path_join path_val chronics_dir);;
      F_for all_chron (fun chron_name =>
        let tmp_path_chron := os_path_join tmp_path chron_name in
        if bool_decide (chron_name ∈ to_val)
        then os_symlink tmp_path_chron
               (os_path_join (os_path_join path_val chronics_dir) chron_name)
        else os_symlink tmp_path_chron
               (os_path_join (os_path_join path_train chronics_dir) chron_name))
    else mret tt
  else mret tt.

(** [Environment.train_val_split]; [my_path] is what [self.get_path_env()]
    returns and [real_data] is the class of [self.chronics_handler.real_data]. *)
Definition train_val_split (my_path : Path) (real_data : PyClass)
    (val_scen_id : list string) (add_for_train add_for_val : string)
    (remove_from_name : option string) : F (string * string) :=
  (* define all the locations *)
  (if negb (REGEX_SPLIT add_for_train)
   then F_raise (mkExc EnvError "add_for_train should match the regex")
   else mret tt);;
  (if negb (REGEX_SPLIT add_for_val)
   then F_raise (mkExc EnvError "add_for_val should match the regex")
   else mret tt);;
  (if negb (isinstance_Multifolder real_data)
   then F_raise (mkExc EnvError "the chronics are not read from directories")
   else mret tt);;
  let path_train := os_path_split my_path in
  let my_name := path_train.2 in
  my_name ← match remove_from_name with
            | None => mret my_name
            | Some pattern =>
                if negb (re_match_class alnum_or_anchor pattern)
                then F_raise (mkExc EnvError "remove_from_name should match the regex")
                else F_read (re_sub pattern my_name)
            end;
  let nm_train := my_name +:+ "_" +:+ add_for_train in
  let path_train := os_path_join path_train.1 nm_train in
  let path_val := os_path_split my_path in
  let nm_val := my_name +:+ "_" +:+ add_for_val in
  let path_val := os_path_join path_val.1 nm_val in
  let chronics_dir := _chronics_folder_name in
  (* create the folder *)
  (if os_path_exists path_val
   then F_raise (RuntimeError "Impossible to create the validation environment")
   else mret tt);;
  (if os_path_exists path_train
   then F_raise (RuntimeError "Impossible to create the training environment")
   else mret tt);;
  os_mkdir path_val;;
  os_mkdir path_train;;
  (* assign which chronics goes where *)
  let chronics_path := os_path_join my_path chronics_dir in
  all_chron ← F_read (os_listdir chronics_path);
  let all_chron := sorted all_chron in
  let to_val := val_scen_id in
  (* copy the files *)
  els ← F_read (os_listdir my_path);
  F_for els (copy_entry my_path path_train path_val all_chron to_val);;
  mret (nm_train, nm_val).

(** The name of the environment, as the method computes it before it adds
    the suffixes. *)
Definition split_name (my_path : Path) (remove_from_name : option string)
    : Exc + string :=
  let my_name := (os_path_split my_path).2 in
  match remove_from_name with
  | None => inr my_name
  | Some pattern =>
      if negb (re_match_class alnum_or_anchor pattern)
      then inl (mkExc EnvError "remove_from_name should match the regex")
      else re_sub pattern my_name
  end.

(** The directory of a split environment. *)
Definition split_path (my_path : Path) (my_name suffix : string) : Path :=
  os_path_join (os_path_split my_path).1 (my_name +:+ "_" +:+ suffix).

(** The writes that the loop over the entries of the directory makes for the
    entry [el], when none of them raises. *)
Definition writes_for (my_path path_train path_val : Path)
    (all_chron to_val : list string) (el : string) : list FsOp :=
  let tmp_path := os_path_join my_path el in
  if os_path_isfile tmp_path then
    [Symlink tmp_path (os_path_join path_train el);
     Symlink tmp_path (os_path_join path_val el)]
  else if os_path_isdir tmp_path && bool_decide (el = _chronics_folder_name) then
    Mkdir (os_path_join path_train _chronics_folder_name)
    :: Mkdir (os_path_join path_val _chronics_folder_name)
    :: ((fun chron_name =>
           Symlink (os_path_join tmp_path chron_name)
             (os_path_join
                (os_path_join (if bool_decide (chron_name ∈ to_val)
                               then path_val else path_train)
                   _chronics_folder_name)
                chron_name)) <$> all_chron)
  else [].

(** The path that a write creates. *)
Definition created (op : FsOp) : Path :=
  match op with
  | Mkdir path => path
  | Symlink _ dst => dst
  end.

(** [m] only adds to the log of writes. *)
Definition appends {A} (m : F A) : Prop :=
  forall log, exists new, (m log).2 = log ++ new.

(** When [m] returns, it has made the writes [ops], and no other. *)
Definition writes {A} (m : F A) (ops : list FsOp) : Prop :=
  forall log a log', m log = (inr a, log') -> log' = log ++ ops.

(** When no write raises, [m] returns [a] after the writes [ops]. *)
Definition runs {A} (m : F A) (a : A) (ops : list FsOp) : Prop :=
  (forall h op, os_raises h op = None) ->
  forall log, m log = (inr a, log ++ ops).

End TrainValSplit.

(** ** Construction: the mark of the backend, definitions *)

Section BackendMarkDefs.
Context {FO : FloatOps} {OB : ObservationBase} {EX : Externals}.

(** The call that follows the assignment [self.backend.is_loaded = True]. *)
Definition load_alarm_data_call : Call := mkCall "self" "load_alarm_data".

(** The methods of the backend leave its mark alone: a backend state handed
    back once [load_alarm_data] has been called is marked as loaded. *)
Definition mark_kept : Prop :=
  forall h c b,
    load_alarm_data_call ∈ h -> world h c = Returns (PyBackend b) ->
    is_loaded b = true.

(** The backend is marked as loaded, and [load_alarm_data] has been called. *)
Definition marked (s : CState) : Prop :=
  is_loaded (backend (cs_self s)) = true /\ load_alarm_data_call ∈ cs_log s.

(** [keeps_state J m]: [m] keeps the invariant [J] of the object and of the
    log of the calls, on return and on error. *)
Definition keeps_state {A} (J : CState -> Prop) (m : M A) : Prop :=
  forall s, J s -> J (m s).2.

(** [marks m]: once [m] has called [load_alarm_data], the backend of the
    object is marked as loaded, however [m] ends. *)
Definition marks {A} (m : M A) : Prop :=
  forall s, exists new,
    cs_log (m s).2 = new ++ cs_log s
    /\ (load_alarm_data_call ∈ new ->
        is_loaded (backend (cs_self (m s).2)) = true).

End BackendMarkDefs.

(** ** Counting for the rewards, integers of the observation, parameters of the constructor *)

Section RewardCounts.
Context {FO : FloatOps}.

(** A line that could be reconnected but is not: its cooldown is over, and
    it is out of service. *)
Definition reconnectable (sc : bool * Z) : Prop := sc.2 = 0 /\ sc.1 = false.

#[global] Instance reconnectable_dec sc : Decision (reconnectable sc).
Proof. unfold reconnectable. apply _. Defined.

(** [n_lines += dt_float(1.0)], [k] times. *)
Definition add_ones (k : nat) (n_lines : Float) : Float :=
  Nat.iter k (fun x => fadd x (dt_float (float_of_int 1))) n_lines.

End RewardCounts.

(** The parameters of [Environment.__init__], in the order of its signature. *)
Definition init_parameters : list string :=
  ["init_grid_path"; "chronics_handler"; "backend"; "parameters"; "name";
   "names_chronics_to_backend"; "actionClass"; "observationClass";
   "rewardClass"; "legalActClass"; "voltagecontrolerClass"; "other_rewards";
   "thermal_limit_a"; "with_forecast"; "epsilon_poly"; "tol_poly";
   "opponent_action_class"; "opponent_class"; "opponent_init_budget";
   "opponent_budget_per_ts"; "opponent_budget_class";
   "opponent_attack_duration"; "opponent_attack_cooldown"; "kwargs_opponent";
   "attention_budget_cls"; "kwargs_attention_budget"; "has_attention_budget";
   "_raw_backend_class"; "_compat_glop_version"; "_read_from_local_dir"].

(** ** Concrete collaborators, to evaluate the definitions on examples *)

(** Floats read as integers. *)
Definition Z_floats : FloatOps :=
  {| Float := Z; dt_float := λ x, x; float_of_int := λ x, x;
     fadd := Z.add; fmul := Z.mul; fdiv := Z.div; fabs := Z.abs; fltb := Z.ltb |}.

Definition blank_observation : @Observation Z_floats :=
  mkObservation 0 0 0 0 0 0 0 0 [] [] [] [] [] [] [] [] [] [] [] [] [] [] [] [] []
    [] [] [] [] [] [] false [] [] [] [] [] 0%nat.

(** A blank observation of a grid of two lines between four buses, with
    neither loads nor generators: its arrays have the shapes of that grid. *)
Definition two_lines_observation : @Observation Z_floats :=
  mkObservation 0 0 0 0 0 0 0 0 [0; 0] [false; false] [0; 0; 0; 0]
    [] [] [] [] [] [] [] [] [] [] [] [] [] [] [] []
    (replicate 2 (@float_of_int Z_floats 0)) [0; 0] [0; 0]
    (replicate 2 (@float_of_int Z_floats 0)) false [] [] [] [] [] 2%nat.

Definition plain_observations : @ObservationBase Z_floats :=
  {| BaseObservation__init__ := two_lines_observation;
     BaseObservation_reset := λ _, two_lines_observation;
     _reset_matrices := λ o, o |}.

(** An observation space for that grid: [get_obs] returns a new observation
    filled by [update]. *)
Definition plain_space : @ObservationSpace Z_floats :=
  {| get_obs := λ env,
       match @update Z_floats plain_observations two_lines_observation env
               (with_forecast env) with
       | inr obs => obs
       | inl _ => two_lines_observation
       end |}.

(** Collaborators that return [None] and never raise. *)
Definition calm : @Externals Z_floats :=
  {| world := λ _ _, Returns PyNone; backend_copy := λ b, b |}.


Section ExampleData.
#[local] Existing Instance Z_floats.
#[local] Existing Instance plain_observations.
#[local] Existing Instance plain_space.
#[local] Existing Instance calm.

(** An environment whose chronics handler reports the duration [v]. *)
Definition env_of_duration (v : Z) : Environment :=
  set_chronics_handler (mkChronics 0%nat v []) blank_env.

(** A grid of two lines, both in service. *)
Definition two_lines : EnvironmentState :=
  mkState [true; true] [1; 1; 1; 1] [0; 0] [0; 0] [0; 0] [] [] None
    (mkBudget 0 10 1 5 2 0) (mkBudget 3 3 1 1 1 0)
    (mkDatetime 2019 1 1 0 0 1) 0 false.

Definition two_lines_backend (status : list bool) : Backend :=
  mkBackend (mkClass "PandaPowerBackend" ["Backend"]) true None 2%nat status
    [1; 1; 1; 1] ([], [], []) ([], [], []) ([], [], [], []) ([], [], [], [])
    [0; 0] [100; 100] false ([], [], [], [], []) 1.

(** The status of the lines after an action has set some of them. *)
Definition apply_status (acts : list Z) (status : list bool) : list bool :=
  imap (fun i s => match acts !! i with
                   | Some (-1) => false
                   | Some 1 => true
                   | _ => s
                   end) status.

(** Collaborators for the grid of two lines: every action is legal, the
    opponent never attacks, the chronics never end, and the power flow
    converges as long as both lines are in service. *)
Definition two_lines_grid : Collaborators :=
  {| NB_TIMESTEP_COOLDOWN_LINE := 3;
     NB_TIMESTEP_COOLDOWN_SUB := 3;
     NB_TIMESTEP_OVERFLOW_ALLOWED := 2;
     HARD_OVERFLOW_THRESHOLD := 2;
     cascade_cap := 5%nat;
     attack_duration := 0;
     initial_state := two_lines;
     legal := fun _ _ => true;
     ambiguous := fun _ => false;
     fallback := mkAction [] [] [] [] [] false;
     load_next := fun seed ch =>
       (Some (mkRow (mkDatetime 2019 1 1 0 (5 * Z.of_nat (S (ch_cursor ch))) 1) ∅ [],
              mkChronics (S (ch_cursor ch)) (ch_max_episode_duration ch)
                (ch_forecasts ch)),
        seed);
     next_chronics := fun ch =>
       mkChronics 0%nat (ch_max_episode_duration ch) (ch_forecasts ch);
     opponent_policy := fun seed _ => (None, seed);
     compose := fun _ _ act s =>
       (apply_status (set_line_status act) (_line_status s), _topo_vect s);
     lines_reconfigured := fun _ s => (fun _ => false) <$> _line_status s;
     subs_reconfigured := fun _ s =>
       (fun _ => false) <$> _times_before_topology_actionable s;
     voltage_control := fun _ _ inj => inj;
     resolve_redispatch := fun _ s inj => (inj, _target_dispatch s);
     runpf := fun _ status _ _ => (two_lines_backend status, forallb id status);
     backend_reset := fun _ => two_lines_backend [true; true];
     reward_fn := fun _ _ has_error _ _ _ => if has_error then -1 else 1 |}.

Definition two_lines_env : Environment :=
  set_env_state two_lines
    (set_backend (two_lines_backend [true; true])
       (set_chronics_handler (mkChronics 0%nat (-1) []) blank_env)).

Definition two_lines_world : World := mkWorld two_lines_env [].

(** The same environment with forecasts enabled, the chronics providing one
    row of forecast. *)
Definition two_lines_forecast_env : Environment :=
  mkEnv "two_lines" "grid.json" true true None (PyType ControlVoltageFromFile) []
    (two_lines_backend [true; true])
    (mkChronics 0%nat (-1) [(mkDatetime 2019 1 1 0 5 1, ∅)])
    ∅ two_lines 0 0 blank_observation None (Some []) [] [].

(** A grid of two lines with two loads and a generator: its backend, a blank
    observation of its shapes, and an environment with forecasts. *)
Definition busy_backend : Backend :=
  mkBackend (mkClass "PandaPowerBackend" ["Backend"]) true None 2%nat [true; true]
    [1; 1; 1; 1] ([100], [0], [1]) ([40; 60], [4; 6], [1; 1])
    ([], [], [], []) ([], [], [], [])
    [0; 0] [100; 100] false ([], [], [], [], []) 1.

Definition busy_observation : Observation :=
  mkObservation 0 0 0 0 0 0 0 0 [0; 0] [false; false] [0; 0; 0; 0]
    [0] [0] [0] [0; 0] [0; 0] [0; 0] [] [] [] [] [] [] [] [] [] []
    [0; 0] [0; 0] [0; 0] [0; 0] false [] [] [] [] [] 2%nat.

Definition busy_observations : ObservationBase :=
  {| BaseObservation__init__ := busy_observation;
     BaseObservation_reset := λ _, busy_observation;
     _reset_matrices := λ o, o |}.

Definition busy_env : Environment :=
  set_backend busy_backend two_lines_forecast_env.

(** The observation that [update] makes of it. *)
Definition busy_observed : Observation :=
  Eval vm_compute in
    match @update Z_floats busy_observations busy_observation busy_env true with
    | inr obs => obs
    | inl _ => busy_observation
    end.

(** The action that takes line 0 out of service. *)
Definition disconnect_line_0 : Action := mkAction [-1; 0] [] [] [] [] false.

(** An environment that holds the observation of a grid of two lines, the
    second of which is out of service. *)
Definition one_line_out : Environment :=
  set_current_obs
    (mkObservation 0 0 0 0 0 0 0 0 [] [true; false] [] [] [] [] [40; 60] [] []
       [] [] [] [] [] [] [] [] [] [] [] [] [] [] false [] [] [] [] [] 2%nat)
    blank_env.

(** What a call came to, in a word. *)
Definition verdict (r : Result) : string :=
  match r with
  | ResStep (inr (_, _, false, _)) => "running"
  | ResStep (inr (_, _, true, info)) =>
      if has_error info then "game over" else "episode over"
  | ResStep (inl e) =>
      if String.eqb (exc_arg e) (exc_arg state_error) then "state error" else "error"
  | ResSimulate (_, _, d, info) =>
      if has_error info then "simulated: game over"
      else if d then "simulated: episode over" else "simulated: running"
  | ResReset (inr _) => "reset"
  | ResReset (inl _) => "reset failed"
  end.

(** The arguments of an environment built for the oldest version of the
    library, and the environment that the constructor builds from them. *)
Definition example_kwargs : gmap string PyVal :=
  <["init_grid_path" := PyStr "grid.json"]>
    (<["chronics_handler" := PyChronics (mkChronics 0%nat (-1) [])]>
       (<["backend" := PyBackend blank_backend]>
          (<["parameters" := PyNone]>
             (<["name" := PyStr "two_lines"]>
                (<["_compat_glop_version" := PyStr "neurips_2020_compat"]> ∅))))).

Definition built_env : Environment := cs_self (new_Environment example_kwargs).2.

End ExampleData.

(** A small grid: two substations, a load and a storage unit at the first,
    a generator at the second, and a line between them. *)
Definition small_grid : GridClass :=
  mkGridClass "1.6.4" "neurips_2020_compat" 2 1 5 [3; 2]
    [0] [3] [2] [4] [1]
    [0] [0] [2] [1] [1]
    [0] [1] [0] [1] [0]
    [0; 0; 0; 1; 1]
    (mkMatrix 6 [[0; 0; -1; -1; -1; -1]; [0; -1; -1; -1; -1; 0];
                 [0; -1; -1; 0; -1; -1]; [1; -1; 0; -1; -1; -1];
                 [1; -1; -1; -1; 0; -1]]) 5.

(** The directory of an environment: two regular files, the chronics
    directory with three scenarios, and another directory.  With [strict],
    a write to a path that a write has created raises. *)
Definition example_platform (strict : bool) : Platform :=
  {| os_path_exists := fun p =>
       bool_decide (p ∈ [["data"]; ["data"; "case14"]]);
     os_path_isfile := fun p =>
       bool_decide (p ∈ [["data"; "case14"; "config.py"];
                         ["data"; "case14"; "grid.json"]]);
     os_path_isdir := fun p =>
       bool_decide (p ∈ [["data"]; ["data"; "case14"];
                         ["data"; "case14"; "chronics"];
                         ["data"; "case14"; "plots"]]);
     os_listdir := fun p =>
       if bool_decide (p = ["data"; "case14"])
       then inr ["config.py"; "chronics"; "grid.json"; "plots"]
       else if bool_decide (p = ["data"; "case14"; "chronics"])
       then inr ["0002"; "0000"; "0001"]
       else inl (mkExc (ForeignError "FileNotFoundError") "No such file or directory");
     os_raises := fun h op =>
       if strict && bool_decide (created op ∈ created <$> h)
       then Some (mkExc (ForeignError "FileExistsError") "File exists")
       else None;
     re_sub := fun _ s => inr s |}.

Definition Multifolder : PyClass := mkClass "Multifolder" ["GridValue"].

(** Calls that return and leave the class and the backend as they are. *)
Definition quiet : CompatExternals :=
  {| warnings_warn := None;
     backend_set_env_name := inr;
     cls_bk_set_no_storage := inr;
     Environment_deactivate_storage := inr;
     backend_storage_deact_for_backward_comaptibility := inr;
     backend_assert_grid_correct := inr |}.

(** A backend whose class is the small grid. *)
Definition small_backend : CompatState := mkCompatState small_grid None None None.

(** * Properties *)

Section Properties.
Context {FO : FloatOps} {OB : ObservationBase} {EX : Externals}.

(** ** dt_int *)

Lemma dt_int_range x : - 2 ^ 31 <= dt_int x <= int32_max.
Proof.
  unfold dt_int, int32_max.
  pose proof (Z.mod_pos_bound (x + 2 ^ 31) (2 ^ 32) ltac:(lia)). lia.
Qed.

Lemma dt_int_id x : - 2 ^ 31 <= x <= int32_max -> dt_int x = x.
Proof.
  unfold dt_int, int32_max. intros Hx.
  rewrite Z.mod_small by lia. lia.
Qed.

(** ** Environment.max_episode_duration *)

Lemma max_episode_duration_range (self : Environment) :
  0 <= max_episode_duration self <= int32_max.
Proof.
  unfold max_episode_duration.
  pose proof (dt_int_range (ch_max_episode_duration (chronics_handler self))).
  destruct (Z.ltb_spec (dt_int (ch_max_episode_duration (chronics_handler self))) 0).
  - rewrite dt_int_id; unfold int32_max; lia.
  - lia.
Qed.

(** C9, as amended: when the value reported by the chronics handler fits in
    32 bits, [max_episode_duration] returns it if it is nonnegative and the
    maximum 32-bit integer if it is negative. *)
Theorem max_episode_duration_spec (self : Environment) :
  let v := ch_max_episode_duration (chronics_handler self) in
  - 2 ^ 31 <= v <= int32_max ->
  max_episode_duration self = if v <? 0 then int32_max else v.
Proof.
  intros v Hv. unfold max_episode_duration. fold v.
  rewrite (dt_int_id v Hv).
  destruct (v <? 0); [apply dt_int_id; unfold int32_max; lia | reflexivity].
Qed.

End Properties.

(** ** Construction: a small program logic *)

Section ConstructionLogic.
Context {FO : FloatOps} {OB : ObservationBase} {EX : Externals}.

Lemma safe_ret {A} P L (a : A) : safe P L (mret a).
Proof. intros s; split; [exists []; split; [reflexivity | constructor] | intros e [=]]. Qed.

Lemma safe_raise {A} (P : Exc -> Prop) L e : P e -> safe (A:=A) P L (raise e).
Proof.
  intros He s; split; [exists []; split; [reflexivity | constructor] |].
  intros e' [= <-]. left; exact He.
Qed.

Lemma safe_get P L : safe P L get_self.
Proof. intros s; split; [exists []; split; [reflexivity | constructor] | intros e [=]]. Qed.

Lemma safe_modify P L f : safe P L (modify f).
Proof. intros s; split; [exists []; split; [reflexivity | constructor] | intros e [=]]. Qed.

Lemma safe_call P (L : Call -> Prop) target method :
  L (mkCall target method) -> safe P L (call target method).
Proof.
  intros HL s. unfold call.
  destruct (world (cs_log s) (mkCall target method)) as [e|v] eqn:E; simpl.
  - split; [exists [mkCall target method]; split; [reflexivity | repeat constructor; exact HL] |].
    intros e' [= <-]. right; eauto.
  - split; [exists [mkCall target method]; split; [reflexivity | repeat constructor; exact HL] |].
    intros e' [=].
Qed.

Lemma safe_bind {A B} P L (m : M A) (f : A -> M B) :
  safe P L m -> (forall a, safe P L (f a)) -> safe P L (m ≫= f).
Proof.
  intros Hm Hf s. unfold mbind, M_bind.
  destruct (Hm s) as [(new & Hlog & HL) He].
  destruct (m s) as [[e|a] s'] eqn:E; simpl in *.
  - split; [eauto |]. intros e' [= <-]. apply He; reflexivity.
  - destruct (Hf a s') as [(new' & Hlog' & HL') He'].
    split; [| exact He'].
    exists (new' ++ new). rewrite Hlog', Hlog, app_assoc. split; [reflexivity |].
    apply Forall_app; split; assumption.
Qed.

Lemma safe_ret_bind {A B} P L (a : A) (f : A -> M B) :
  safe P L (f a) -> safe P L (mret a ≫= f).
Proof. intros Hf s. exact (Hf s). Qed.

Lemma safe_when P L c m : safe P L m -> safe P L (when c m).
Proof. destruct c; simpl; [trivial | intros _; apply safe_ret]. Qed.

Lemma safe_mapM {A B} P L (f : A -> M B) (l : list A) :
  (forall a, safe P L (f a)) -> safe P L (mapM f l).
Proof.
  intros Hf. induction l as [|a l IH]; simpl.
  - apply safe_ret.
  - apply safe_bind; [apply Hf | intros b].
    apply safe_bind; [apply IH | intros bs]. apply safe_ret.
Qed.

Lemma doomed_raise {A} (P : Exc -> Prop) L e : P e -> doomed (A:=A) P L (raise e).
Proof. intros He; split; [apply safe_raise, He | intros s; exists e; reflexivity]. Qed.

Lemma doomed_bind_l {A B} P L (m : M A) (f : A -> M B) :
  doomed P L m -> doomed P L (m ≫= f).
Proof.
  intros [Hs Hf]. split.
  - intros s. unfold mbind, M_bind.
    destruct (Hs s) as [Hlog He]. destruct (Hf s) as [e E].
    destruct (m s) as [[e'|a] s'] eqn:Em; simpl in *; [| discriminate].
    split; [exact Hlog | intros e'' [= <-]; apply He; reflexivity].
  - intros s. unfold mbind, M_bind. destruct (Hf s) as [e E].
    destruct (m s) as [[e'|a] s'] eqn:Em; simpl in *; [eauto | discriminate].
Qed.

Lemma doomed_bind_r {A B} P L (m : M A) (f : A -> M B) :
  safe P L m -> (forall a, doomed P L (f a)) -> doomed P L (m ≫= f).
Proof.
  intros Hm Hf. split.
  - apply safe_bind; [exact Hm | intros a; apply Hf].
  - intros s. unfold mbind, M_bind.
    destruct (m s) as [[e|a] s'] eqn:Em; simpl; [eauto |].
    destruct (Hf a) as [_ Hfa]. apply Hfa.
Qed.

Lemma doomed_ret_bind {A B} P L (a : A) (f : A -> M B) :
  doomed P L (f a) -> doomed P L (mret a ≫= f).
Proof. intros [Hs Hf]. split; intros s; [exact (Hs s) | exact (Hf s)]. Qed.

End ConstructionLogic.

(** ** Construction: the checks of [_init_backend] *)

Section ConstructionProperties.
Context {FO : FloatOps} {OB : ObservationBase} {EX : Externals}.

Ltac safe_side :=
  first [ exact I | reflexivity | discriminate
        | (unfold step_call; intros Hsame; discriminate Hsame) ].

Ltac safe_walk :=
  repeat match goal with
  | |- forall _, _ => intros ?
  | |- safe _ _ (mret _) => apply safe_ret
  | |- safe _ _ (raise _) => apply safe_raise; safe_side
  | |- safe _ _ get_self => apply safe_get
  | |- safe _ _ (modify _) => apply safe_modify
  | |- safe _ _ (call _ _) => apply safe_call; safe_side
  | |- safe _ _ (when _ _) => apply safe_when
  | |- safe _ _ (mapM _ _) => apply safe_mapM
  | |- safe _ _ (mbind _ _) => apply safe_bind
  | |- safe _ _ (bcall _) => unfold bcall
  | |- safe _ _ (ccall _) => unfold ccall
  | |- safe _ _ (setattr_call _ _ _) => unfold setattr_call
  | |- safe _ _ warn => unfold warn
  | |- safe _ _ (required _ _) => unfold required
  | |- safe _ _ (BaseEnv__init__ _ _) => unfold BaseEnv__init__
  | |- safe _ _ (match ?v with _ => _ end) => destruct v
  end.

(** Whatever its arguments, the part of [_init_backend] that follows the
    check of the backend does not raise the error of that check. *)
Lemma build_not_same_backend_twice ch names aC oC rC lC :
  safe (fun e => e <> same_backend_twice) (fun _ => True)
    (_init_backend_build ch names aC oC rC lC).
Proof. unfold _init_backend_build. safe_walk. Qed.

Ltac doomed_walk :=
  repeat match goal with
  | |- forall _, _ => intros ?
  | |- doomed _ _ (raise _) => apply doomed_raise; reflexivity
  | |- doomed _ _ (mbind _ (raise _)) => apply doomed_bind_l, doomed_raise; reflexivity
  | |- doomed _ _ (mbind _ (when (negb ?c) (raise _))) =>
      destruct c eqn:?; simpl;
      [ first [congruence | apply doomed_bind_r; [apply safe_ret |]]
      | first [congruence | apply doomed_bind_l, doomed_raise; reflexivity] ]
  | |- doomed _ _ (mbind _ _) => apply doomed_bind_r; [solve [safe_walk] |]
  end.

(** The construction is doomed when the class of the rules, of the actions
    or of the observations is not a class derived from its base class: it
    raises before it takes a step. *)
Lemma build_doomed ch names aC oC rC lC :
  well_formed_class lC "BaseRules" = false
  \/ well_formed_class aC "BaseAction" = false
  \/ well_formed_class oC "BaseObservation" = false ->
  doomed (fun e => is_Grid2OpException e = true) (fun c => c <> step_call)
    (_init_backend_build ch names aC oC rC lC).
Proof.
  unfold well_formed_class. rewrite !andb_false_iff.
  intros [[H|H]|[[H|H]|[H|H]]]; unfold _init_backend_build; doomed_walk.
Qed.

(** What [_init_backend] does up to the check of the backend. *)
Lemma init_backend_checks ch names aC oC rC lC (b : Backend) st :
  _init_backend ch (PyBackend b) names aC oC rC lC st =
  if negb (isinstance_type rC)
  then (inl (mkExc Grid2OpException "rewardClass should be a type (a class)"), st)
  else if negb (issubclass_val rC "BaseReward")
  then (inl (mkExc Grid2OpException "rewardClass should derive from BaseReward"), st)
  else
    let st' := mkCState (set_backend b (cs_self st)) (cs_log st) in
    if is_loaded b then (inl same_backend_twice, st')
    else _init_backend_build ch names aC oC rC lC st'.
Proof.
  unfold _init_backend.
  destruct (isinstance_type rC); [| reflexivity].
  destruct (issubclass_val rC "BaseReward"); [| reflexivity].
  unfold mbind, M_bind, mret, M_ret, modify, get_self, is_loaded.
  cbn -[_init_backend_build].
  destruct (_is_loaded b); reflexivity.
Qed.


(** With a backend that is not loaded, [_init_backend] does not raise the
    error of the eager check. *)
Lemma init_backend_fresh ch names aC oC rC lC (b : Backend) :
  is_loaded b = false ->
  safe (fun e => e <> same_backend_twice) (fun _ => True)
    (_init_backend ch (PyBackend b) names aC oC rC lC).
Proof.
  intros Hb s. rewrite init_backend_checks, Hb.
  destruct (isinstance_type rC); simpl;
    [| split; [exists []; split; [reflexivity | constructor] | intros e [= <-]; left; discriminate]].
  destruct (issubclass_val rC "BaseReward"); simpl;
    [| split; [exists []; split; [reflexivity | constructor] | intros e [= <-]; left; discriminate]].
  apply (build_not_same_backend_twice ch names aC oC rC lC
           (mkCState (set_backend b (cs_self s)) (cs_log s))).
Qed.

(** A malformed argument dooms [_init_backend]. *)
Lemma init_backend_doomed ch bk names aC oC rC lC :
  malformed bk aC oC rC lC ->
  doomed (fun e => is_Grid2OpException e = true) (fun c => c <> step_call)
    (_init_backend ch bk names aC oC rC lC).
Proof.
  unfold malformed, well_formed_class. rewrite !andb_false_iff.
  intros [[H|H]|[H|H]]; unfold _init_backend.
  1,2: doomed_walk.
  - destruct bk; try discriminate H; doomed_walk.
  - doomed_walk.
    apply build_doomed. unfold well_formed_class. rewrite !andb_false_iff. exact H.
Qed.



Lemma required_lookup (kw : gmap string PyVal) k v :
  kw !! k = Some v -> required kw k = mret v.
Proof. intros Hk. unfold required. rewrite Hk. reflexivity. Qed.

(** The same at the level of the constructor, called with its required
    arguments: a malformed argument makes [Environment(...)] raise a
    Grid2OpException, and no step has been taken. *)
Lemma malformed_keyword_argument_rejected (kw : gmap string PyVal) igp ch bk par :
  kw !! "init_grid_path" = Some igp ->
  kw !! "chronics_handler" = Some ch ->
  kw !! "backend" = Some bk ->
  kw !! "parameters" = Some par ->
  malformed bk (arg kw "actionClass" (PyType TopologyAction))
    (arg kw "observationClass" (PyType CompleteObservation))
    (arg kw "rewardClass" (PyType FlatReward))
    (arg kw "legalActClass" (PyType AlwaysLegal)) ->
  polite ->
  exists e,
    (new_Environment kw).1 = inl e
    /\ is_Grid2OpException e = true
    /\ step_call ∉ cs_log (new_Environment kw).2.
Proof.
  intros Higp Hch Hbk Hpar Hmal Hpolite.
  assert (Hdoomed : doomed (fun e => is_Grid2OpException e = true)
                      (fun c => c <> step_call) (Environment__init__ kw)).
  { unfold Environment__init__.
    rewrite (required_lookup _ _ _ Higp), (required_lookup _ _ _ Hch),
      (required_lookup _ _ _ Hbk), (required_lookup _ _ _ Hpar).
    do 4 apply doomed_ret_bind.
    doomed_walk. apply doomed_bind_l, init_backend_doomed, Hmal. }
  destruct Hdoomed as [Hsafe Hfails]. unfold new_Environment.
  destruct (Hfails (mkCState blank_env [])) as [e He].
  destruct (Hsafe (mkCState blank_env [])) as [(new & Hlog & Hnew) Hexc].
  exists e. repeat split; [exact He | |].
  - destruct (Hexc e He) as [Hg | (h & c' & Hw)]; [exact Hg | exact (Hpolite h c' e Hw)].
  - rewrite Hlog, app_nil_r. intros Hin.
    rewrite Forall_forall in Hnew. exact (Hnew _ Hin eq_refl).
Qed.

(** C4: with a backend that is already loaded, [_init_backend] raises
    before it calls anything -- no grid is loaded, no step is taken -- and
    the error is the one of a backend used twice once the reward class has
    passed its own check; with a backend that is not loaded this error can
    only come from a collaborator. *)
Theorem loaded_backend_rejected ch names aC oC rC lC (b : Backend) st :
  let r := _init_backend ch (PyBackend b) names aC oC rC lC st in
  (is_loaded b = true ->
     (exists e, r.1 = inl e /\ is_Grid2OpException e = true)
     /\ cs_log r.2 = cs_log st
     /\ (well_formed_class rC "BaseReward" = true -> r.1 = inl same_backend_twice))
  /\ (is_loaded b = false ->
       r.1 = inl same_backend_twice ->
       exists h c, world h c = Raises same_backend_twice).
Proof.
  intros r. split.
  - intros Hb. subst r. rewrite init_backend_checks, Hb. unfold well_formed_class.
    destruct (isinstance_type rC); simpl;
      [| repeat split; [eexists; split; reflexivity | discriminate]].
    destruct (issubclass_val rC "BaseReward"); simpl;
      repeat split; try (eexists; split; reflexivity); discriminate.
  - intros Hb Hr.
    destruct (init_backend_fresh ch names aC oC rC lC b Hb st) as [_ Hexc].
    destruct (Hexc _ Hr) as [Hne | Hw]; [contradiction | exact Hw].
Qed.

(** ** Environment.get_kwargs *)

Lemma get_kwargs_backend (env : Environment) :
  get_kwargs env true !! "backend"
  = Some (PyBackend (set__is_loaded false (backend_copy (backend env)))).
Proof.
  unfold get_kwargs.
  repeat (rewrite lookup_insert_ne by discriminate).
  rewrite lookup_alter_eq, lookup_insert_eq. reflexivity.
Qed.

(** The constructor, called with a backend that is not loaded, does not
    raise the error of a backend used twice. *)
Lemma init_fresh (kw : gmap string PyVal) (b : Backend) :
  kw !! "backend" = Some (PyBackend b) ->
  is_loaded b = false ->
  safe (fun e => e <> same_backend_twice) (fun _ => True) (Environment__init__ kw).
Proof.
  intros Hkw Hb. unfold Environment__init__.
  apply safe_bind; [safe_walk | intros init_grid_path].
  apply safe_bind; [safe_walk | intros ch].
  rewrite (required_lookup _ _ _ Hkw). apply safe_ret_bind.
  safe_walk. apply init_backend_fresh, Hb.
Qed.

(** C10: in [get_kwargs(with_backend=True)] the backend entry is a copy of
    the backend of the environment with its loaded flag cleared, and an
    environment built from these arguments does not fail the check of a
    backend used twice: that error could only come from a collaborator. *)
Theorem get_kwargs_fresh_backend (env : Environment) :
  exists b,
    get_kwargs env true !! "backend" = Some (PyBackend b)
    /\ b = set__is_loaded false (backend_copy (backend env))
    /\ is_loaded b = false
    /\ ((new_Environment (get_kwargs env true)).1 = inl same_backend_twice ->
        exists h c, world h c = Raises same_backend_twice).
Proof.
  eexists. split; [apply get_kwargs_backend |]. split; [reflexivity |].
  split; [reflexivity |]. intros Hr.
  destruct (init_fresh _ _ (get_kwargs_backend env) eq_refl (mkCState blank_env []))
    as [_ Hexc].
  destruct (Hexc _ Hr) as [Hne | Hw]; [contradiction | exact Hw].
Qed.

End ConstructionProperties.

(** ** Observation assembly *)

Section ObservationProperties.
Context {FO : FloatOps} {OB : ObservationBase}.

Lemma assign_spec {A B} (cast : B -> A) (dest : list A) (values : list B)
    (stored : list A) :
  assign cast dest values = inr stored -> slice_assigned cast dest values stored.
Proof.
  unfold assign, slice_assigned. case_bool_decide as Hlen.
  - intros [= <-]. split; [rewrite length_fmap; exact Hlen |].
    split; [reflexivity |]. intros v ->. simpl in Hlen. rewrite <- Hlen. reflexivity.
  - destruct values as [|v [|v' values]]; try discriminate. intros [= <-].
    split; [apply length_replicate |].
    split; [intros H; contradiction (Hlen H) |]. intros v0 [= ->]. reflexivity.
Qed.

Lemma assign_returns {A B} (cast : B -> A) (dest : list A) (values : list B) :
  length values = length dest -> assign cast dest values = inr (cast <$> values).
Proof. intros Hlen. unfold assign. rewrite bool_decide_eq_true_2 by exact Hlen. reflexivity. Qed.

(** The method of the environment returns what [max_episode_duration] does,
    and calls the chronics handler. *)
Lemma max_episode_duration_traced_spec (env : Environment) :
  max_episode_duration_traced env
  = (inr (max_episode_duration env),
     [mkCall "chronics_handler" "max_episode_duration"]).
Proof. reflexivity. Qed.

Ltac update_tuples env :=
  destruct (bk_generators_info (backend env)) as [[? ?] ?];
  destruct (bk_loads_info (backend env)) as [[? ?] ?];
  destruct (bk_lines_or_info (backend env)) as [[[? ?] ?] ?];
  destruct (bk_lines_ex_info (backend env)) as [[[? ?] ?] ?];
  destruct (bk_theta (backend env)) as [[[[? ?] ?] ?] ?].

Ltac update_reduce :=
  cbn [mbind mret Traced_bind Traced_ret ask method assigned fst snd
       max_episode_duration_traced] in *.

(** Follows a call that returns: every assignment has returned. *)
Ltac update_returned H :=
  update_reduce;
  repeat match type of H with
  | context [assign ?c ?d ?v] =>
      let E := fresh "Hassign" in
      destruct (assign c d v) as [?|?] eqn:E; update_reduce;
      [discriminate H |]
  end.

(** Follows a call to its end, whether an assignment raises or not. *)
Ltac update_followed :=
  update_reduce;
  repeat match goal with
  | |- context [assign ?c ?d ?v] =>
      destruct (assign c d v) as [?|?]; update_reduce
  end.

Lemma fmap_const_None {A B} (l : list A) :
  (fun _ => @None B) <$> l = replicate (length l) None.
Proof. induction l as [|x l IH]; [reflexivity | cbn; f_equal; exact IH]. Qed.

(** The calls of [update]: to the reporting interface of the backend, to
    the environment and to the chronics handler. *)
Lemma update_calls_reporting (self : Observation) (env : Environment) (wf : bool) :
  forall c, c ∈ update_calls self env wf ->
    (call_target c = "backend" -> call_method c ∈ reporting_interface)
    /\ (c = mkCall "chronics_handler" "forecasts" -> wf = true).
Proof.
  unfold update_calls, update_traced, reporting_interface. update_tuples env.
  destruct (can_output_theta (backend env)), wf; update_followed.
  all: apply Forall_forall;
    match goal with |- ?P => apply (@bool_decide_unpack P _) end;
    vm_compute; exact I.
Qed.

(** C7: when [update] returns with forecasts enabled, the forecast field
    holds the row of the current injections followed by the rows that the
    chronics' [forecasts()] returns, as they are.  The row of the current
    injections is stamped with the time of the environment and holds, times
    one, the loads and the productions that the backend reports, as the
    arrays of the observation store them.  No grid is computed for the rows,
    and the only calls made to the backend are to its reporting interface,
    none to its solver. *)
Theorem update_forecasts (self : Observation) (env : Environment) (obs : Observation) :
  update self env true = inr obs ->
  let blank := BaseObservation_reset (_reset_matrices self) in
  let ts := time_stamp (env_state env) in
  let one_times := fmap (M:=list) (fun x => dt_float (fmul (float_of_int 1) x)) in
  get_time_stamp obs
    = mkDatetime (dt_int (dt_year ts)) (dt_int (dt_month ts)) (dt_int (dt_day ts))
        (dt_int (dt_hour ts)) (dt_int (dt_minute ts)) (dt_int (dt_weekday ts))
  /\ _forecasted_inj obs
    = (get_time_stamp obs,
       <["injection" :=
           <["prod_v" := one_times (gen_v obs)]>
             (<["prod_p" := one_times (gen_p obs)]>
               (<["load_q" := one_times (load_q obs)]>
                 (<["load_p" := one_times (load_p obs)]> ∅)))]> ∅)
        :: ch_forecasts (chronics_handler env)
  /\ slice_assigned dt_float (load_p blank) (bk_loads_info (backend env)).1.1 (load_p obs)
  /\ slice_assigned dt_float (load_q blank) (bk_loads_info (backend env)).1.2 (load_q obs)
  /\ slice_assigned dt_float (gen_p blank) (bk_generators_info (backend env)).1.1 (gen_p obs)
  /\ slice_assigned dt_float (gen_v blank) (bk_generators_info (backend env)).2 (gen_v obs)
  /\ _forecasted_grid obs
     = replicate (S (length (ch_forecasts (chronics_handler env)))) None
  /\ mkCall "chronics_handler" "forecasts" ∈ update_calls self env true
  /\ (forall c, c ∈ update_calls self env true -> call_target c = "backend" ->
        call_method c ∈ reporting_interface).
Proof.
  intros Hret blank ts one_times. subst blank ts one_times.
  match goal with
  | |- ?A /\ ?B /\ ?C /\ ?D /\ ?E /\ ?F /\ ?G /\ ?H /\ _ =>
      enough (A /\ B /\ C /\ D /\ E /\ F /\ G /\ H)
        as (H1 & H2 & H3 & H4 & H5 & H6 & H7 & H8);
      [ repeat (split; [assumption |]);
        intros c Hc; exact (proj1 (update_calls_reporting self env true c Hc)) |]
  end.
  revert Hret. unfold update, update_calls, update_traced.
  update_tuples env.
  destruct (can_output_theta (backend env)); intros Hret; update_returned Hret;
    injection Hret as <-; unfold get_time_stamp;
    cbn [_forecasted_inj _forecasted_grid load_p load_q gen_p gen_v fst snd app
         year month day hour_of_day minute_of_hour day_of_week
         dt_year dt_month dt_day dt_hour dt_minute dt_weekday].
  all: split; [reflexivity |].
  all: split; [reflexivity |].
  all: do 4 (split; [apply assign_spec; assumption |]).
  all: split; [rewrite fmap_const_None; reflexivity |].
  all: set_solver.
Qed.

(** X14: without forecasts, [update] does not call [forecasts()] of the
    chronics handler -- the only call that reaches the chronics handler is
    the one that [max_episode_duration] makes -- and, when it returns, the
    forecast fields of the observation are what [reset] left there. *)
Theorem update_without_forecast (self : Observation) (env : Environment) :
  let blank := BaseObservation_reset (_reset_matrices self) in
  (forall obs, update self env false = inr obs ->
     _forecasted_inj obs = _forecasted_inj blank
     /\ _forecasted_grid obs = _forecasted_grid blank)
  /\ (mkCall "chronics_handler" "forecasts" ∉ update_calls self env false)
  /\ (forall c, c ∈ update_calls self env false ->
        call_target c = "chronics_handler" ->
        c = mkCall "chronics_handler" "max_episode_duration")
  /\ ([mkCall "env" "max_episode_duration";
       mkCall "chronics_handler" "max_episode_duration"]
      `prefix_of` update_calls self env false).
Proof.
  intros blank. subst blank. split; [| split; [| split]].
  - intros obs. unfold update, update_traced. update_tuples env.
    destruct (can_output_theta (backend env)); intros Hret; update_returned Hret;
      injection Hret as <-; split; reflexivity.
  - intros Hin. pose proof (update_calls_reporting self env false _ Hin) as [_ Hwf].
    specialize (Hwf eq_refl). discriminate Hwf.
  - unfold update_calls, update_traced. update_tuples env.
    destruct (can_output_theta (backend env)); update_followed.
    all: apply (proj1 (Forall_forall
                  (fun c => call_target c = "chronics_handler" ->
                            c = mkCall "chronics_handler" "max_episode_duration") _));
      match goal with |- ?P => apply (@bool_decide_unpack P _) end;
      vm_compute; exact I.
  - unfold update_calls, update_traced. update_tuples env.
    destruct (can_output_theta (backend env)); update_followed.
    all: cbn [app]; do 2 apply prefix_cons; apply prefix_nil.
Qed.

End ObservationProperties.

(** ** Reward classes *)

Section RewardProperties.
Context {FO : FloatOps} {OB : ObservationBase} {OS : ObservationSpace}.


Lemma np_multiply_shape (a b : list Float) :
  np_multiply a b
  = if bool_decide (length a = length b \/ length a = 1%nat \/ length b = 1%nat)
    then inr (if bool_decide (length a = length b) then zip_with fmul a b
              else match a with
                   | [x] => fmul x <$> b
                   | _ => (fun x => fmul x (default (float_of_int 0) (head b))) <$> a
                   end)
    else inl broadcast_error.
Proof.
  unfold np_multiply.
  destruct a as [|x [|x' a]], b as [|y [|y' b]]; simpl;
    repeat case_bool_decide; simpl in *;
    first [ reflexivity | exfalso; lia ].
Qed.







End RewardProperties.

(** ** The step engine *)

Section EngineProperties.
Context {FO : FloatOps} {OB : ObservationBase} {OS : ObservationSpace}
  {EX : Externals} {CO : Collaborators}.

Lemma run_cons (op : Op) (ops : list Op) (w : World) :
  run (op :: ops) w
  = ((exec op w).1 :: (run ops (exec op w).2).1, (run ops (exec op w).2).2).
Proof.
  simpl. destruct (exec op w) as [r w1]. simpl.
  destruct (run ops w1) as [rs w2]. reflexivity.
Qed.

(** *** The end of an episode *)

Lemma step_on_done next a env :
  done (env_state (step_on next a env).2) = out_done (step_on next a env).1.
Proof.
  unfold step_on. destruct next as [row|]; [| reflexivity].
  destruct (opponent_policy (opponent_seed env) (env_state env)) as [asked seed].
  destruct (opponent_step asked (env_state env)) as [[forced attack] budget].
  destruct (compose row forced _ (env_state env)) as [status topo].
  destruct (resolve_redispatch _ (env_state env) _) as [inj dispatch].
  destruct (cascade cascade_cap (backend env) status topo inj) as [[bk status1] ok].
  reflexivity.
Qed.

Lemma step_done a env p :
  step a env = inr p -> done (env_state p.2) = out_done p.1.
Proof.
  unfold step. destruct (done (env_state env)); [discriminate |].
  destruct (load_next (space_prng env) (chronics_handler env)) as [[[row ch]|] seed];
    intros Hp;
    match type of Hp with
    | inr ?x = inr p => assert (p = x) as -> by congruence
    end; apply step_on_done.
Qed.

Lemma step_after_done a env :
  done (env_state env) = true -> step a env = inl state_error.
Proof. intros Hd. unfold step. rewrite Hd. reflexivity. Qed.

(** C2: once a step has returned [done = True], every later call to [step]
    on the same engine fails with the state error, as long as [reset] is not
    called; none of them changes the state of the engine. *)
Theorem done_is_terminal (a : Action) (w w1 : World) l reward info (ops : list Op) :
  Environment_step a w = (inr (l, reward, true, info), w1) ->
  Forall (fun op => op <> OpReset) ops ->
  Forall (fun res => forall r, res = ResStep r -> r = inl state_error) (run ops w1).1
  /\ w_env (run ops w1).2 = w_env w1.
Proof.
  intros Hstep Hops.
  assert (Hdone : done (env_state (w_env w1)) = true).
  { unfold Environment_step in Hstep.
    destruct (step a (w_env w)) as [e|[out env']] eqn:Hs; [discriminate |].
    injection Hstep as _ _ Hd _ <-.
    pose proof (step_done _ _ _ Hs) as Hflag. simpl in *.
    rewrite Hflag. exact Hd. }
  clear Hstep. revert w1 Hdone.
  induction Hops as [|op ops Hop _ IH]; intros w1 Hdone.
  - simpl. split; [constructor | reflexivity].
  - rewrite run_cons. cbn [fst snd].
    assert (Henv : w_env (exec op w1).2 = w_env w1
                   /\ forall r, (exec op w1).1 = ResStep r -> r = inl state_error).
    { destruct op as [b|b|]; [| | contradiction].
      - simpl. unfold Environment_step. rewrite (step_after_done b _ Hdone). simpl.
        split; [reflexivity | intros r [= <-]; reflexivity].
      - simpl. split; [reflexivity | intros r Hr; discriminate Hr]. }
    destruct Henv as [Henv Hres].
    destruct (IH (exec op w1).2) as [Hall Hfinal].
    { rewrite Henv. exact Hdone. }
    split; [constructor; assumption | rewrite Hfinal; exact Henv].
Qed.

End EngineProperties.

(** ** ResilienceReward: the value of the reward *)

Section RewardValueProperties.
Context {FO : FloatOps} {OB : ObservationBase}.

Lemma count_connected_seq (status : list bool) (k i : nat) (acc : Z) :
  (i <= length status)%nat ->
  count_connected status (seq i k) acc
  = if bool_decide (length status < i + k)%nat
    then inl (mkExc IndexError "index out of bounds")
    else inr (acc + Z.of_nat (length (filter Is_true (take k (drop i status))))).
Proof.
  revert i acc. induction k as [|k IH]; intros i acc Hi; simpl.
  - rewrite bool_decide_eq_false_2 by lia. f_equal. lia.
  - destruct (status !! i) as [b|] eqn:Hb.
    + apply lookup_lt_Some in Hb as Hlt.
      rewrite (drop_S _ _ _ Hb). simpl.
      destruct b; rewrite IH by lia.
      * replace (i + S k)%nat with (S i + k)%nat by lia.
        case_bool_decide; [reflexivity |].
        rewrite filter_cons_True by exact I. simpl. f_equal. lia.
      * replace (i + S k)%nat with (S i + k)%nat by lia.
        case_bool_decide; [reflexivity |].
        rewrite filter_cons_False by (intros []). reflexivity.
    + apply lookup_ge_None in Hb. rewrite bool_decide_eq_true_2 by lia. reflexivity.
Qed.

(** X1: when no flag triggers the early exits, [ResilienceReward] raises an
    IndexError if the status array is shorter than the number of lines, a
    ZeroDivisionError on a grid without lines, a TypeError if the costs per
    MW are [None], a ValueError if their shape does not go with that of
    [_p_difference()], and otherwise returns [_lambda * LS + eps * LC],
    where [LC] is the fraction of the lines that are in service. *)
Theorem ResilienceReward_connected_fraction (self : ResilienceReward)
    (action : Action) (env : Environment)
    (has_error is_done is_illegal is_ambiguous : bool) :
  has_error && (is_illegal || is_ambiguous || is_done) = false ->
  ResilienceReward__call__ self action env has_error is_done is_illegal is_ambiguous
  = let obs := current_obs env in
    let n := obs_n_line obs in
    if bool_decide (length (line_status obs) < n)%nat
    then inl (mkExc IndexError "index out of bounds")
    else if bool_decide (n = 0%nat)
    then inl (mkExc ZeroDivisionError "division by zero")
    else
      match gen_cost_per_MW env with
      | None => inl none_operand
      | Some cost =>
          if bool_decide (length cost = length (p_difference env)
                          \/ length cost = 1%nat
                          \/ length (p_difference env) = 1%nat)
          then
            let connected := length (filter Is_true (take n (line_status obs))) in
            let LC :=
              fdiv (float_of_int (Z.of_nat connected)) (float_of_int (Z.of_nat n)) in
            let LS := match _new_load env with
                      | None => float_of_int 0
                      | Some scheduled_load =>
                          fdiv (np_sum (load_p obs)) (np_sum scheduled_load)
                      end in
            inr (RFloat (fadd (fmul (_lambda self) LS) (fmul (eps self) LC)))
          else inl broadcast_error
      end.
Proof.
  intros Hflags. unfold ResilienceReward__call__.
  replace (has_error && (is_illegal || is_ambiguous)) with false
    by (destruct has_error, is_illegal, is_ambiguous, is_done; simpl in *; congruence).
  replace (has_error && is_done) with false
    by (destruct has_error, is_illegal, is_ambiguous, is_done; simpl in *; congruence).
  cbv zeta. rewrite count_connected_seq by lia. rewrite drop_0. simpl.
  case_bool_decide; [reflexivity |].
  case_bool_decide; [reflexivity |].
  destruct (gen_cost_per_MW env) as [cost|]; [| reflexivity].
  rewrite np_multiply_shape. case_bool_decide; reflexivity.
Qed.

End RewardValueProperties.

(** ** Construction: what the constructor stores *)

Section InvariantLogic.
Context {FO : FloatOps} {OB : ObservationBase} {EX : Externals}.

Lemma keeps_ret {A} I (a : A) : keeps I (mret a).
Proof. intros s Hs; exact Hs. Qed.

Lemma keeps_raise {A} I e : keeps (A:=A) I (raise e).
Proof. intros s Hs; exact Hs. Qed.

Lemma keeps_get I : keeps I get_self.
Proof. intros s Hs; exact Hs. Qed.

Lemma keeps_modify (I : Environment -> Prop) f :
  (forall e, I e -> I (f e)) -> keeps I (modify f).
Proof. intros Hf s Hs. apply Hf, Hs. Qed.

Lemma keeps_call I target method : keeps I (call target method).
Proof.
  intros s Hs. unfold call.
  destruct (world (cs_log s) (mkCall target method)); exact Hs.
Qed.

Lemma keeps_bind {A B} I (m : M A) (f : A -> M B) :
  keeps I m -> (forall a, keeps I (f a)) -> keeps I (m ≫= f).
Proof.
  intros Hm Hf s Hs. unfold mbind, M_bind.
  specialize (Hm s Hs). destruct (m s) as [[e|a] s']; simpl in *; [exact Hm |].
  apply Hf, Hm.
Qed.

Lemma keeps_when I c m : keeps I m -> keeps I (when c m).
Proof. destruct c; simpl; [trivial | intros _; apply keeps_ret]. Qed.

Lemma keeps_mapM {A B} I (f : A -> M B) (l : list A) :
  (forall a, keeps I (f a)) -> keeps I (mapM f l).
Proof.
  intros Hf. induction l as [|a l IH]; simpl.
  - apply keeps_ret.
  - apply keeps_bind; [apply Hf | intros b].
    apply keeps_bind; [apply IH | intros bs]. apply keeps_ret.
Qed.

Lemma ensures_raise {A} Q e : ensures (A:=A) Q (raise e).
Proof. intros s a [=]. Qed.

Lemma ensures_modify (Q : Environment -> Prop) f :
  (forall e, Q (f e)) -> ensures Q (modify f).
Proof. intros Hf s a _. apply Hf. Qed.

(** The last statement that matters comes first: what follows keeps it. *)
Lemma ensures_bind_now {A B} Q (m : M A) (f : A -> M B) :
  ensures Q m -> (forall a, keeps Q (f a)) -> ensures Q (m ≫= f).
Proof.
  intros Hm Hf s b. unfold mbind, M_bind.
  specialize (Hm s). destruct (m s) as [[e|a] s']; simpl in *; [intros [=] |].
  intros _. apply Hf, (Hm a), eq_refl.
Qed.

Lemma ensures_bind_later {A B} Q (m : M A) (f : A -> M B) :
  (forall a, ensures Q (f a)) -> ensures Q (m ≫= f).
Proof.
  intros Hf s b. unfold mbind, M_bind.
  destruct (m s) as [[e|a] s']; simpl; [intros [=] |]. apply Hf.
Qed.

End InvariantLogic.

Section ConstructorStores.
Context {FO : FloatOps} {OB : ObservationBase} {EX : Externals}.

Ltac keeps_side :=
  let e := fresh "e" in let He := fresh "He" in
  intros e He;
  unfold setattr, set_backend, set_chronics_handler, set__thermal_limit_a, set_env_state;
  cbn [name attrs _read_from_local_dir];
  rewrite ?lookup_insert_ne by discriminate; exact He.

Ltac keeps_walk :=
  repeat match goal with
  | |- forall _, _ => intros ?
  | |- keeps _ (mret _) => apply keeps_ret
  | |- keeps _ (raise _) => apply keeps_raise
  | |- keeps _ get_self => apply keeps_get
  | |- keeps _ (modify _) => apply keeps_modify; keeps_side
  | |- keeps _ (call _ _) => apply keeps_call
  | |- keeps _ (when _ _) => apply keeps_when
  | |- keeps _ (mapM _ _) => apply keeps_mapM
  | |- keeps _ (mbind _ _) => apply keeps_bind
  | |- keeps _ (bcall _) => unfold bcall
  | |- keeps _ (ccall _) => unfold ccall
  | |- keeps _ (setattr_call _ _ _) => unfold setattr_call
  | |- keeps _ warn => unfold warn
  | |- keeps _ (_init_backend _ _ _ _ _ _ _) =>
      unfold _init_backend, _init_backend_build
  | |- keeps _ (match ?v with _ => _ end) => destruct v
  end.

(** Walks to the statement that establishes [Q], and checks that the
    statements after it keep [Q]. *)
Ltac ensures_now :=
  apply ensures_modify;
  let e := fresh "e" in
  intros e;
  unfold setattr; cbn [name attrs _read_from_local_dir];
  first [ reflexivity | apply lookup_insert_eq ].

Ltac ensures_walk_with tac :=
  repeat first
    [ progress intros
    | (apply ensures_bind_now; [solve [tac] | solve [keeps_walk]])
    | solve [tac]
    | apply ensures_bind_later ].

Ltac ensures_walk := ensures_walk_with ensures_now.

Lemma init_backend_stores ch bk names aC oC rC lC :
  ensures (fun e => attrs e !! "_rewardClass" = Some rC)
    (_init_backend ch bk names aC oC rC lC)
  /\ ensures (fun e => attrs e !! "_legalActClass" = Some lC)
    (_init_backend ch bk names aC oC rC lC)
  /\ ensures (fun e => attrs e !! "_names_chronics_to_backend" = Some names)
    (_init_backend ch bk names aC oC rC lC).
Proof.
  repeat split; unfold _init_backend, _init_backend_build; ensures_walk.
Qed.

Lemma init_backend_keeps_name ch bk names aC oC rC lC s :
  keeps (fun e => name e = s) (_init_backend ch bk names aC oC rC lC).
Proof. unfold _init_backend, _init_backend_build. keeps_walk. Qed.

Lemma init_backend_keeps_read_from_local_dir ch bk names aC oC rC lC b :
  keeps (fun e => _read_from_local_dir e = b) (_init_backend ch bk names aC oC rC lC).
Proof. unfold _init_backend, _init_backend_build. keeps_walk. Qed.

Lemma init_backend_keeps_compat ch bk names aC oC rC lC v :
  keeps (fun e => attrs e !! "_compat_glop_version" = Some v)
    (_init_backend ch bk names aC oC rC lC).
Proof. unfold _init_backend, _init_backend_build. keeps_walk. Qed.

(** What the constructor stores of its arguments, in the attributes that
    [get_kwargs] reads. *)
Lemma init_stores (kw : gmap string PyVal) :
  ensures (fun e =>
      attrs e !! "_actionClass_orig" = Some (arg kw "actionClass" (PyType TopologyAction)))
    (Environment__init__ kw)
  /\ ensures (fun e =>
      attrs e !! "_observationClass_orig"
      = Some (arg kw "observationClass" (PyType CompleteObservation)))
    (Environment__init__ kw)
  /\ ensures (fun e =>
      attrs e !! "_rewardClass" = Some (arg kw "rewardClass" (PyType FlatReward)))
    (Environment__init__ kw)
  /\ ensures (fun e =>
      attrs e !! "_legalActClass" = Some (arg kw "legalActClass" (PyType AlwaysLegal)))
    (Environment__init__ kw)
  /\ ensures (fun e =>
      attrs e !! "_names_chronics_to_backend"
      = Some (arg kw "names_chronics_to_backend" PyNone))
    (Environment__init__ kw)
  /\ ensures (fun e =>
      attrs e !! "_compat_glop_version" = Some (arg kw "_compat_glop_version" PyNone))
    (Environment__init__ kw)
  /\ ensures (fun e =>
      _read_from_local_dir e = truthy (arg kw "_read_from_local_dir" (PyBool true)))
    (Environment__init__ kw).
Proof.
  repeat split; unfold Environment__init__.
  - ensures_walk.
  - ensures_walk.
  - ensures_walk_with ltac:(apply init_backend_stores).
  - ensures_walk_with ltac:(apply init_backend_stores).
  - ensures_walk_with ltac:(apply init_backend_stores).
  - ensures_walk_with ltac:(first [ensures_now]).
  - ensures_walk.
Qed.

Lemma init_stores_name (kw : gmap string PyVal) s :
  arg kw "name" (PyStr "unknown") = PyStr s ->
  ensures (fun e => name e = s) (Environment__init__ kw).
Proof.
  intros Hname. unfold Environment__init__. rewrite Hname. ensures_walk.
Qed.

(** X2: an environment that the constructor has built holds the arguments it
    was given (or their defaults): its name, the flag [_read_from_local_dir],
    the classes of the actions, observations, reward and rules, the names
    mapping of the chronics and the compatibility version (the methods
    inherited from [BaseEnv] being calls that do not reassign them). *)
Theorem constructor_stores_arguments (kw : gmap string PyVal) :
  (new_Environment kw).1 = inr tt ->
  let env := cs_self (new_Environment kw).2 in
  (forall s, arg kw "name" (PyStr "unknown") = PyStr s -> name env = s)
  /\ _read_from_local_dir env = truthy (arg kw "_read_from_local_dir" (PyBool true))
  /\ getattr env "_actionClass_orig" = arg kw "actionClass" (PyType TopologyAction)
  /\ getattr env "_observationClass_orig"
     = arg kw "observationClass" (PyType CompleteObservation)
  /\ getattr env "_rewardClass" = arg kw "rewardClass" (PyType FlatReward)
  /\ getattr env "_legalActClass" = arg kw "legalActClass" (PyType AlwaysLegal)
  /\ getattr env "_names_chronics_to_backend" = arg kw "names_chronics_to_backend" PyNone
  /\ getattr env "_compat_glop_version" = arg kw "_compat_glop_version" PyNone.
Proof.
  intros Hok env. subst env. unfold new_Environment in *.
  destruct (init_stores kw) as (HaC & HoC & HrC & HlC & Hnames & Hcompat & Hlocal).
  split; [intros s Hs; exact (init_stores_name kw s Hs _ _ Hok) |].
  split; [exact (Hlocal _ _ Hok) |].
  unfold getattr.
  rewrite (HaC _ _ Hok), (HoC _ _ Hok), (HrC _ _ Hok), (HlC _ _ Hok),
    (Hnames _ _ Hok), (Hcompat _ _ Hok).
  repeat split.
Qed.

Lemma get_kwargs_lookup (env : Environment) (b : bool) :
  get_kwargs env b !! "name" = Some (PyStr (name env))
  /\ get_kwargs env b !! "_read_from_local_dir" = Some (PyBool (_read_from_local_dir env))
  /\ get_kwargs env b !! "actionClass" = Some (getattr env "_actionClass_orig")
  /\ get_kwargs env b !! "observationClass" = Some (getattr env "_observationClass_orig")
  /\ get_kwargs env b !! "rewardClass" = Some (getattr env "_rewardClass")
  /\ get_kwargs env b !! "legalActClass" = Some (getattr env "_legalActClass")
  /\ get_kwargs env b !! "names_chronics_to_backend"
     = Some (getattr env "_names_chronics_to_backend")
  /\ get_kwargs env b !! "_compat_glop_version" = None.
Proof.
  unfold get_kwargs, deepcopy.
  repeat split;
    repeat first [ apply lookup_insert_eq
                 | rewrite lookup_insert_ne by discriminate ];
    destruct b;
    rewrite ?lookup_alter_ne by discriminate;
    repeat (rewrite lookup_insert_ne by discriminate);
    apply lookup_empty.
Qed.

Lemma arg_lookup (kw : gmap string PyVal) k v dflt :
  kw !! k = Some v -> arg kw k dflt = v.
Proof. intros H. unfold arg. rewrite H. reflexivity. Qed.

(** X3: an environment built from [get_kwargs()] of another reports, in
    its own [get_kwargs()], the same name, [_read_from_local_dir] flag,
    classes and names mapping (the methods inherited from [BaseEnv] being
    calls that do not reassign them). *)
Theorem get_kwargs_round_trip (env : Environment) (b b' : bool) :
  (new_Environment (get_kwargs env b)).1 = inr tt ->
  let env' := cs_self (new_Environment (get_kwargs env b)).2 in
  forall k,
    k ∈ ["name"; "_read_from_local_dir"; "actionClass"; "observationClass";
         "rewardClass"; "legalActClass"; "names_chronics_to_backend"] ->
    get_kwargs env' b' !! k = get_kwargs env b !! k.
Proof.
  intros Hok env' k Hk.
  pose proof (constructor_stores_arguments _ Hok) as Hst. cbv zeta in Hst.
  fold env' in Hst.
  destruct Hst as (Hname & Hlocal & HaC & HoC & HrC & HlC & Hnames & _).
  destruct (get_kwargs_lookup env b) as (K1 & K2 & K3 & K4 & K5 & K6 & K7 & _).
  destruct (get_kwargs_lookup env' b') as (K1' & K2' & K3' & K4' & K5' & K6' & K7' & _).
  rewrite (arg_lookup _ _ _ _ K2) in Hlocal.
  rewrite (arg_lookup _ _ _ _ K3) in HaC.
  rewrite (arg_lookup _ _ _ _ K4) in HoC.
  rewrite (arg_lookup _ _ _ _ K5) in HrC.
  rewrite (arg_lookup _ _ _ _ K6) in HlC.
  rewrite (arg_lookup _ _ _ _ K7) in Hnames.
  specialize (Hname (name env) (arg_lookup _ _ _ _ K1)).
  repeat (apply elem_of_cons in Hk as [-> | Hk]); [.. | apply elem_of_nil in Hk; contradiction].
  - rewrite K1', K1, Hname. reflexivity.
  - rewrite K2', K2, Hlocal. reflexivity.
  - rewrite K3', K3, HaC. reflexivity.
  - rewrite K4', K4, HoC. reflexivity.
  - rewrite K5', K5, HrC. reflexivity.
  - rewrite K6', K6, HlC. reflexivity.
  - rewrite K7', K7, Hnames. reflexivity.
Qed.

(** X4: [get_kwargs] does not hand over the compatibility version: an
    environment built from its result has [_compat_glop_version] set to
    [None], whatever the version of the first one (the methods inherited
    from [BaseEnv] being calls that do not reassign it). *)
Theorem get_kwargs_drops_compat_version (env : Environment) (b : bool) :
  (new_Environment (get_kwargs env b)).1 = inr tt ->
  get_kwargs env b !! "_compat_glop_version" = None
  /\ getattr (cs_self (new_Environment (get_kwargs env b)).2) "_compat_glop_version"
     = PyNone.
Proof.
  intros Hok.
  destruct (get_kwargs_lookup env b) as (_ & _ & _ & _ & _ & _ & _ & K).
  split; [exact K |].
  pose proof (constructor_stores_arguments _ Hok) as Hst. cbv zeta in Hst.
  destruct Hst as (_ & _ & _ & _ & _ & _ & _ & H).
  rewrite H. unfold arg. rewrite K. reflexivity.
Qed.

End ConstructorStores.

(** ** Environment._handle_compat_glop_version *)

(** *** Taking entries out of a numbering *)

Section Compaction.

Lemma dt_int_small x : - 2 ^ 31 <= x < 2 ^ 31 -> dt_int x = x.
Proof. intros H. unfold dt_int. rewrite Z.mod_small by lia. lia. Qed.

Lemma length_filter_le {A} (P : A -> Prop) `{!forall x, Decision (P x)} (l : list A) :
  (length (filter P l) <= length l)%nat.
Proof.
  induction l as [|x l IH]; [reflexivity |].
  rewrite filter_cons. case_decide; simpl; lia.
Qed.

Lemma length_filter_all {A} (P : A -> Prop) `{!forall x, Decision (P x)} (l : list A) :
  Forall P l -> length (filter P l) = length l.
Proof.
  induction 1 as [|x l Hx _ IH]; [reflexivity |].
  rewrite filter_cons_True by exact Hx. simpl. lia.
Qed.

Lemma length_filter_none {A} (P : A -> Prop) `{!forall x, Decision (P x)} (l : list A) :
  Forall (fun x => ~ P x) l -> length (filter P l) = 0%nat.
Proof.
  induction 1 as [|x l Hx _ IH]; [reflexivity |].
  rewrite filter_cons_False by exact Hx. exact IH.
Qed.

(** A list of distinct integers of an interval is no longer than the
    interval. *)
Lemma NoDup_interval_length (l : list Z) a b :
  NoDup l -> Forall (fun x => a <= x < b) l -> a <= b ->
  Z.of_nat (length l) <= b - a.
Proof.
  intros Hnd Hl Hab.
  assert (Hsub : l ⊆+ seqZ a (b - a)).
  { apply NoDup_submseteq; [exact Hnd |]. intros x Hx.
    rewrite Forall_forall in Hl. apply elem_of_seqZ. specialize (Hl x Hx). lia. }
  apply submseteq_length in Hsub. rewrite length_seqZ in Hsub. lia.
Qed.

Lemma below_bounds (p : Z) (l : list Z) : 0 <= below p l <= Z.of_nat (length l).
Proof. unfold below. pose proof (length_filter_le (fun s => s < p) l). lia. Qed.

Lemma below_Permutation p l k : l ≡ₚ k -> below p l = below p k.
Proof. intros H. unfold below. rewrite H. reflexivity. Qed.

Lemma below_cons p s l :
  below p (s :: l) = (if bool_decide (s < p) then 1 else 0) + below p l.
Proof.
  unfold below. rewrite filter_cons. case_decide.
  - rewrite bool_decide_eq_true_2 by assumption. simpl length. lia.
  - rewrite bool_decide_eq_false_2 by assumption. lia.
Qed.

(** Between two positions, the distinct entries of [l] that lie strictly
    between them are fewer than the gap. *)
Lemma below_gap (l : list Z) p q :
  NoDup l -> p ∉ l -> p < q -> below q l - below p l <= q - p - 1.
Proof.
  intros Hnd Hp Hpq.
  assert (Hsplit : below q l - below p l
                   = Z.of_nat (length (filter (fun s => p < s < q) l))).
  { clear Hnd. induction l as [|s l IH]; [reflexivity |].
    apply not_elem_of_cons in Hp as [Hne Hp]. specialize (IH Hp).
    rewrite !below_cons, filter_cons.
    repeat case_bool_decide; case_decide; simpl length; lia. }
  rewrite Hsplit.
  pose proof (NoDup_interval_length (filter (fun s => p < s < q) l) (p + 1) q) as H.
  assert (Hf : Forall (fun x => p + 1 <= x < q) (filter (fun s => p < s < q) l)).
  { apply Forall_forall. intros x Hx. apply list_elem_of_filter in Hx as [Hx _]. lia. }
  specialize (H (NoDup_filter _ _ Hnd) Hf). lia.
Qed.

Lemma below_le_pos (l : list Z) p :
  NoDup l -> Forall (fun s => 0 <= s) l -> 0 <= p -> below p l <= p.
Proof.
  intros Hnd Hl Hp. unfold below.
  pose proof (NoDup_interval_length (filter (fun s => s < p) l) 0 p) as H.
  assert (Hf : Forall (fun x => 0 <= x < p) (filter (fun s => s < p) l)).
  { apply Forall_forall. intros x Hx. apply list_elem_of_filter in Hx as [Hx Hin].
    rewrite Forall_forall in Hl. specialize (Hl x Hin). lia. }
  specialize (H (NoDup_filter _ _ Hnd) Hf). lia.
Qed.

(** The entries above a position that is not an entry. *)
Lemma above_count (l : list Z) p D :
  NoDup l -> p ∉ l -> Forall (fun s => s < D) l -> p < D ->
  Z.of_nat (length l) - below p l <= D - p - 1.
Proof.
  intros Hnd Hp Hl HpD.
  assert (Hsplit : Z.of_nat (length l) - below p l
                   = Z.of_nat (length (filter (fun s => p < s) l))).
  { clear Hnd Hl. induction l as [|s l IH]; [reflexivity |].
    apply not_elem_of_cons in Hp as [Hne Hp]. specialize (IH Hp).
    rewrite below_cons, filter_cons.
    case_bool_decide; case_decide; simpl length; lia. }
  rewrite Hsplit.
  pose proof (NoDup_interval_length (filter (fun s => p < s) l) (p + 1) D) as H.
  assert (Hf : Forall (fun x => p + 1 <= x < D) (filter (fun s => p < s) l)).
  { apply Forall_forall. intros x Hx. apply list_elem_of_filter in Hx as [Hx Hin].
    rewrite Forall_forall in Hl. specialize (Hl x Hin). lia. }
  specialize (H (NoDup_filter _ _ Hnd) Hf). lia.
Qed.

#[local] Instance Zge_total : Total Z.ge.
Proof. intros x y. lia. Qed.
#[local] Instance Zge_trans : Transitive Z.ge.
Proof. intros x y z. lia. Qed.

Lemma sorted_reverse_Permutation l : sorted_reverse l ≡ₚ l.
Proof. apply merge_sort_Permutation. Qed.

Lemma sorted_reverse_strict l :
  NoDup l -> StronglySorted Z.gt (sorted_reverse l).
Proof.
  intros Hnd.
  assert (Hnd' : NoDup (sorted_reverse l)) by (rewrite sorted_reverse_Permutation; exact Hnd).
  pose proof (StronglySorted_merge_sort Z.ge l) as Hs. fold (sorted_reverse l) in Hs.
  induction Hs as [|x k Hk IH Hx]; [constructor |].
  apply NoDup_cons in Hnd' as [Hxk Hnd']. constructor; [apply IH, Hnd' |].
  rewrite Forall_forall in Hx |- *. intros y Hy. specialize (Hx y Hy).
  assert (x <> y) by (intros ->; contradiction). lia.
Qed.

(** The loop over a strictly decreasing list of locations. *)
Lemma shift_loop (l : list Z) (p : Z) :
  StronglySorted Z.gt l -> p ∉ l -> Forall (fun s => 0 <= s) l -> p < 2 ^ 31 ->
  foldl (fun v stor_loc => if bool_decide (stor_loc <= v) then dt_int (v - 1) else v) p l
  = p - below p l.
Proof.
  intros Hs. revert p. induction Hs as [|s l Hl IH Hsl]; intros p Hp Hpos Hmax.
  - unfold below. simpl. lia.
  - apply not_elem_of_cons in Hp as [Hne Hp].
    apply Forall_cons in Hpos as [Hs0 Hpos].
    simpl foldl. rewrite below_cons. case_bool_decide as Hsp.
    + rewrite dt_int_small by lia.
      rewrite bool_decide_eq_true_2 by lia.
      assert (Hall : Forall (fun t => t < p - 1) l).
      { rewrite Forall_forall in Hsl |- *. intros t Ht. specialize (Hsl t Ht). lia. }
      rewrite IH; [| | exact Hpos | lia].
      * assert (below (p - 1) l = Z.of_nat (length l)) as ->.
        { unfold below. rewrite length_filter_all by exact Hall. reflexivity. }
        assert (below p l = Z.of_nat (length l)) as ->.
        { unfold below. rewrite length_filter_all; [reflexivity |].
          eapply Forall_impl; [exact Hall |]. simpl. intros; lia. }
        lia.
      * intros Hin. rewrite Forall_forall in Hall. specialize (Hall _ Hin). lia.
    + rewrite bool_decide_eq_false_2 by lia. rewrite IH by assumption. lia.
Qed.

Lemma compact_spec (stor_locs : list Z) (p : Z) :
  NoDup stor_locs -> p ∉ stor_locs -> Forall (fun s => 0 <= s) stor_locs ->
  p < 2 ^ 31 ->
  compact stor_locs p = p - below p stor_locs.
Proof.
  intros Hnd Hp Hpos Hmax. unfold compact.
  rewrite shift_loop.
  - rewrite (below_Permutation _ _ _ (sorted_reverse_Permutation stor_locs)). reflexivity.
  - apply sorted_reverse_strict, Hnd.
  - rewrite sorted_reverse_Permutation. exact Hp.
  - rewrite sorted_reverse_Permutation. exact Hpos.
  - exact Hmax.
Qed.

(** Taking the storage units out of a numbering [0 .. D-1] leaves a numbering
    [0 .. D-1-n] of the other elements. *)
Lemma compact_Permutation (l stor_locs : list Z) (D : Z) :
  l ++ stor_locs ≡ₚ seqZ 0 D -> D <= 2 ^ 31 ->
  compact stor_locs <$> l ≡ₚ seqZ 0 (D - Z.of_nat (length stor_locs)).
Proof.
  intros Hperm HD.
  assert (Hnd : NoDup (l ++ stor_locs)) by (rewrite Hperm; apply NoDup_seqZ).
  apply NoDup_app in Hnd as (Hndl & Hdisj & Hnds).
  assert (Hrange : forall x, x ∈ l ++ stor_locs -> 0 <= x < D).
  { intros x Hx. rewrite Hperm in Hx. apply elem_of_seqZ in Hx. lia. }
  assert (Hpos : Forall (fun s => 0 <= s) stor_locs).
  { apply Forall_forall. intros x Hx. apply (Hrange x), elem_of_app. right; exact Hx. }
  assert (HltD : Forall (fun s => s < D) stor_locs).
  { apply Forall_forall. intros x Hx. apply (Hrange x), elem_of_app. right; exact Hx. }
  assert (Hspec : forall p, p ∈ l -> compact stor_locs p = p - below p stor_locs).
  { intros p Hp. apply compact_spec; [exact Hnds | apply Hdisj, Hp | exact Hpos |].
    assert (0 <= p < D) by (apply Hrange, elem_of_app; left; exact Hp). lia. }
  assert (Hlen : Z.of_nat (length l) + Z.of_nat (length stor_locs) = D
                 \/ (D < 0 /\ length l = 0%nat /\ length stor_locs = 0%nat)).
  { apply Permutation_length in Hperm. rewrite length_app, length_seqZ in Hperm. lia. }
  apply submseteq_length_Permutation.
  - apply NoDup_submseteq.
    + apply NoDup_fmap_2_strong; [| exact Hndl].
      intros p q Hp Hq Heq. rewrite (Hspec p Hp), (Hspec q Hq) in Heq.
      destruct (Z.lt_trichotomy p q) as [Hlt | [Heq' | Hgt]]; [| exact Heq' |].
      * pose proof (below_gap stor_locs p q Hnds (Hdisj p Hp) Hlt). lia.
      * pose proof (below_gap stor_locs q p Hnds (Hdisj q Hq) Hgt). lia.
    + intros y Hy. apply list_elem_of_fmap in Hy as (p & -> & Hp).
      rewrite (Hspec p Hp). apply elem_of_seqZ.
      assert (Hp' : 0 <= p < D) by (apply Hrange, elem_of_app; left; exact Hp).
      pose proof (below_le_pos stor_locs p Hnds Hpos ltac:(lia)).
      pose proof (above_count stor_locs p D Hnds (Hdisj p Hp) HltD ltac:(lia)).
      lia.
  - rewrite length_seqZ, length_fmap. lia.
Qed.

End Compaction.

(** *** The loops of the method *)

Section CompatLoops.

Lemma for_each_app {A B} (body : A -> B -> Exc + A) (a : A) (l k : list B) :
  for_each body a (l ++ k)
  = match for_each body a l with
    | inl e => inl e
    | inr a' => for_each body a' k
    end.
Proof.
  revert a. induction l as [|x l IH]; intros a; simpl; [reflexivity |].
  destruct (body a x); [reflexivity | apply IH].
Qed.

Lemma zip_with_const_l {A B} (l : list A) (k : list B) :
  length l = length k -> zip_with (fun x _ => x) l k = l.
Proof.
  revert k. induction l as [|x l IH]; intros [|y k] Hlen; simpl in *;
    try reflexivity; try discriminate.
  f_equal. apply IH. lia.
Qed.

Lemma zip_with_zip_with_l {A B} (f g : A -> B -> A) (l : list A) (k : list B) :
  zip_with f (zip_with g l k) k = zip_with (fun x y => f (g x y) y) l k.
Proof.
  revert k. induction l as [|x l IH]; intros [|y k]; simpl; try reflexivity.
  f_equal. apply IH.
Qed.

Lemma quad_ext {E A} (a a' b b' c c' d d' : A) :
  a = a' -> b = b' -> c = c' -> d = d' ->
  @inr E _ (a, b, c, d) = inr (a', b', c', d').
Proof. congruence. Qed.

(** *** The first loop *)

Lemma shift_from_loop (l : list Z) (vect : list Z) :
  foldl (fun vect stor_loc => shift_from stor_loc vect) vect l
  = (fun p => foldl (fun v stor_loc =>
               if bool_decide (stor_loc <= v) then dt_int (v - 1) else v) p l)
    <$> vect.
Proof.
  revert vect. induction l as [|s l IH]; intros vect; simpl.
  - symmetry. apply list_fmap_id.
  - rewrite IH. unfold shift_from. rewrite <- list_fmap_compose. reflexivity.
Qed.

Lemma drop_storage_pos_topo_vect_spec (cls_bk : GridClass) :
  drop_storage_pos_topo_vect cls_bk
  = let f := compact (storage_pos_topo_vect cls_bk) in
    (f <$> load_pos_topo_vect cls_bk, f <$> gen_pos_topo_vect cls_bk,
     f <$> line_or_pos_topo_vect cls_bk, f <$> line_ex_pos_topo_vect cls_bk).
Proof.
  unfold drop_storage_pos_topo_vect, compact. cbv zeta.
  generalize (sorted_reverse (storage_pos_topo_vect cls_bk)) as l.
  generalize (load_pos_topo_vect cls_bk) (gen_pos_topo_vect cls_bk)
    (line_or_pos_topo_vect cls_bk) (line_ex_pos_topo_vect cls_bk).
  intros a b c d l. revert a b c d.
  induction l as [|s l IH]; intros a b c d; simpl.
  - rewrite !list_fmap_id. reflexivity.
  - rewrite IH. unfold shift_from. rewrite <- !list_fmap_compose. reflexivity.
Qed.

(** *** The second loop *)

Lemma take_ids_where (a b : list Z) (x : Z) :
  length a = length b ->
  take_ids a (np_where_eq b x) = inr (of_sub x a b).
Proof.
  intros Hlen. unfold take_ids, np_where_eq, of_sub.
  enough (H : forall pre,
            mapM (fun i => (pre ++ a) !! i)
              (filter (fun ia : nat * Z => ia.2 = x)
                 (zip (seq (length pre) (length b)) b)).*1
            = Some (filter (fun ps : Z * Z => ps.2 = x) (zip a b)).*1).
  { specialize (H []). simpl in H. rewrite H. reflexivity. }
  revert a Hlen. induction b as [|y b IH]; intros [|z a] Hlen pre;
    simpl in *; try discriminate; [reflexivity |].
  rewrite !filter_cons. simpl.
  assert (Hrest : mapM (fun i => (pre ++ z :: a) !! i)
            (filter (fun ia : nat * Z => ia.2 = x)
               (zip (seq (S (length pre)) (length b)) b)).*1
          = Some (filter (fun ps : Z * Z => ps.2 = x) (zip a b)).*1).
  { specialize (IH a ltac:(lia) (pre ++ [z])).
    rewrite length_app, <- app_assoc in IH. simpl in IH.
    replace (length pre + 1)%nat with (S (length pre)) in IH by lia. exact IH. }
  case_decide; simpl.
  - rewrite list_lookup_middle by reflexivity. simpl.
    unfold fmap in Hrest. rewrite Hrest. reflexivity.
  - exact Hrest.
Qed.

Lemma of_sub_nil (x : Z) (a b : list Z) :
  existsb (fun s => s =? x) b = false -> of_sub x a b = [].
Proof.
  unfold of_sub. revert a. induction b as [|y b IH]; intros [|z a] H; simpl in *;
    try reflexivity.
  apply orb_false_iff in H as [Hy Hb]. rewrite filter_cons.
  rewrite decide_False by (simpl; lia). apply IH, Hb.
Qed.

Section OneSubstation.
Context (cls_bk : GridClass) (sub_id : Z).

Let sh (stor_loc v s : Z) : Z :=
  if bool_decide (stor_loc <= v) && bool_decide (s = sub_id) then dt_int (v - 1) else v.

Lemma shift_from_in_same_length stor_loc (vect sub_id_me : list Z) :
  length vect = length sub_id_me ->
  shift_from_in stor_loc sub_id vect sub_id_me
  = inr (zip_with (sh stor_loc) vect sub_id_me).
Proof.
  intros Hlen. unfold shift_from_in. rewrite bool_decide_eq_true_2 by exact Hlen.
  reflexivity.
Qed.

Lemma sh_loop (l : list Z) (v s : Z) :
  foldl (fun v stor_loc => sh stor_loc v s) v l
  = if bool_decide (s = sub_id)
    then foldl (fun v stor_loc =>
                  if bool_decide (stor_loc <= v) then dt_int (v - 1) else v) v l
    else v.
Proof.
  revert v. induction l as [|x l IH]; intros v; simpl.
  - case_bool_decide; reflexivity.
  - rewrite IH. unfold sh. case_bool_decide.
    + rewrite andb_true_r. reflexivity.
    + rewrite andb_false_r. reflexivity.
Qed.

Lemma inner_loop (l a b c d : list Z) :
  length a = length (load_to_subid cls_bk) ->
  length b = length (gen_to_subid cls_bk) ->
  length c = length (line_or_to_subid cls_bk) ->
  length d = length (line_ex_to_subid cls_bk) ->
  for_each (fun '(load, gen, line_or, line_ex) stor_loc =>
      match shift_from_in stor_loc sub_id load (load_to_subid cls_bk) with
      | inl e => inl e
      | inr load =>
      match shift_from_in stor_loc sub_id gen (gen_to_subid cls_bk) with
      | inl e => inl e
      | inr gen =>
      match shift_from_in stor_loc sub_id line_or (line_or_to_subid cls_bk) with
      | inl e => inl e
      | inr line_or =>
      match shift_from_in stor_loc sub_id line_ex (line_ex_to_subid cls_bk) with
      | inl e => inl e
      | inr line_ex => inr (load, gen, line_or, line_ex)
      end end end end)
    (a, b, c, d) l
  = let f v s := foldl (fun v stor_loc => sh stor_loc v s) v l in
    inr (zip_with f a (load_to_subid cls_bk), zip_with f b (gen_to_subid cls_bk),
         zip_with f c (line_or_to_subid cls_bk),
         zip_with f d (line_ex_to_subid cls_bk)).
Proof.
  revert a b c d. induction l as [|x l IH]; intros a b c d Ha Hb Hc Hd; simpl.
  - rewrite !zip_with_const_l by assumption. reflexivity.
  - rewrite !shift_from_in_same_length by assumption. cbv beta iota zeta.
    rewrite IH by (rewrite length_zip_with_l_eq; assumption).
    cbv zeta. rewrite !zip_with_zip_with_l. reflexivity.
Qed.

Lemma drop_storage_sub_pos_spec (a b c d : list Z) :
  length (storage_to_sub_pos cls_bk) = length (storage_to_subid cls_bk) ->
  length a = length (load_to_subid cls_bk) ->
  length b = length (gen_to_subid cls_bk) ->
  length c = length (line_or_to_subid cls_bk) ->
  length d = length (line_ex_to_subid cls_bk) ->
  drop_storage_sub_pos cls_bk (a, b, c, d) sub_id
  = let f v s := if bool_decide (s = sub_id)
                 then compact (storage_of_sub cls_bk sub_id) v else v in
    inr (zip_with f a (load_to_subid cls_bk), zip_with f b (gen_to_subid cls_bk),
         zip_with f c (line_or_to_subid cls_bk),
         zip_with f d (line_ex_to_subid cls_bk)).
Proof.
  intros Hs Ha Hb Hc Hd. unfold drop_storage_sub_pos. cbv zeta.
  destruct (existsb _ _) eqn:Hany.
  - rewrite take_ids_where by exact Hs.
    rewrite inner_loop by assumption. cbv zeta.
    apply quad_ext; apply zip_with_ext; try reflexivity; intros v s; apply sh_loop.
  - unfold storage_of_sub. rewrite (of_sub_nil _ _ _ Hany).
    assert (Hid : forall (l k : list Z), length l = length k ->
              zip_with (fun v s => if bool_decide (s = sub_id) then compact [] v else v) l k = l).
    { intros l k Hlk. rewrite <- (zip_with_const_l l k Hlk) at 2.
      apply zip_with_ext; try reflexivity. intros v s. case_bool_decide; reflexivity. }
    rewrite !Hid by assumption. reflexivity.
Qed.

End OneSubstation.

Lemma sub_loop_pointwise (cls_bk : GridClass) (v s : Z) (k : nat) :
  foldl (fun v sub_id => if bool_decide (s = sub_id)
                         then compact (storage_of_sub cls_bk sub_id) v else v)
    v (seqZ 0 (Z.of_nat k))
  = if bool_decide (0 <= s < Z.of_nat k)
    then compact (storage_of_sub cls_bk s) v else v.
Proof.
  induction k as [|k IH].
  - simpl. rewrite bool_decide_eq_false_2 by lia. reflexivity.
  - rewrite seqZ_S, foldl_app, IH. simpl.
    repeat case_bool_decide; subst; try lia; reflexivity.
Qed.

Lemma outer_loop (cls_bk : GridClass) (subs : list Z) (a b c d : list Z) :
  length (storage_to_sub_pos cls_bk) = length (storage_to_subid cls_bk) ->
  length a = length (load_to_subid cls_bk) ->
  length b = length (gen_to_subid cls_bk) ->
  length c = length (line_or_to_subid cls_bk) ->
  length d = length (line_ex_to_subid cls_bk) ->
  for_each (drop_storage_sub_pos cls_bk) (a, b, c, d) subs
  = let f v s :=
      foldl (fun v sub_id => if bool_decide (s = sub_id)
                             then compact (storage_of_sub cls_bk sub_id) v else v)
        v subs in
    inr (zip_with f a (load_to_subid cls_bk), zip_with f b (gen_to_subid cls_bk),
         zip_with f c (line_or_to_subid cls_bk),
         zip_with f d (line_ex_to_subid cls_bk)).
Proof.
  intros Hs. revert a b c d.
  induction subs as [|x subs IH]; intros a b c d Ha Hb Hc Hd; simpl.
  - rewrite !zip_with_const_l by assumption. reflexivity.
  - rewrite drop_storage_sub_pos_spec by assumption. cbv beta iota zeta.
    rewrite IH by (rewrite length_zip_with_l_eq; assumption).
    cbv zeta. rewrite !zip_with_zip_with_l. reflexivity.
Qed.

Lemma sub_pos_loop (cls_bk : GridClass) :
  well_shaped cls_bk ->
  for_each (drop_storage_sub_pos cls_bk)
    (load_to_sub_pos cls_bk, gen_to_sub_pos cls_bk,
     line_or_to_sub_pos cls_bk, line_ex_to_sub_pos cls_bk)
    (seqZ 0 (n_sub cls_bk))
  = inr (zip_with (compact_in cls_bk) (load_to_sub_pos cls_bk) (load_to_subid cls_bk),
         zip_with (compact_in cls_bk) (gen_to_sub_pos cls_bk) (gen_to_subid cls_bk),
         zip_with (compact_in cls_bk) (line_or_to_sub_pos cls_bk) (line_or_to_subid cls_bk),
         zip_with (compact_in cls_bk) (line_ex_to_sub_pos cls_bk) (line_ex_to_subid cls_bk)).
Proof.
  intros (Ha & Hb & Hc & Hd & Hs & _).
  rewrite outer_loop by assumption. cbv zeta.
  assert (Hpt : forall v s,
            foldl (fun v sub_id => if bool_decide (s = sub_id)
                                   then compact (storage_of_sub cls_bk sub_id) v else v)
              v (seqZ 0 (n_sub cls_bk))
            = compact_in cls_bk v s).
  { intros v s. unfold compact_in.
    destruct (Z.le_gt_cases 0 (n_sub cls_bk)) as [Hn | Hn].
    - rewrite <- (Z2Nat.id (n_sub cls_bk)) at 1 by exact Hn.
      rewrite sub_loop_pointwise. rewrite Z2Nat.id by exact Hn. reflexivity.
    - rewrite seqZ_nil by lia. simpl. rewrite bool_decide_eq_false_2 by lia. reflexivity. }
  apply quad_ext; apply zip_with_ext; try reflexivity; apply Hpt.
Qed.

(** *** The third loop *)

Lemma sub_info_loop (cls_bk : GridClass) (info : list Z) (k : nat) :
  (k <= length info)%nat ->
  for_each (drop_storage_sub_info cls_bk) info (seqZ 0 (Z.of_nat k))
  = inr (imap (fun i n => dt_int (n - np_count_eq (storage_to_subid cls_bk) (Z.of_nat i)))
           (take k info) ++ drop k info).
Proof.
  induction k as [|k IH]; intros Hk.
  - simpl. rewrite drop_0. reflexivity.
  - rewrite seqZ_S, for_each_app, IH by lia. simpl.
    destruct (lookup_lt_is_Some_2 info k ltac:(lia)) as [n Hn].
    unfold drop_storage_sub_info.
    assert (Hlen : length (imap (fun i n => dt_int (n - np_count_eq (storage_to_subid cls_bk) (Z.of_nat i)))
                     (take k info)) = k).
    { rewrite length_imap, length_take. lia. }
    rewrite Z.add_0_l, Nat2Z.id.
    rewrite lookup_app_r by lia. rewrite Hlen, Nat.sub_diag, lookup_drop, Nat.add_0_r, Hn.
    rewrite insert_app_r_alt by lia. rewrite Hlen, Nat.sub_diag.
    rewrite (drop_S _ _ _ Hn). simpl.
    rewrite (take_S_r _ _ _ Hn), imap_app. simpl.
    rewrite length_take, Nat.min_l by lia. rewrite Nat.add_0_r.
    rewrite <- app_assoc. reflexivity.
Qed.

Lemma sub_info_loop_all (cls_bk : GridClass) :
  length (sub_info cls_bk) = Z.to_nat (n_sub cls_bk) ->
  for_each (drop_storage_sub_info cls_bk) (sub_info cls_bk) (seqZ 0 (n_sub cls_bk))
  = inr (imap (fun i n => dt_int (n - np_count_eq (storage_to_subid cls_bk) (Z.of_nat i)))
           (sub_info cls_bk)).
Proof.
  intros Hlen.
  destruct (Z.le_gt_cases 0 (n_sub cls_bk)) as [Hn | Hn].
  - rewrite <- (Z2Nat.id (n_sub cls_bk)) at 1 by exact Hn.
    rewrite sub_info_loop by lia.
    rewrite <- Hlen, firstn_all, drop_all, app_nil_r. reflexivity.
  - rewrite seqZ_nil by lia. simpl.
    destruct (sub_info cls_bk); [reflexivity | simpl in Hlen; lia].
Qed.

End CompatLoops.

(** *** What the method keeps *)

Section CompatProperties.
Context {CE : CompatExternals}.

Lemma np_repeat_spec (a repeats : list Z) :
  length repeats = length a -> Forall (fun r => 0 <= r) repeats ->
  np_repeat a repeats
  = inr (mjoin (zip_with (fun x r => replicate (Z.to_nat r) x) a repeats)).
Proof.
  intros Hlen Hpos. unfold np_repeat.
  assert (Hneg : existsb (fun r => r <? 0) repeats = false).
  { clear Hlen. induction Hpos as [|r l Hr _ IH]; [reflexivity |].
    simpl. rewrite IH. rewrite orb_false_r. lia. }
  destruct repeats as [|r [|r' rs]].
  - rewrite bool_decide_eq_true_2 by exact Hlen. reflexivity.
  - destruct a as [|x [|? ?]]; try discriminate Hlen.
    simpl in Hneg. rewrite orb_false_r in Hneg. rewrite Hneg. reflexivity.
  - rewrite bool_decide_eq_true_2 by exact Hlen. simpl negb. cbv iota.
    rewrite Hneg. reflexivity.
Qed.

Lemma count_of_sub (a b : list Z) (x : Z) :
  length a = length b ->
  np_count_eq b x = Z.of_nat (length (of_sub x a b)).
Proof.
  unfold np_count_eq, of_sub. rewrite length_fmap.
  revert a. induction b as [|y b IH]; intros [|z a] Hlen; simpl in *;
    try discriminate; [reflexivity |].
  specialize (IH a ltac:(lia)). rewrite !filter_cons. simpl.
  repeat case_decide; try contradiction; simpl; lia.
Qed.

Lemma of_sub_zip_with (f : Z -> Z -> Z) (x : Z) (a b : list Z) :
  of_sub x (zip_with f a b) b = (fun p => f p x) <$> of_sub x a b.
Proof.
  unfold of_sub. revert b. induction a as [|z a IH]; intros [|y b]; simpl;
    try reflexivity.
  rewrite !filter_cons. simpl. case_decide; simpl.
  - subst. f_equal. apply IH.
  - apply IH.
Qed.

(** The number of elements left in a substation. *)
Lemma sub_info_left (cls_bk : GridClass) (i : nat) (n : Z) :
  well_shaped cls_bk -> valid_sub_pos cls_bk ->
  sub_info cls_bk !! i = Some n ->
  dt_int (n - np_count_eq (storage_to_subid cls_bk) (Z.of_nat i))
  = n - Z.of_nat (length (storage_of_sub cls_bk (Z.of_nat i)))
  /\ 0 <= n - Z.of_nat (length (storage_of_sub cls_bk (Z.of_nat i))).
Proof.
  intros (_ & _ & _ & _ & Hs & _) Hvalid Hn.
  destruct (Hvalid i n Hn) as [Hmax Hperm].
  rewrite (count_of_sub (storage_to_sub_pos cls_bk)) by exact Hs.
  fold (storage_of_sub cls_bk (Z.of_nat i)).
  apply Permutation_length in Hperm. rewrite length_app, length_seqZ in Hperm.
  assert (Z.of_nat (length (storage_of_sub cls_bk (Z.of_nat i))) <= n) by lia.
  rewrite dt_int_small by lia. lia.
Qed.

(** What the first part of the branch makes of the description of a
    consistent grid. *)
Lemma compat_returns (v : string) (cls_bk : GridClass) :
  well_shaped cls_bk -> valid_sub_pos cls_bk ->
  drop_storage v cls_bk
  = let f := compact (storage_pos_topo_vect cls_bk) in
    let info :=
      imap (fun i n => n - Z.of_nat (length (storage_of_sub cls_bk (Z.of_nat i))))
        (sub_info cls_bk) in
    inr (mkGridClass v (BEFORE_COMPAT_VERSION cls_bk) (n_sub cls_bk)
           (n_storage cls_bk) (dim_topo cls_bk - n_storage cls_bk) info
           (f <$> load_pos_topo_vect cls_bk) (f <$> gen_pos_topo_vect cls_bk)
           (f <$> line_or_pos_topo_vect cls_bk) (f <$> line_ex_pos_topo_vect cls_bk)
           (storage_pos_topo_vect cls_bk)
           (zip_with (compact_in cls_bk) (load_to_sub_pos cls_bk) (load_to_subid cls_bk))
           (zip_with (compact_in cls_bk) (gen_to_sub_pos cls_bk) (gen_to_subid cls_bk))
           (zip_with (compact_in cls_bk) (line_or_to_sub_pos cls_bk)
              (line_or_to_subid cls_bk))
           (zip_with (compact_in cls_bk) (line_ex_to_sub_pos cls_bk)
              (line_ex_to_subid cls_bk))
           (storage_to_sub_pos cls_bk)
           (load_to_subid cls_bk) (gen_to_subid cls_bk)
           (line_or_to_subid cls_bk) (line_ex_to_subid cls_bk)
           (storage_to_subid cls_bk)
           (mjoin (zip_with (fun x r => replicate (Z.to_nat r) x)
                     (seqZ 0 (n_sub cls_bk)) info))
           (mkMatrix (m_cols (grid_objects_types cls_bk))
              (filter (fun row : list Z => row !! STORAGE_COL cls_bk = Some (-1))
                 (m_rows (grid_objects_types cls_bk))))
           (STORAGE_COL cls_bk)).
Proof.
  intros Hshape Hvalid. unfold drop_storage.
  rewrite drop_storage_pos_topo_vect_spec. cbv zeta.
  rewrite sub_pos_loop by exact Hshape.
  pose proof Hshape as (_ & _ & _ & _ & _ & Hlen & Hcol).
  rewrite sub_info_loop_all by exact Hlen.
  assert (Hinfo : imap (fun i n => dt_int (n - np_count_eq (storage_to_subid cls_bk)
                                              (Z.of_nat i))) (sub_info cls_bk)
                  = imap (fun i n => n - Z.of_nat (length (storage_of_sub cls_bk
                                                            (Z.of_nat i))))
                      (sub_info cls_bk)).
  { apply list_eq. intros i. rewrite !list_lookup_imap.
    destruct (sub_info cls_bk !! i) as [n|] eqn:Hn; [| reflexivity]. simpl.
    f_equal. apply (sub_info_left cls_bk i n Hshape Hvalid Hn). }
  rewrite Hinfo. rewrite np_repeat_spec.
  - unfold rows_without. rewrite bool_decide_eq_true_2 by exact Hcol. reflexivity.
  - rewrite length_imap, length_seqZ. exact Hlen.
  - apply Forall_forall. intros r Hr.
    apply list_elem_of_lookup in Hr as [i Hi]. rewrite list_lookup_imap in Hi.
    destruct (sub_info cls_bk !! i) as [n|] eqn:Hn; [| discriminate].
    simpl in Hi. injection Hi as <-.
    apply (sub_info_left cls_bk i n Hshape Hvalid Hn).
Qed.

(** For the oldest version, once the warning is given and the backend
    named, the method is its first part followed by its end. *)
Lemma compat_oldest (version v : string) (s s1 : CompatState) :
  warnings_warn = None -> backend_set_env_name s = inr s1 ->
  applies version v (type_backend s1) ->
  _handle_compat_glop_version version (Some v) s
  = and_then (drop_storage v (type_backend s1))
      (fun cls_bk' =>
         erase_storage (grid_objects_types cls_bk')
           (store_class cls_bk' (bind_cls_bk s1))).
Proof.
  intros Hwarn Hname [Hne Heq]. unfold _handle_compat_glop_version.
  rewrite bool_decide_eq_false_2 by exact Hne. rewrite Hwarn, Hname.
  cbn [and_then]. rewrite bool_decide_eq_true_2 by exact Heq. reflexivity.
Qed.

(** When the end of the branch returns, the class of the backend holds the
    table that the first part has computed. *)
Lemma erase_storage_types (types : Matrix) (s s' : CompatState) :
  erase_storage types s = inr s' ->
  grid_objects_types (type_backend s') = types.
Proof.
  unfold erase_storage, and_then.
  destruct (cls_bk_set_no_storage s) as [e|s2]; [discriminate |].
  destruct (Environment_deactivate_storage s2) as [e|s3]; [discriminate |].
  destruct (backend_storage_deact_for_backward_comaptibility s3) as [e|s4];
    [discriminate |].
  destruct (backend_assert_grid_correct s4) as [e|s5]; [discriminate |].
  destruct (np_repeat _ _) as [e|tv]; [discriminate |].
  destruct (st_type_backend s5) as [c|] eqn:Hc; intros [= <-];
    unfold type_backend; reflexivity.
Qed.

(** X5: for the oldest version, on the description of a consistent grid,
    the method reaches [set_no_storage()] with a class in which the
    positions in the topology vector still number the elements once the
    storage units are gone: they are the integers below the new [dim_topo],
    each of them once. *)
Theorem compat_pos_topo_vect (version v : string) (s s1 : CompatState) :
  warnings_warn = None -> backend_set_env_name s = inr s1 ->
  let cls_bk := type_backend s1 in
  applies version v cls_bk -> consistent cls_bk ->
  exists cls_bk',
    _handle_compat_glop_version version (Some v) s
    = erase_storage (grid_objects_types cls_bk') (store_class cls_bk' (bind_cls_bk s1))
    /\ dim_topo cls_bk' = dim_topo cls_bk - n_storage cls_bk
    /\ pos_topo_vect cls_bk' ≡ₚ seqZ 0 (dim_topo cls_bk').
Proof.
  intros Hwarn Hname cls_bk Happ (Hshape & (Hperm & Hmax & Hn) & Hsub).
  rewrite (compat_oldest _ _ _ _ Hwarn Hname Happ). fold cls_bk.
  rewrite (compat_returns _ _ Hshape Hsub). cbv zeta. cbn [and_then].
  eexists. split; [reflexivity |]. split; [reflexivity |].
  unfold pos_topo_vect at 1.
  cbn [load_pos_topo_vect gen_pos_topo_vect line_or_pos_topo_vect
       line_ex_pos_topo_vect dim_topo].
  rewrite <- !fmap_app. fold (pos_topo_vect cls_bk). rewrite Hn.
  apply compact_Permutation; assumption.
Qed.

(** X6: for the oldest version, on the description of a consistent grid,
    the method reaches [set_no_storage()] with a class in which the
    positions in every substation still number the elements of the
    substation that are left. *)
Theorem compat_sub_pos (version v : string) (s s1 : CompatState) :
  warnings_warn = None -> backend_set_env_name s = inr s1 ->
  let cls_bk := type_backend s1 in
  applies version v cls_bk -> consistent cls_bk ->
  exists cls_bk',
    _handle_compat_glop_version version (Some v) s
    = erase_storage (grid_objects_types cls_bk') (store_class cls_bk' (bind_cls_bk s1))
    /\ length (sub_info cls_bk') = length (sub_info cls_bk)
    /\ forall (i : nat) (n : Z),
         sub_info cls_bk' !! i = Some n ->
         sub_pos cls_bk' (Z.of_nat i) ≡ₚ seqZ 0 n.
Proof.
  intros Hwarn Hname cls_bk Happ (Hshape & _ & Hsub).
  rewrite (compat_oldest _ _ _ _ Hwarn Hname Happ). fold cls_bk.
  rewrite (compat_returns _ _ Hshape Hsub). cbv zeta. cbn [and_then].
  eexists. split; [reflexivity |]. cbn [sub_info]. split; [apply length_imap |].
  intros i n' Hi. rewrite list_lookup_imap in Hi.
  destruct (sub_info cls_bk !! i) as [n|] eqn:Hn; [| discriminate].
  simpl in Hi. injection Hi as <-.
  destruct (Hsub i n Hn) as [Hmax Hperm].
  unfold sub_pos at 1.
  cbn [load_to_sub_pos gen_to_sub_pos line_or_to_sub_pos line_ex_to_sub_pos
       load_to_subid gen_to_subid line_or_to_subid line_ex_to_subid].
  rewrite !of_sub_zip_with.
  assert (Hin : 0 <= Z.of_nat i < n_sub cls_bk).
  { destruct Hshape as (_ & _ & _ & _ & _ & Hlen & _).
    apply lookup_lt_Some in Hn. lia. }
  assert (Hf : forall l : list Z,
            (fun p => compact_in cls_bk p (Z.of_nat i)) <$> l
            = compact (storage_of_sub cls_bk (Z.of_nat i)) <$> l).
  { intros l. apply list_fmap_ext. intros _ p _. unfold compact_in.
    rewrite bool_decide_eq_true_2 by exact Hin. reflexivity. }
  rewrite !Hf, <- !fmap_app. fold (sub_pos cls_bk (Z.of_nat i)).
  apply compact_Permutation; [exact Hperm | lia].
Qed.

(** *** The totals *)

Lemma sum_int_app (l k : list Z) : sum_int (l ++ k) = sum_int l + sum_int k.
Proof. unfold sum_int. induction l as [|x l IH]; simpl; lia. Qed.

Lemma sum_int_imap_sub (l : list Z) (f : nat -> Z -> Z) (c : nat -> Z) :
  (forall i n, f i n = n - c i) ->
  sum_int (imap f l) = sum_int l - sum_int (c <$> seq 0 (length l)).
Proof.
  revert f c. induction l as [|x l IH]; intros f c Hf; [reflexivity |].
  rewrite imap_cons. simpl length. rewrite <- cons_seq, fmap_cons, <- fmap_S_seq.
  rewrite <- list_fmap_compose.
  unfold sum_int in *. simpl.
  rewrite (IH (f ∘ S) (c ∘ S)) by (intros i n; apply Hf). rewrite Hf. lia.
Qed.

Lemma sum_int_indicator (s : Z) (k : nat) :
  sum_int ((fun i : nat => if bool_decide (s = Z.of_nat i) then 1 else 0) <$> seq 0 k)
  = if bool_decide (0 <= s < Z.of_nat k) then 1 else 0.
Proof.
  induction k as [|k IH].
  - simpl. rewrite bool_decide_eq_false_2 by lia. reflexivity.
  - rewrite seq_S, fmap_app, sum_int_app, IH. unfold sum_int. simpl.
    repeat case_bool_decide; lia.
Qed.

Lemma sum_int_fmap_add {A} (f g : A -> Z) (l : list A) :
  sum_int ((fun x => f x + g x) <$> l) = sum_int (f <$> l) + sum_int (g <$> l).
Proof.
  induction l as [|x l IH]; [reflexivity |].
  rewrite !fmap_cons. unfold sum_int in *. cbn [foldr]. lia.
Qed.

(** Every storage unit of a substation of the grid is counted once. *)
Lemma count_total (l : list Z) (k : nat) :
  Forall (fun s => 0 <= s < Z.of_nat k) l ->
  sum_int ((fun i : nat => np_count_eq l (Z.of_nat i)) <$> seq 0 k)
  = Z.of_nat (length l).
Proof.
  induction 1 as [|s l Hs _ IH].
  - unfold np_count_eq. simpl. induction (seq 0 k); [reflexivity | simpl; exact IHl].
  - assert (Hpt : forall i : nat,
              np_count_eq (s :: l) (Z.of_nat i)
              = (if bool_decide (s = Z.of_nat i) then 1 else 0)
                + np_count_eq l (Z.of_nat i)).
    { intros i. unfold np_count_eq. rewrite filter_cons.
      case_decide; case_bool_decide; try contradiction; simpl length; lia. }
    rewrite (list_fmap_ext _ _ (seq 0 k) (fun _ i _ => Hpt i)).
    rewrite sum_int_fmap_add, sum_int_indicator, IH.
    rewrite bool_decide_eq_true_2 by exact Hs. simpl length. lia.
Qed.

Lemma length_repeat (a repeats : list Z) :
  length repeats = length a -> Forall (fun r => 0 <= r) repeats ->
  Z.of_nat (length (mjoin (zip_with (fun x r => replicate (Z.to_nat r) x) a repeats)))
  = sum_int repeats.
Proof.
  intros Hlen Hpos. revert a Hlen.
  induction Hpos as [|r l Hr _ IH]; intros [|x a] Hlen; simpl in *;
    try discriminate; [reflexivity |].
  rewrite length_app, length_replicate, Nat2Z.inj_add, IH by lia.
  unfold sum_int. simpl. lia.
Qed.

(** X7: for the oldest version, on the description of a consistent grid,
    the method reaches [set_no_storage()] with a class in which the number
    of elements per substation and the total number of elements have gone
    down together, and the map from positions to substations has the new
    total for length. *)
Theorem compat_dim_topo (version v : string) (s s1 : CompatState) :
  warnings_warn = None -> backend_set_env_name s = inr s1 ->
  let cls_bk := type_backend s1 in
  applies version v cls_bk -> consistent cls_bk ->
  Forall (fun s => 0 <= s < n_sub cls_bk) (storage_to_subid cls_bk) ->
  n_storage cls_bk = Z.of_nat (length (storage_to_subid cls_bk)) ->
  exists cls_bk',
    _handle_compat_glop_version version (Some v) s
    = erase_storage (grid_objects_types cls_bk') (store_class cls_bk' (bind_cls_bk s1))
    /\ sum_int (sub_info cls_bk') = sum_int (sub_info cls_bk) - n_storage cls_bk
    /\ Z.of_nat (length (_topo_vect_to_sub cls_bk')) = sum_int (sub_info cls_bk')
    /\ (dim_topo cls_bk = sum_int (sub_info cls_bk) ->
        dim_topo cls_bk' = sum_int (sub_info cls_bk')).
Proof.
  intros Hwarn Hname cls_bk Happ (Hshape & _ & Hsub) Hin Hn.
  rewrite (compat_oldest _ _ _ _ Hwarn Hname Happ). fold cls_bk.
  rewrite (compat_returns _ _ Hshape Hsub). cbv zeta. cbn [and_then].
  eexists. split; [reflexivity |].
  cbn [sub_info _topo_vect_to_sub dim_topo].
  pose proof Hshape as (_ & _ & _ & _ & Hs & Hlen & _).
  assert (Hsum : sum_int (imap (fun i n => n - Z.of_nat (length (storage_of_sub cls_bk
                                                                (Z.of_nat i))))
                            (sub_info cls_bk))
                 = sum_int (sub_info cls_bk) - n_storage cls_bk).
  { rewrite (sum_int_imap_sub _ _
               (fun i => np_count_eq (storage_to_subid cls_bk) (Z.of_nat i))).
    - rewrite Hlen, count_total, Hn; [reflexivity |].
      eapply Forall_impl; [exact Hin |]. simpl. intros sub Hs'.
      destruct (Z.le_gt_cases 0 (n_sub cls_bk)); [rewrite Z2Nat.id by assumption |];
        lia.
    - intros i n. rewrite (count_of_sub (storage_to_sub_pos cls_bk)) by exact Hs.
      reflexivity. }
  split; [exact Hsum |]. split.
  - apply length_repeat.
    + rewrite length_imap, length_seqZ. exact Hlen.
    + apply Forall_forall. intros r Hr.
      apply list_elem_of_lookup in Hr as [i Hi]. rewrite list_lookup_imap in Hi.
      destruct (sub_info cls_bk !! i) as [n|] eqn:Hni; [| discriminate].
      simpl in Hi. injection Hi as <-.
      apply (sub_info_left cls_bk i n Hshape Hsub Hni).
  - intros Hdim. rewrite Hsum, Hdim. reflexivity.
Qed.

(** *** The table of the elements *)

Lemma filter_lookup_kept {A} (P : A -> Prop) `{!forall x, Decision (P x)}
    (l : list A) (p : nat) (x : A) :
  l !! p = Some x -> P x ->
  filter P l !! length (filter P (take p l)) = Some x.
Proof.
  intros Hp HP. remember (length (filter P (take p l))) as n eqn:Hn.
  rewrite <- (take_drop_middle l p x Hp).
  rewrite filter_app, filter_cons_True by exact HP.
  subst n. apply list_lookup_middle. reflexivity.
Qed.

Lemma below_succ (l : list Z) (k : Z) :
  NoDup l ->
  below (k + 1) l = below k l + (if bool_decide (k ∈ l) then 1 else 0).
Proof.
  induction 1 as [|s l Hs _ IH].
  - rewrite bool_decide_eq_false_2 by apply not_elem_of_nil. unfold below. simpl. lia.
  - rewrite !below_cons, IH.
    destruct (decide (s = k)) as [-> | Hne].
    + rewrite (bool_decide_eq_false_2 (k ∈ l)) by exact Hs.
      rewrite (bool_decide_eq_true_2 (k ∈ k :: l)) by (apply elem_of_cons; left; reflexivity).
      repeat case_bool_decide; lia.
    + assert (Hiff : k ∈ s :: l <-> k ∈ l).
      { rewrite elem_of_cons. split; [intros [-> | H]|]; auto. contradiction. }
      rewrite (bool_decide_ext _ _ Hiff).
      repeat case_bool_decide; lia.
Qed.

Lemma kept_before (cls_bk : GridClass) (k : nat) :
  rows_tagged cls_bk -> NoDup (storage_pos_topo_vect cls_bk) ->
  Forall (fun s => 0 <= s) (storage_pos_topo_vect cls_bk) ->
  (k <= length (m_rows (grid_objects_types cls_bk)))%nat ->
  Z.of_nat (length (filter (fun row : list Z => row !! STORAGE_COL cls_bk = Some (-1))
                      (take k (m_rows (grid_objects_types cls_bk)))))
  = Z.of_nat k - below (Z.of_nat k) (storage_pos_topo_vect cls_bk).
Proof.
  intros [_ Htag] Hnd Hpos. induction k as [|k IH]; intros Hk.
  - simpl. unfold below.
    rewrite length_filter_none; [reflexivity |].
    eapply Forall_impl; [exact Hpos |]. simpl. intros; lia.
  - destruct (lookup_lt_is_Some_2 (m_rows (grid_objects_types cls_bk)) k ltac:(lia))
      as [row Hrow].
    rewrite (take_S_r _ _ _ Hrow), filter_app, length_app, Nat2Z.inj_add, IH by lia.
    replace (Z.of_nat (S k)) with (Z.of_nat k + 1) by lia.
    rewrite below_succ by exact Hnd.
    specialize (Htag k row Hrow).
    rewrite filter_cons, filter_nil.
    case_decide as Hkept; case_bool_decide as Hin; simpl length; try lia.
    + apply Htag in Hkept. contradiction.
    + exfalso. apply Hkept, Htag, Hin.
Qed.

(** X8: for the oldest version, on the description of a consistent grid,
    the method reaches [set_no_storage()] with a class in which the table
    of the elements is in step with the topology vector: it has a row for
    every position that is left, and the new position of an element is that
    of the row that described it.  When the method returns, this table is
    the one that the class of the backend holds. *)
Theorem compat_grid_objects_types (version v : string) (s s1 : CompatState) :
  warnings_warn = None -> backend_set_env_name s = inr s1 ->
  let cls_bk := type_backend s1 in
  applies version v cls_bk -> consistent cls_bk -> rows_tagged cls_bk ->
  exists cls_bk',
    _handle_compat_glop_version version (Some v) s
    = erase_storage (grid_objects_types cls_bk') (store_class cls_bk' (bind_cls_bk s1))
    /\ (forall s', _handle_compat_glop_version version (Some v) s = inr s' ->
          grid_objects_types (type_backend s') = grid_objects_types cls_bk')
    /\ Z.of_nat (length (m_rows (grid_objects_types cls_bk'))) = dim_topo cls_bk'
    /\ forall (j : nat) (p p' : Z),
         pos_topo_vect cls_bk !! j = Some p ->
         pos_topo_vect cls_bk' !! j = Some p' ->
         m_rows (grid_objects_types cls_bk') !! Z.to_nat p'
         = m_rows (grid_objects_types cls_bk) !! Z.to_nat p.
Proof.
  intros Hwarn Hname cls_bk Happ (Hshape & (Hperm & Hmax & Hn) & Hsub) Htagged.
  rewrite (compat_oldest _ _ _ _ Hwarn Hname Happ). fold cls_bk.
  rewrite (compat_returns _ _ Hshape Hsub). cbv zeta. cbn [and_then].
  eexists. split; [reflexivity |].
  split; [intros s' Hs'; exact (erase_storage_types _ _ _ Hs') |].
  unfold pos_topo_vect at 2.
  cbn [grid_objects_types m_rows dim_topo load_pos_topo_vect gen_pos_topo_vect
       line_or_pos_topo_vect line_ex_pos_topo_vect].
  rewrite <- !fmap_app. fold (pos_topo_vect cls_bk).
  assert (Hnd : NoDup (pos_topo_vect cls_bk ++ storage_pos_topo_vect cls_bk))
    by (rewrite Hperm; apply NoDup_seqZ).
  apply NoDup_app in Hnd as (_ & Hdisj & Hnds).
  assert (Hrange : forall x, x ∈ pos_topo_vect cls_bk ++ storage_pos_topo_vect cls_bk ->
                             0 <= x < dim_topo cls_bk).
  { intros x Hx. rewrite Hperm in Hx. apply elem_of_seqZ in Hx. lia. }
  assert (Hpos : Forall (fun s => 0 <= s) (storage_pos_topo_vect cls_bk)).
  { apply Forall_forall. intros x Hx. apply (Hrange x), elem_of_app. right; exact Hx. }
  pose proof Htagged as [Hrows Htag].
  split.
  - pose proof (kept_before cls_bk _ Htagged Hnds Hpos (Nat.le_refl _)) as Hall.
    rewrite firstn_all in Hall. rewrite Hall, Hrows, Hn. f_equal.
    unfold below. rewrite length_filter_all; [reflexivity |].
    apply Forall_forall. intros x Hx.
    assert (0 <= x < dim_topo cls_bk) by (apply Hrange, elem_of_app; right; exact Hx).
    lia.
  - intros j p p' Hp Hp'. rewrite list_lookup_fmap, Hp in Hp'. simpl in Hp'.
    injection Hp' as <-.
    assert (Hin : p ∈ pos_topo_vect cls_bk) by (apply list_elem_of_lookup; eauto).
    assert (Hp0 : 0 <= p < dim_topo cls_bk) by (apply Hrange, elem_of_app; left; exact Hin).
    rewrite compact_spec; [| exact Hnds | apply Hdisj, Hin | exact Hpos | lia].
    destruct (lookup_lt_is_Some_2 (m_rows (grid_objects_types cls_bk)) (Z.to_nat p)
                ltac:(lia)) as [row Hrow].
    rewrite Hrow.
    assert (Hkept : row !! STORAGE_COL cls_bk = Some (-1)).
    { apply (Htag (Z.to_nat p) row Hrow). rewrite Z2Nat.id by lia. apply Hdisj, Hin. }
    pose proof (filter_lookup_kept
                  (fun row : list Z => row !! STORAGE_COL cls_bk = Some (-1))
                  _ (Z.to_nat p) row Hrow Hkept) as Hlook.
    pose proof (kept_before cls_bk (Z.to_nat p) Htagged Hnds Hpos ltac:(lia))
      as Hcount.
    rewrite Z2Nat.id in Hcount by lia.
    rewrite <- Hcount, Nat2Z.id. exact Hlook.
Qed.

End CompatProperties.

(** ** Environment.train_val_split *)

(** *** The writes of a computation *)

Section SplitLogic.
Context {PF : Platform}.
#[local] Existing Instance F_ret.
#[local] Existing Instance F_bind.

Lemma appends_ret {A} (a : A) : appends (mret a).
Proof. intros log. exists []. symmetry. apply app_nil_r. Qed.

Lemma appends_raise {A} e : appends (A:=A) (F_raise e).
Proof. intros log. exists []. symmetry. apply app_nil_r. Qed.

Lemma appends_read {A} (r : Exc + A) : appends (F_read r).
Proof. intros log. exists []. symmetry. apply app_nil_r. Qed.

Lemma appends_write op : appends (F_write op).
Proof.
  intros log. unfold F_write. destruct (os_raises log op).
  - exists []. symmetry. apply app_nil_r.
  - exists [op]. reflexivity.
Qed.

Lemma appends_bind {A B} (m : F A) (f : A -> F B) :
  appends m -> (forall a, appends (f a)) -> appends (m ≫= f).
Proof.
  intros Hm Hf log. unfold mbind, F_bind.
  destruct (Hm log) as [new Hnew].
  destruct (m log) as [[e|a] log1]; simpl in *; [eauto |].
  destruct (Hf a log1) as [new' Hnew']. exists (new ++ new').
  rewrite Hnew', Hnew, app_assoc. reflexivity.
Qed.

Lemma appends_for {A} (l : list A) (body : A -> F unit) :
  (forall x, appends (body x)) -> appends (F_for l body).
Proof.
  intros Hb. induction l as [|x l IH]; simpl.
  - apply appends_ret.
  - apply appends_bind; [apply Hb | intros _; exact IH].
Qed.

Lemma writes_ret {A} (a : A) : writes (mret a) [].
Proof. intros log a' log' [= _ <-]. symmetry. apply app_nil_r. Qed.

Lemma writes_raise {A} e : writes (A:=A) (F_raise e) [].
Proof. intros log a' log' [=]. Qed.

Lemma writes_write op : writes (F_write op) [op].
Proof.
  intros log a log'. unfold F_write. destruct (os_raises log op); intros [=].
  subst. reflexivity.
Qed.

Lemma writes_bind {A B} (m : F A) (f : A -> F B) ops1 ops2 :
  writes m ops1 -> (forall a, writes (f a) ops2) -> writes (m ≫= f) (ops1 ++ ops2).
Proof.
  intros Hm Hf log b log'. unfold mbind, F_bind.
  destruct (m log) as [[e|a] log1] eqn:E; [intros [=] |].
  intros Hfa. rewrite (Hf a _ _ _ Hfa), (Hm _ _ _ E), app_assoc. reflexivity.
Qed.

Lemma writes_for_each {A} (l : list A) (body : A -> F unit) (ops : A -> list FsOp) :
  (forall x, writes (body x) (ops x)) ->
  writes (F_for l body) (mjoin (ops <$> l)).
Proof.
  intros Hb. induction l as [|x l IH]; simpl.
  - apply writes_ret.
  - apply writes_bind; [apply Hb | intros _; exact IH].
Qed.

Lemma runs_ret {A} (a : A) : runs (mret a) a [].
Proof. intros _ log. rewrite app_nil_r. reflexivity. Qed.

Lemma runs_write op : runs (F_write op) tt [op].
Proof. intros Hos log. unfold F_write. rewrite Hos. reflexivity. Qed.

Lemma runs_bind {A B} (m : F A) (f : A -> F B) a b ops1 ops2 :
  runs m a ops1 -> runs (f a) b ops2 -> runs (m ≫= f) b (ops1 ++ ops2).
Proof.
  intros Hm Hf Hos log. unfold mbind, F_bind.
  rewrite (Hm Hos log), (Hf Hos), app_assoc. reflexivity.
Qed.

Lemma runs_for_each {A} (l : list A) (body : A -> F unit) (ops : A -> list FsOp) :
  (forall x, runs (body x) tt (ops x)) ->
  runs (F_for l body) tt (mjoin (ops <$> l)).
Proof.
  intros Hb. induction l as [|x l IH]; simpl.
  - apply runs_ret.
  - apply (runs_bind _ _ tt); [apply Hb | exact IH].
Qed.

(** *** The loop over the entries *)

Lemma appends_copy_entry my_path path_train path_val all_chron to_val el :
  appends (copy_entry my_path path_train path_val all_chron to_val el).
Proof.
  unfold copy_entry, os_symlink, os_mkdir. cbv zeta.
  destruct (os_path_isfile _).
  { apply appends_bind; [apply appends_write | intros _; apply appends_write]. }
  destruct (os_path_isdir _); [| apply appends_ret].
  case_bool_decide; [| apply appends_ret].
  apply appends_bind; [apply appends_write | intros _].
  apply appends_bind; [apply appends_write | intros _].
  apply appends_for. intros c. case_bool_decide; apply appends_write.
Qed.

Lemma writes_copy_entry my_path path_train path_val all_chron to_val el :
  writes (copy_entry my_path path_train path_val all_chron to_val el)
    (writes_for my_path path_train path_val all_chron to_val el).
Proof.
  unfold copy_entry, writes_for, os_symlink, os_mkdir. cbv zeta.
  destruct (os_path_isfile _).
  { apply (writes_bind _ _ [_] [_]); [apply writes_write | intros _; apply writes_write]. }
  destruct (os_path_isdir _); [| apply writes_ret].
  case_bool_decide; [| apply writes_ret]. simpl andb. cbv iota.
  apply (writes_bind _ _ [_] (_ :: _)); [apply writes_write | intros _].
  apply (writes_bind _ _ [_]); [apply writes_write | intros _].
  induction all_chron as [|c l IH]; simpl.
  - apply writes_ret.
  - apply (writes_bind _ _ [_]); [| intros _; exact IH].
    case_bool_decide; apply writes_write.
Qed.

Lemma runs_copy_entry my_path path_train path_val all_chron to_val el :
  runs (copy_entry my_path path_train path_val all_chron to_val el) tt
    (writes_for my_path path_train path_val all_chron to_val el).
Proof.
  unfold copy_entry, writes_for, os_symlink, os_mkdir. cbv zeta.
  destruct (os_path_isfile _).
  { apply (runs_bind _ _ tt _ [_] [_]); apply runs_write. }
  destruct (os_path_isdir _); [| apply runs_ret].
  case_bool_decide; [| apply runs_ret]. simpl andb. cbv iota.
  apply (runs_bind _ _ tt _ [_] (_ :: _)); [apply runs_write |].
  apply (runs_bind _ _ tt _ [_]); [apply runs_write |].
  induction all_chron as [|c l IH]; simpl.
  - apply runs_ret.
  - apply (runs_bind _ _ tt _ [_]); [| exact IH].
    case_bool_decide; apply runs_write.
Qed.

(** *** The checks *)

(** The method once its checks have passed. *)
Lemma train_val_split_after_checks my_path real_data val_scen_id
    add_for_train add_for_val remove_from_name my_name log :
  REGEX_SPLIT add_for_train = true ->
  REGEX_SPLIT add_for_val = true ->
  isinstance_Multifolder real_data = true ->
  split_name my_path remove_from_name = inr my_name ->
  os_path_exists (split_path my_path my_name add_for_val) = false ->
  os_path_exists (split_path my_path my_name add_for_train) = false ->
  train_val_split my_path real_data val_scen_id add_for_train add_for_val
    remove_from_name log
  = (os_mkdir (split_path my_path my_name add_for_val);;
     os_mkdir (split_path my_path my_name add_for_train);;
     all_chron ← F_read (os_listdir (os_path_join my_path _chronics_folder_name));
     els ← F_read (os_listdir my_path);
     F_for els (copy_entry my_path (split_path my_path my_name add_for_train)
                  (split_path my_path my_name add_for_val) (sorted all_chron)
                  val_scen_id);;
     mret (my_name +:+ "_" +:+ add_for_train, my_name +:+ "_" +:+ add_for_val)) log.
Proof.
  intros Ht Hv Hd Hname Hev Het. unfold train_val_split.
  rewrite Ht, Hv, Hd. simpl negb. cbv iota.
  unfold split_name in Hname. unfold split_path in *.
  destruct remove_from_name as [pattern|].
  - destruct (re_match_class alnum_or_anchor pattern); [| discriminate Hname].
    simpl negb in *. cbv iota in *.
    unfold mbind, F_bind, mret, F_ret, F_read at 1. cbv zeta. rewrite Hname.
    cbv beta iota. rewrite Hev, Het. reflexivity.
  - assert (Hn : my_name = (os_path_split my_path).2) by congruence. subst my_name.
    unfold mbind, F_bind, mret, F_ret. cbv zeta beta iota. rewrite Hev, Het. reflexivity.
Qed.

End SplitLogic.

(** *** The method *)

Section SplitProperties.
Context {PF : Platform}.
#[local] Existing Instance F_ret.
#[local] Existing Instance F_bind.

Lemma appends_after_mkdir my_path path_train path_val val_scen_id (names : string * string) :
  appends (os_mkdir path_train;;
           all_chron ← F_read (os_listdir (os_path_join my_path _chronics_folder_name));
           els ← F_read (os_listdir my_path);
           F_for els (copy_entry my_path path_train path_val (sorted all_chron)
                        val_scen_id);;
           mret names).
Proof.
  apply appends_bind; [apply appends_write | intros _].
  apply appends_bind; [apply appends_read | intros all_chron].
  apply appends_bind; [apply appends_read | intros els].
  apply appends_bind; [| intros _; apply appends_ret].
  apply appends_for. intros el. apply appends_copy_entry.
Qed.

Lemma mkdir_then {B} (path : Path) (k : F B) (log : list FsOp) :
  (os_mkdir path;; k) log
  = match os_raises log (Mkdir path) with
    | Some e => (inl e, log)
    | None => k (log ++ [Mkdir path])
    end.
Proof.
  unfold mbind, F_bind, os_mkdir, F_write.
  destruct (os_raises log (Mkdir path)); reflexivity.
Qed.

(** Either a check stops the method, before it has written anything, or all
    the checks pass. *)
Lemma train_val_split_checks my_path real_data val_scen_id
    add_for_train add_for_val remove_from_name log :
  (exists e, train_val_split my_path real_data val_scen_id add_for_train add_for_val
               remove_from_name log = (inl e, log))
  \/ (REGEX_SPLIT add_for_train = true
      /\ REGEX_SPLIT add_for_val = true
      /\ isinstance_Multifolder real_data = true
      /\ exists my_name,
           split_name my_path remove_from_name = inr my_name
           /\ os_path_exists (split_path my_path my_name add_for_val) = false
           /\ os_path_exists (split_path my_path my_name add_for_train) = false).
Proof.
  destruct (REGEX_SPLIT add_for_train) eqn:Ht;
    [| left; eexists; unfold train_val_split; rewrite Ht; reflexivity].
  destruct (REGEX_SPLIT add_for_val) eqn:Hv;
    [| left; eexists; unfold train_val_split; rewrite Ht, Hv; reflexivity].
  destruct (isinstance_Multifolder real_data) eqn:Hd;
    [| left; eexists; unfold train_val_split; rewrite Ht, Hv, Hd; reflexivity].
  assert (Hrun : forall my_name,
            split_name my_path remove_from_name = inr my_name ->
            train_val_split my_path real_data val_scen_id add_for_train add_for_val
              remove_from_name log
            = ((if os_path_exists (split_path my_path my_name add_for_val)
                then F_raise (RuntimeError "Impossible to create the validation environment")
                else mret tt);;
               (if os_path_exists (split_path my_path my_name add_for_train)
                then F_raise (RuntimeError "Impossible to create the training environment")
                else mret tt);;
               os_mkdir (split_path my_path my_name add_for_val);;
               os_mkdir (split_path my_path my_name add_for_train);;
               all_chron ← F_read (os_listdir (os_path_join my_path _chronics_folder_name));
               els ← F_read (os_listdir my_path);
               F_for els (copy_entry my_path (split_path my_path my_name add_for_train)
                            (split_path my_path my_name add_for_val) (sorted all_chron)
                            val_scen_id);;
               mret (my_name +:+ "_" +:+ add_for_train,
                     my_name +:+ "_" +:+ add_for_val)) log).
  { intros my_name Hname. unfold train_val_split. rewrite Ht, Hv, Hd.
    unfold split_name in Hname. unfold split_path.
    destruct remove_from_name as [pattern|].
    - destruct (re_match_class alnum_or_anchor pattern);
        cbv beta iota zeta delta [negb] in Hname |- *; [| discriminate Hname].
      unfold mbind at 1 2 3 4, F_bind at 1 2 3 4, mret at 1 2 3, F_ret at 1 2 3,
        F_read at 1.
      rewrite Hname. reflexivity.
    - assert (Hn : my_name = (os_path_split my_path).2) by congruence. subst my_name.
      reflexivity. }
  destruct (split_name my_path remove_from_name) as [e|my_name] eqn:Hname.
  { left. exists e. unfold train_val_split. rewrite Ht, Hv, Hd.
    unfold split_name in Hname. destruct remove_from_name as [pattern|]; [| discriminate].
    destruct (re_match_class alnum_or_anchor pattern);
      cbv beta iota zeta delta [negb] in Hname |- *.
    - unfold mbind at 1 2 3 4, F_bind at 1 2 3 4, mret at 1 2 3, F_ret at 1 2 3,
        F_read at 1.
      rewrite Hname. reflexivity.
    - injection Hname as <-. reflexivity. }
  rewrite (Hrun my_name eq_refl).
  destruct (os_path_exists (split_path my_path my_name add_for_val)) eqn:Hev;
    [left; eexists; reflexivity |].
  destruct (os_path_exists (split_path my_path my_name add_for_train)) eqn:Het;
    [left; eexists; reflexivity |].
  right. repeat split. exists my_name. repeat split; assumption.
Qed.

(** X9: the checks come first.  When the method has written anything, the two
    suffixes had passed the regular expression, the chronics were read from
    directories, the name of the environment had been computed, neither of
    the two directories existed, and the first write was the creation of the
    directory of the validation environment. *)
Theorem train_val_split_checks_first my_path real_data val_scen_id
    add_for_train add_for_val remove_from_name log :
  (train_val_split my_path real_data val_scen_id add_for_train add_for_val
     remove_from_name log).2 <> log ->
  REGEX_SPLIT add_for_train = true
  /\ REGEX_SPLIT add_for_val = true
  /\ isinstance_Multifolder real_data = true
  /\ exists my_name,
       split_name my_path remove_from_name = inr my_name
       /\ os_path_exists (split_path my_path my_name add_for_val) = false
       /\ os_path_exists (split_path my_path my_name add_for_train) = false
       /\ exists rest,
            (train_val_split my_path real_data val_scen_id add_for_train add_for_val
               remove_from_name log).2
            = log ++ Mkdir (split_path my_path my_name add_for_val) :: rest.
Proof.
  intros Hlog.
  destruct (train_val_split_checks my_path real_data val_scen_id add_for_train
              add_for_val remove_from_name log)
    as [[e He] | (Ht & Hv & Hd & my_name & Hname & Hev & Het)].
  { exfalso. apply Hlog. rewrite He. reflexivity. }
  repeat split; try assumption.
  exists my_name. repeat split; try assumption.
  rewrite (train_val_split_after_checks _ _ _ _ _ _ _ _ Ht Hv Hd Hname Hev Het) in Hlog |- *.
  rewrite mkdir_then in Hlog |- *.
  destruct (os_raises log (Mkdir (split_path my_path my_name add_for_val))).
  { exfalso. apply Hlog. reflexivity. }
  destruct (appends_after_mkdir my_path (split_path my_path my_name add_for_train)
              (split_path my_path my_name add_for_val) val_scen_id
              (my_name +:+ "_" +:+ add_for_train, my_name +:+ "_" +:+ add_for_val)
              (log ++ [Mkdir (split_path my_path my_name add_for_val)]))
    as [new Hnew].
  exists new. rewrite Hnew, <- app_assoc. reflexivity.
Qed.

(** X10: with the same suffix for both environments the method is not
    stopped by its checks: it creates the directory, and the second
    [os.mkdir] of the same path raises; the directory is left behind. *)
Theorem train_val_split_same_suffix my_path real_data val_scen_id suffix
    remove_from_name my_name log e :
  REGEX_SPLIT suffix = true ->
  isinstance_Multifolder real_data = true ->
  split_name my_path remove_from_name = inr my_name ->
  os_path_exists (split_path my_path my_name suffix) = false ->
  os_raises log (Mkdir (split_path my_path my_name suffix)) = None ->
  os_raises (log ++ [Mkdir (split_path my_path my_name suffix)])
    (Mkdir (split_path my_path my_name suffix)) = Some e ->
  train_val_split my_path real_data val_scen_id suffix suffix remove_from_name log
  = (inl e, log ++ [Mkdir (split_path my_path my_name suffix)]).
Proof.
  intros Hs Hd Hname Hex Hfirst Hsecond.
  rewrite (train_val_split_after_checks _ _ _ _ _ _ _ _ Hs Hs Hd Hname Hex Hex).
  unfold mbind, F_bind, os_mkdir, F_write. rewrite Hfirst, Hsecond. reflexivity.
Qed.

(** What the method has written when it returns. *)
Lemma train_val_split_writes my_path real_data val_scen_id
    add_for_train add_for_val remove_from_name log names log' :
  train_val_split my_path real_data val_scen_id add_for_train add_for_val
    remove_from_name log = (inr names, log') ->
  exists my_name all_chron els,
    split_name my_path remove_from_name = inr my_name
    /\ os_listdir (os_path_join my_path _chronics_folder_name) = inr all_chron
    /\ os_listdir my_path = inr els
    /\ names = (my_name +:+ "_" +:+ add_for_train, my_name +:+ "_" +:+ add_for_val)
    /\ log' = log
              ++ Mkdir (split_path my_path my_name add_for_val)
              :: Mkdir (split_path my_path my_name add_for_train)
              :: mjoin (writes_for my_path (split_path my_path my_name add_for_train)
                          (split_path my_path my_name add_for_val) (sorted all_chron)
                          val_scen_id <$> els).
Proof.
  intros Hret.
  destruct (train_val_split_checks my_path real_data val_scen_id add_for_train
              add_for_val remove_from_name log)
    as [[e He] | (Ht & Hv & Hd & my_name & Hname & Hev & Het)].
  { rewrite He in Hret. discriminate Hret. }
  rewrite (train_val_split_after_checks _ _ _ _ _ _ _ _ Ht Hv Hd Hname Hev Het) in Hret.
  exists my_name.
  destruct (os_listdir (os_path_join my_path _chronics_folder_name))
    as [e|all_chron] eqn:Hchron.
  { exfalso. revert Hret. unfold mbind, F_bind, os_mkdir, F_write, F_read.
    repeat (destruct (os_raises _ _); [discriminate |]). discriminate. }
  destruct (os_listdir my_path) as [e|els] eqn:Hels.
  { exfalso. revert Hret. unfold mbind, F_bind, os_mkdir, F_write, F_read.
    repeat (destruct (os_raises _ _); [discriminate |]). discriminate. }
  exists all_chron, els.
  split; [exact Hname |]. split; [reflexivity |]. split; [reflexivity |]. split.
  - revert Hret. unfold mbind, F_bind, os_mkdir, F_write, F_read.
    repeat (destruct (os_raises _ _); [discriminate |]).
    destruct (F_for els _ _) as [[e|[]] log1]; [discriminate |].
    unfold mret, F_ret. congruence.
  - assert (Hw : writes
      (os_mkdir (split_path my_path my_name add_for_val);;
       os_mkdir (split_path my_path my_name add_for_train);;
       F_for els (copy_entry my_path (split_path my_path my_name add_for_train)
                    (split_path my_path my_name add_for_val) (sorted all_chron)
                    val_scen_id);;
       mret (my_name +:+ "_" +:+ add_for_train, my_name +:+ "_" +:+ add_for_val))
      ([Mkdir (split_path my_path my_name add_for_val)]
       ++ [Mkdir (split_path my_path my_name add_for_train)]
       ++ mjoin (writes_for my_path (split_path my_path my_name add_for_train)
                   (split_path my_path my_name add_for_val) (sorted all_chron)
                   val_scen_id <$> els) ++ [])).
    { apply writes_bind; [apply writes_write | intros _].
      apply writes_bind; [apply writes_write | intros _].
      apply (writes_bind _ _ _ []); [| intros _; apply writes_ret].
      apply writes_for_each. intros el. apply writes_copy_entry. }
    rewrite (Hw _ _ _ Hret). rewrite app_nil_r. reflexivity.
Qed.

(** *** Where the entries go *)

Lemma os_path_join_inj (p q : Path) (a b : string) :
  os_path_join p a = os_path_join q b -> p = q /\ a = b.
Proof.
  unfold os_path_join. intros H. apply app_inj_2 in H; [| reflexivity].
  destruct H as [-> [= ->]]. split; reflexivity.
Qed.

Lemma os_path_join_longer (p : Path) (a b c : string) :
  os_path_join p a <> os_path_join (os_path_join p b) c.
Proof.
  unfold os_path_join. intros H. apply (f_equal length) in H.
  rewrite !length_app in H. simpl in H. lia.
Qed.

Lemma split_path_inj my_path my_name a b :
  split_path my_path my_name a = split_path my_path my_name b -> a = b.
Proof.
  unfold split_path. intros H. apply os_path_join_inj in H as [_ H].
  apply (inj (String.app my_name)) in H. apply (inj (String.app "_")) in H. exact H.
Qed.

Lemma split_path_shorter my_path my_name suffix (p : Path) (a b : string) :
  split_path my_path my_name suffix
  <> os_path_join (split_path my_path my_name a) b.
Proof.
  unfold split_path, os_path_join. intros H. apply (f_equal length) in H.
  rewrite !length_app in H. simpl in H. lia.
Qed.

(** The writes made for an entry, one by one. *)
Lemma elem_of_writes_for op my_path path_train path_val all_chron to_val el :
  op ∈ writes_for my_path path_train path_val all_chron to_val el ->
  (os_path_isfile (os_path_join my_path el) = true
   /\ (op = Symlink (os_path_join my_path el) (os_path_join path_train el)
       \/ op = Symlink (os_path_join my_path el) (os_path_join path_val el)))
  \/ (os_path_isfile (os_path_join my_path el) = false
      /\ os_path_isdir (os_path_join my_path el) = true
      /\ el = _chronics_folder_name
      /\ (op = Mkdir (os_path_join path_train _chronics_folder_name)
          \/ op = Mkdir (os_path_join path_val _chronics_folder_name)
          \/ exists c, c ∈ all_chron
               /\ op = Symlink (os_path_join (os_path_join my_path el) c)
                         (os_path_join
                            (os_path_join (if bool_decide (c ∈ to_val)
                                           then path_val else path_train)
                               _chronics_folder_name) c))).
Proof.
  unfold writes_for. cbv zeta.
  destruct (os_path_isfile _).
  { intros H. left. split; [reflexivity |].
    apply elem_of_cons in H as [-> | H]; [left; reflexivity |].
    apply elem_of_cons in H as [-> | H]; [right; reflexivity |].
    apply elem_of_nil in H. contradiction. }
  destruct (os_path_isdir _); [| intros H; apply elem_of_nil in H; contradiction].
  case_bool_decide as Hel; [| intros H; apply elem_of_nil in H; contradiction].
  simpl andb. cbv iota. intros H. right. repeat split; [exact Hel |].
  apply elem_of_cons in H as [-> | H]; [left; reflexivity |].
  apply elem_of_cons in H as [-> | H]; [right; left; reflexivity |].
  right; right. apply list_elem_of_fmap in H as (c & -> & Hc). exists c. split; [exact Hc |].
  reflexivity.
Qed.

Lemma sorted_Permutation (l : list string) : sorted l ≡ₚ l.
Proof. apply merge_sort_Permutation. Qed.

(** X11: when the method returns, every scenario of the chronics directory
    has been linked into exactly one of the two environments: into the
    validation environment when its name is in [val_scen_id], into the
    training environment otherwise; a name that is no scenario of the
    directory, be it in [val_scen_id], has no link made from or to it in the
    chronics of either environment. *)
Theorem train_val_split_partition my_path real_data val_scen_id
    add_for_train add_for_val remove_from_name log names log' my_name all_chron els :
  train_val_split my_path real_data val_scen_id add_for_train add_for_val
    remove_from_name log = (inr names, log') ->
  add_for_train <> add_for_val ->
  split_name my_path remove_from_name = inr my_name ->
  os_listdir (os_path_join my_path _chronics_folder_name) = inr all_chron ->
  os_listdir my_path = inr els ->
  _chronics_folder_name ∈ els ->
  os_path_isfile (os_path_join my_path _chronics_folder_name) = false ->
  os_path_isdir (os_path_join my_path _chronics_folder_name) = true ->
  exists new,
    log' = log ++ new
    /\ (forall c, c ∈ all_chron ->
         let src := os_path_join (os_path_join my_path _chronics_folder_name) c in
         let dst suffix :=
           os_path_join (os_path_join (split_path my_path my_name suffix)
                           _chronics_folder_name) c in
         (Symlink src (dst add_for_val) ∈ new <-> c ∈ val_scen_id)
         /\ (Symlink src (dst add_for_train) ∈ new <-> c ∉ val_scen_id))
    /\ (forall c src suffix, c ∉ all_chron ->
          (Symlink src
             (os_path_join (os_path_join (split_path my_path my_name suffix)
                              _chronics_folder_name) c) ∉ new)
          /\ forall dst,
               Symlink (os_path_join (os_path_join my_path _chronics_folder_name) c)
                 dst ∉ new).
Proof.
  intros Hret Hne Hname Hchron Hels Hin Hfile Hdir.
  destruct (train_val_split_writes _ _ _ _ _ _ _ _ _ Hret)
    as (my_name' & all_chron' & els' & Hname' & Hchron' & Hels' & _ & ->).
  assert (my_name' = my_name) as -> by congruence.
  assert (all_chron' = all_chron) as -> by congruence.
  assert (els' = els) as -> by congruence.
  eexists. split; [reflexivity |]. split.
  2: { intros c src suffix Hc. split; [| intros dst]; intros Hd.
       all: apply elem_of_cons in Hd as [Hd | Hd]; [discriminate Hd |].
       all: apply elem_of_cons in Hd as [Hd | Hd]; [discriminate Hd |].
       all: apply list_elem_of_join in Hd as (ops & Hop & Hops).
       all: apply list_elem_of_fmap in Hops as (el & -> & Hel).
       all: apply elem_of_writes_for in Hop
         as [[_ [Hop | Hop]] | (_ & _ & -> & [Hop | [Hop | (c' & Hc' & Hop)]])];
         try discriminate Hop.
       - injection Hop as _ Hdst. apply os_path_join_inj in Hdst as [Hdst _].
         symmetry in Hdst. exact (split_path_shorter _ _ _ [] _ _ Hdst).
       - injection Hop as _ Hdst. apply os_path_join_inj in Hdst as [Hdst _].
         symmetry in Hdst. exact (split_path_shorter _ _ _ [] _ _ Hdst).
       - injection Hop as _ Hdst. apply os_path_join_inj in Hdst as [_ ->].
         apply Hc. rewrite <- (sorted_Permutation all_chron). exact Hc'.
       - injection Hop as Hsrc _. exact (os_path_join_longer _ _ _ _ (eq_sym Hsrc)).
       - injection Hop as Hsrc _. exact (os_path_join_longer _ _ _ _ (eq_sym Hsrc)).
       - injection Hop as Hsrc _. apply os_path_join_inj in Hsrc as [_ ->].
         apply Hc. rewrite <- (sorted_Permutation all_chron). exact Hc'. }
  intros c Hc src dst.
  set (path_train := split_path my_path my_name add_for_train).
  set (path_val := split_path my_path my_name add_for_val).
  assert (Hpaths : path_train <> path_val).
  { intros H. apply Hne. exact (split_path_inj _ _ _ _ H). }
  (* the link that is made for [c] *)
  assert (Hmade : Symlink src
                    (os_path_join
                       (os_path_join (if bool_decide (c ∈ val_scen_id)
                                      then path_val else path_train)
                          _chronics_folder_name) c)
                  ∈ Mkdir path_val :: Mkdir path_train
                    :: mjoin (writes_for my_path path_train path_val (sorted all_chron)
                                val_scen_id <$> els)).
  { do 2 apply list_elem_of_further. apply list_elem_of_join.
    eexists. split; [| apply list_elem_of_fmap_2, Hin].
    unfold writes_for. cbv zeta. rewrite Hfile, Hdir.
    rewrite (bool_decide_eq_true_2 (_chronics_folder_name = _chronics_folder_name))
      by reflexivity.
    simpl andb. cbv iota.
    do 2 apply list_elem_of_further.
    apply list_elem_of_fmap. exists c.
    split; [reflexivity | rewrite sorted_Permutation; exact Hc]. }
  (* no other link is made from [src] *)
  assert (Honly : forall d,
            Symlink src d
            ∈ Mkdir path_val :: Mkdir path_train
              :: mjoin (writes_for my_path path_train path_val (sorted all_chron)
                          val_scen_id <$> els) ->
            d = os_path_join
                  (os_path_join (if bool_decide (c ∈ val_scen_id)
                                 then path_val else path_train)
                     _chronics_folder_name) c).
  { intros d Hd.
    apply elem_of_cons in Hd as [Hd | Hd]; [discriminate Hd |].
    apply elem_of_cons in Hd as [Hd | Hd]; [discriminate Hd |].
    apply list_elem_of_join in Hd as (ops & Hop & Hops).
    apply list_elem_of_fmap in Hops as (el & -> & Hel).
    apply elem_of_writes_for in Hop
      as [[_ [Hop | Hop]] | (_ & _ & -> & [Hop | [Hop | (c' & Hc' & Hop)]])];
      try discriminate Hop.
    - injection Hop as Hsrc _. symmetry in Hsrc.
      exfalso. exact (os_path_join_longer _ _ _ _ Hsrc).
    - injection Hop as Hsrc _. symmetry in Hsrc.
      exfalso. exact (os_path_join_longer _ _ _ _ Hsrc).
    - injection Hop as Hsrc ->. apply os_path_join_inj in Hsrc as [_ ->]. reflexivity. }
  subst dst. cbv beta. fold path_val path_train. split; split.
  - intros H. apply Honly in H. case_bool_decide as Hv; [exact Hv |].
    exfalso. apply os_path_join_inj in H as [H _].
    apply os_path_join_inj in H as [H _]. apply Hpaths. symmetry. exact H.
  - intros Hv. rewrite bool_decide_eq_true_2 in Hmade by exact Hv. exact Hmade.
  - intros H. apply Honly in H. case_bool_decide as Hv; [| exact Hv].
    exfalso. apply os_path_join_inj in H as [H _].
    apply os_path_join_inj in H as [H _]. apply Hpaths. exact H.
  - intros Hv. rewrite bool_decide_eq_false_2 in Hmade by exact Hv. exact Hmade.
Qed.

(** X12: when the method returns, every regular file of the directory has
    been linked into both environments under its own name, and nothing has
    been created in either of them for an entry that is neither a regular
    file nor the chronics directory: the other directories are left out. *)
Theorem train_val_split_entries my_path real_data val_scen_id
    add_for_train add_for_val remove_from_name log names log' my_name els :
  train_val_split my_path real_data val_scen_id add_for_train add_for_val
    remove_from_name log = (inr names, log') ->
  split_name my_path remove_from_name = inr my_name ->
  os_listdir my_path = inr els ->
  exists new,
    log' = log ++ new
    /\ forall el, el ∈ els ->
         let src := os_path_join my_path el in
         let path_train := split_path my_path my_name add_for_train in
         let path_val := split_path my_path my_name add_for_val in
         (os_path_isfile src = true ->
          Symlink src (os_path_join path_train el) ∈ new
          /\ Symlink src (os_path_join path_val el) ∈ new)
         /\ (os_path_isfile src = false -> el <> _chronics_folder_name ->
             forall op, op ∈ new ->
               created op <> os_path_join path_train el
               /\ created op <> os_path_join path_val el).
Proof.
  intros Hret Hname Hels.
  destruct (train_val_split_writes _ _ _ _ _ _ _ _ _ Hret)
    as (my_name' & all_chron & els' & Hname' & Hchron & Hels' & _ & ->).
  assert (my_name' = my_name) as -> by congruence.
  assert (els' = els) as -> by congruence.
  eexists. split; [reflexivity |]. intros el Hel src path_train path_val.
  subst src path_train path_val. split.
  - intros Hfile.
    assert (Hfor : writes_for my_path (split_path my_path my_name add_for_train)
                     (split_path my_path my_name add_for_val) (sorted all_chron)
                     val_scen_id el
                   = [Symlink (os_path_join my_path el)
                        (os_path_join (split_path my_path my_name add_for_train) el);
                      Symlink (os_path_join my_path el)
                        (os_path_join (split_path my_path my_name add_for_val) el)]).
    { unfold writes_for. cbv zeta. rewrite Hfile. reflexivity. }
    split; do 2 apply list_elem_of_further; apply list_elem_of_join;
      (eexists; split; [| apply list_elem_of_fmap_2, Hel]); rewrite Hfor.
    + apply elem_of_cons. left; reflexivity.
    + apply list_elem_of_further, elem_of_cons. left; reflexivity.
  - intros Hfile Hnot op Hop.
    apply elem_of_cons in Hop as [-> | Hop].
    { simpl. split; apply split_path_shorter; exact my_path. }
    apply elem_of_cons in Hop as [-> | Hop].
    { simpl. split; apply split_path_shorter; exact my_path. }
    apply list_elem_of_join in Hop as (ops & Hop & Hops).
    apply list_elem_of_fmap in Hops as (el' & -> & Hel').
    apply elem_of_writes_for in Hop
      as [[Hfile' [-> | ->]] | (_ & _ & -> & [-> | [-> | (c' & Hc' & ->)]])];
      simpl.
    + split; intros H; apply os_path_join_inj in H as [_ ->]; congruence.
    + split; intros H; apply os_path_join_inj in H as [_ ->]; congruence.
    + split; intros H; apply os_path_join_inj in H as [_ H]; congruence.
    + split; intros H; apply os_path_join_inj in H as [_ H]; congruence.
    + split; intros H; apply (f_equal length) in H;
        case_bool_decide; unfold split_path, os_path_join in H;
        rewrite !length_app in H; simpl in H; lia.
Qed.

(** X13: when no write raises, all the checks pass and the two directories
    can be listed, the method returns the names of the two environments,
    the name of the environment followed by an underscore and the suffix,
    after it has created the two directories and made the writes of every
    entry, in the order of the listing. *)
Theorem train_val_split_returns my_path real_data val_scen_id
    add_for_train add_for_val remove_from_name log my_name all_chron els :
  (forall h op, os_raises h op = None) ->
  REGEX_SPLIT add_for_train = true ->
  REGEX_SPLIT add_for_val = true ->
  isinstance_Multifolder real_data = true ->
  split_name my_path remove_from_name = inr my_name ->
  os_path_exists (split_path my_path my_name add_for_val) = false ->
  os_path_exists (split_path my_path my_name add_for_train) = false ->
  os_listdir (os_path_join my_path _chronics_folder_name) = inr all_chron ->
  os_listdir my_path = inr els ->
  train_val_split my_path real_data val_scen_id add_for_train add_for_val
    remove_from_name log
  = (inr (my_name +:+ "_" +:+ add_for_train, my_name +:+ "_" +:+ add_for_val),
     log
     ++ Mkdir (split_path my_path my_name add_for_val)
     :: Mkdir (split_path my_path my_name add_for_train)
     :: mjoin (writes_for my_path (split_path my_path my_name add_for_train)
                 (split_path my_path my_name add_for_val) (sorted all_chron)
                 val_scen_id <$> els)).
Proof.
  intros Hos Ht Hv Hd Hname Hev Het Hchron Hels.
  rewrite (train_val_split_after_checks _ _ _ _ _ _ _ _ Ht Hv Hd Hname Hev Het).
  rewrite Hchron, Hels.
  assert (Hr : runs
      (os_mkdir (split_path my_path my_name add_for_val);;
       os_mkdir (split_path my_path my_name add_for_train);;
       F_for els (copy_entry my_path (split_path my_path my_name add_for_train)
                    (split_path my_path my_name add_for_val) (sorted all_chron)
                    val_scen_id);;
       mret (my_name +:+ "_" +:+ add_for_train, my_name +:+ "_" +:+ add_for_val))
      (my_name +:+ "_" +:+ add_for_train, my_name +:+ "_" +:+ add_for_val)
      ([Mkdir (split_path my_path my_name add_for_val)]
       ++ [Mkdir (split_path my_path my_name add_for_train)]
       ++ mjoin (writes_for my_path (split_path my_path my_name add_for_train)
                   (split_path my_path my_name add_for_val) (sorted all_chron)
                   val_scen_id <$> els) ++ [])).
  { apply (runs_bind _ _ tt); [apply runs_write |].
    apply (runs_bind _ _ tt); [apply runs_write |].
    apply (runs_bind _ _ tt); [| apply runs_ret].
    apply runs_for_each. intros el. apply runs_copy_entry. }
  rewrite app_nil_r in Hr. exact (Hr Hos log).
Qed.

End SplitProperties.

(** ** The check of the chronics handler *)

Section ChronicsCheck.
Context {FO : FloatOps} {OB : ObservationBase} {EX : Externals}.






End ChronicsCheck.

(** ** Construction: the mark of the backend *)

Section BackendMarkLogic.
Context {FO : FloatOps} {OB : ObservationBase} {EX : Externals}.

Lemma keeps_state_ret {A} J (a : A) : keeps_state J (mret a).
Proof. intros s Hs; exact Hs. Qed.

Lemma keeps_state_raise {A} J e : keeps_state (A:=A) J (raise e).
Proof. intros s Hs; exact Hs. Qed.

Lemma keeps_state_get J : keeps_state J get_self.
Proof. intros s Hs; exact Hs. Qed.

Lemma keeps_state_bind {A B} J (m : M A) (f : A -> M B) :
  keeps_state J m -> (forall a, keeps_state J (f a)) -> keeps_state J (m ≫= f).
Proof.
  intros Hm Hf s Hs. unfold mbind, M_bind.
  specialize (Hm s Hs). destruct (m s) as [[e|a] s']; simpl in *; [exact Hm |].
  apply Hf, Hm.
Qed.

Lemma keeps_state_when J c m : keeps_state J m -> keeps_state J (when c m).
Proof. destruct c; simpl; [trivial | intros _; apply keeps_state_ret]. Qed.

Lemma keeps_state_mapM {A B} J (f : A -> M B) (l : list A) :
  (forall a, keeps_state J (f a)) -> keeps_state J (mapM f l).
Proof.
  intros Hf. induction l as [|a l IH]; simpl.
  - apply keeps_state_ret.
  - apply keeps_state_bind; [apply Hf | intros b].
    apply keeps_state_bind; [apply IH | intros bs]. apply keeps_state_ret.
Qed.

Lemma marked_modify f :
  (forall e, is_loaded (backend e) = true -> is_loaded (backend (f e)) = true) ->
  keeps_state marked (modify f).
Proof. intros Hf s [Hs Hlog]. split; [apply Hf, Hs | exact Hlog]. Qed.

Lemma marked_call target method : keeps_state marked (call target method).
Proof.
  intros s [Hs Hlog]. unfold call.
  destruct (world (cs_log s) (mkCall target method));
    (split; [exact Hs | apply list_elem_of_further, Hlog]).
Qed.

(** A method of the backend keeps the mark when the backend does. *)
Lemma marked_bcall method : mark_kept -> keeps_state marked (bcall method).
Proof.
  intros Hkept s [Hs Hlog]. unfold bcall, mbind, M_bind, call.
  destruct (world (cs_log s) (mkCall "backend" method)) as [e|v] eqn:E; simpl.
  - split; [exact Hs | apply list_elem_of_further, Hlog].
  - destruct v; simpl;
      try (split; [exact Hs | apply list_elem_of_further, Hlog]).
    split; [| apply list_elem_of_further, Hlog].
    exact (Hkept _ _ _ Hlog E).
Qed.

Lemma marks_never {A} P (m : M A) :
  safe P (fun c => c <> load_alarm_data_call) m -> marks m.
Proof.
  intros Hm s. destruct (Hm s) as [(new & Hlog & Hnew) _].
  exists new. split; [exact Hlog |]. intros Hin.
  rewrite Forall_forall in Hnew. exfalso. exact (Hnew _ Hin eq_refl).
Qed.

(** Statements that do not call [load_alarm_data] come first. *)
Lemma marks_bind_before {A B} P (m : M A) (f : A -> M B) :
  safe P (fun c => c <> load_alarm_data_call) m ->
  (forall a, marks (f a)) ->
  marks (m ≫= f).
Proof.
  intros Hm Hf s. unfold mbind, M_bind.
  destruct (Hm s) as [(new1 & Hlog1 & Hnew1) _].
  rewrite Forall_forall in Hnew1.
  destruct (m s) as [[e|a] s1] eqn:E; simpl in *.
  - exists new1. split; [exact Hlog1 |]. intros Hin.
    exfalso. exact (Hnew1 _ Hin eq_refl).
  - destruct (Hf a s1) as (new2 & Hlog2 & Hmark).
    exists (new2 ++ new1). rewrite Hlog2, Hlog1, app_assoc. split; [reflexivity |].
    intros Hin. apply Hmark.
    apply elem_of_app in Hin as [Hin | Hin]; [exact Hin |].
    exfalso. exact (Hnew1 _ Hin eq_refl).
Qed.

(** The assignment of the mark, the call of [load_alarm_data], and what
    follows, which keeps the mark. *)
Lemma marks_from_mark {B} g (f : PyVal -> M B) :
  (forall e, is_loaded (backend (g e)) = true) ->
  (forall v, keeps_state marked (f v)) ->
  (forall v, safe (fun _ => True) (fun _ => True) (f v)) ->
  marks (modify g ≫= fun _ => call "self" "load_alarm_data" ≫= f).
Proof.
  intros Hg Hf Hsafe s. unfold mbind, M_bind, modify, call. cbn [cs_self cs_log].
  destruct (world (cs_log s) (mkCall "self" "load_alarm_data")) as [e|v] eqn:E.
  - exists [load_alarm_data_call]. split; [reflexivity |]. intros _. apply Hg.
  - set (s1 := mkCState (g (cs_self s)) (mkCall "self" "load_alarm_data" :: cs_log s)).
    destruct (Hsafe v s1) as [(new & Hlog & _) _].
    exists (new ++ [load_alarm_data_call]). split.
    + rewrite Hlog. rewrite <- app_assoc. reflexivity.
    + intros _. apply (Hf v s1). split; [apply Hg | apply elem_of_cons; left; reflexivity].
Qed.

End BackendMarkLogic.

Section BackendMark.
Context {FO : FloatOps} {OB : ObservationBase} {EX : Externals}.

Ltac call_side :=
  first [ exact I | reflexivity | discriminate
        | (unfold load_alarm_data_call; intros Hsame; discriminate Hsame) ].

Ltac call_walk :=
  repeat match goal with
  | |- forall _, _ => intros ?
  | |- safe _ _ (mret _) => apply safe_ret
  | |- safe _ _ (raise _) => apply safe_raise; call_side
  | |- safe _ _ get_self => apply safe_get
  | |- safe _ _ (modify _) => apply safe_modify
  | |- safe _ _ (call _ _) => apply safe_call; call_side
  | |- safe _ _ (when _ _) => apply safe_when
  | |- safe _ _ (mapM _ _) => apply safe_mapM
  | |- safe _ _ (mbind _ _) => apply safe_bind
  | |- safe _ _ (bcall _) => unfold bcall
  | |- safe _ _ (ccall _) => unfold ccall
  | |- safe _ _ (setattr_call _ _ _) => unfold setattr_call
  | |- safe _ _ warn => unfold warn
  | |- safe _ _ (match ?v with _ => _ end) => destruct v
  end.

Ltac marked_side :=
  let e := fresh "e" in let He := fresh "He" in
  intros e He;
  unfold setattr, set_backend, set_chronics_handler, set__thermal_limit_a, set_env_state;
  cbn [backend]; exact He.

Ltac marked_walk Hkept :=
  repeat match goal with
  | |- forall _, _ => intros ?
  | |- keeps_state _ (mret _) => apply keeps_state_ret
  | |- keeps_state _ (raise _) => apply keeps_state_raise
  | |- keeps_state _ get_self => apply keeps_state_get
  | |- keeps_state _ (modify _) => apply marked_modify; marked_side
  | |- keeps_state _ (call _ _) => apply marked_call
  | |- keeps_state _ (bcall _) => apply marked_bcall, Hkept
  | |- keeps_state _ (when _ _) => apply keeps_state_when
  | |- keeps_state _ (mapM _ _) => apply keeps_state_mapM
  | |- keeps_state _ (mbind _ _) => apply keeps_state_bind
  | |- keeps_state _ (ccall _) => unfold ccall
  | |- keeps_state _ (setattr_call _ _ _) => unfold setattr_call
  | |- keeps_state _ warn => unfold warn
  | |- keeps_state _ (match ?v with _ => _ end) => destruct v
  end.

Ltac marks_walk Hkept :=
  repeat match goal with
  | |- forall _, _ => intros ?
  | |- marks (mbind _ (modify (fun e => set_backend (set__is_loaded true _) e))) =>
      apply marks_from_mark;
      [ intros ?; reflexivity | solve [marked_walk Hkept] | solve [call_walk] ]
  | |- marks (mbind _ _) =>
      apply (marks_bind_before (fun _ => True)); [solve [call_walk] |]
  | |- marks _ => apply (marks_never (fun _ => True)); solve [call_walk]
  end.

Lemma init_backend_marks ch bk names aC oC rC lC :
  mark_kept -> marks (_init_backend ch bk names aC oC rC lC).
Proof.
  intros Hkept. unfold _init_backend.
  marks_walk Hkept.
  unfold _init_backend_build.
  marks_walk Hkept.
Qed.

(** X16: once the constructor has called [load_alarm_data], the backend it was
    given is marked as loaded, whether the construction then succeeds or
    fails; a later construction with that backend and the same reward class
    raises the error of the eager check (the methods of the backend leaving
    the mark alone). *)
Theorem started_construction_marks_backend
    ch names aC oC rC lC (b : Backend) st new :
  mark_kept ->
  cs_log (_init_backend ch (PyBackend b) names aC oC rC lC st).2 = new ++ cs_log st ->
  load_alarm_data_call ∈ new ->
  let used := backend (cs_self (_init_backend ch (PyBackend b) names aC oC rC lC st).2) in
  is_loaded used = true
  /\ forall ch' names' aC' oC' lC' st',
       (_init_backend ch' (PyBackend used) names' aC' oC' rC lC' st').1
       = inl same_backend_twice.
Proof.
  intros Hkept Hlog Hin used. subst used.
  assert (Hmark : is_loaded (backend (cs_self
            (_init_backend ch (PyBackend b) names aC oC rC lC st).2)) = true).
  { destruct (init_backend_marks ch (PyBackend b) names aC oC rC lC Hkept st)
      as (new' & Hlog' & Hmark).
    apply Hmark. rewrite Hlog' in Hlog. apply app_inv_tail in Hlog. subst new'.
    exact Hin. }
  split; [exact Hmark |].
  intros ch' names' aC' oC' lC' st'.
  assert (Hpast : cs_log (_init_backend ch (PyBackend b) names aC oC rC lC st).2
                  <> cs_log st).
  { intros Hsame. rewrite Hsame in Hlog.
    apply (app_inv_tail _ [] new) in Hlog. subst new.
    apply elem_of_nil in Hin. exact Hin. }
  rewrite init_backend_checks in Hpast.
  remember (_init_backend ch (PyBackend b) names aC oC rC lC st) as r eqn:Hr.
  rewrite init_backend_checks.
  destruct (isinstance_type rC); simpl in *; [| contradiction Hpast; reflexivity].
  destruct (issubclass_val rC "BaseReward"); simpl in *;
    [| contradiction Hpast; reflexivity].
  rewrite Hmark. reflexivity.
Qed.

End BackendMark.

(** ** The rewards, the integers of the observation and the keys of [get_kwargs] *)

Section ResponseQualityProperties.
Context {FO : FloatOps} {OB : ObservationBase} {OS : ObservationSpace}.

Lemma count_reconnectable_mask (status : list bool) (cooldown : list Z)
    (i : nat) (acc : Float) :
  (i + length cooldown <= length status)%nat ->
  count_reconnectable status
    (filter (fun ic : nat * Z => ic.2 = 0) (zip (seq i (length cooldown)) cooldown)).*1 acc
  = inr (add_ones (length (filter reconnectable (zip (drop i status) cooldown))) acc).
Proof.
  revert i acc. induction cooldown as [|c cooldown IH]; intros i acc Hlen.
  - simpl. rewrite zip_with_nil_r. reflexivity.
  - simpl in Hlen.
    destruct (status !! i) as [b|] eqn:Hb;
      [| apply lookup_ge_None in Hb; lia].
    rewrite (drop_S _ _ _ Hb).
    cbn [length seq zip zip_with].
    destruct (decide (c = 0)) as [-> | Hc].
    + rewrite filter_cons_True by reflexivity.
      cbn [fmap list_fmap fst count_reconnectable]. rewrite Hb.
      destruct b.
      * rewrite filter_cons_False by (intros [_ ?]; discriminate).
        apply IH. lia.
      * rewrite filter_cons_True by (split; reflexivity).
        cbn [length]. unfold add_ones. rewrite Nat.iter_succ_r.
        apply IH. lia.
    + rewrite filter_cons_False by exact Hc.
      rewrite filter_cons_False by (intros [? _]; contradiction).
      apply IH. lia.
Qed.

(** X17: when no flag triggers the early exit, and the arrays of the
    observation have one entry per line, [ResponseQualityMetric] returns
    [dt_float(1.0)] added up once for every line whose cooldown is over and
    that is out of service; [is_done] is not looked at. *)
Theorem ResponseQualityMetric_counts (action : Action) (env : Environment)
    (has_error is_done is_illegal is_ambiguous : bool) :
  has_error || is_illegal || is_ambiguous = false ->
  length (time_before_cooldown_line (get_obs env)) = n_line (backend env) ->
  (n_line (backend env) <= length (line_status (get_obs env)))%nat ->
  ResponseQualityMetric__call__ action env has_error is_done is_illegal is_ambiguous
  = let obs := get_obs env in
    inr (RFloat (add_ones
      (length (filter reconnectable
                 (zip (line_status obs) (time_before_cooldown_line obs))))
      (dt_float (float_of_int 0)))).
Proof.
  intros Hflags Hcool Hstatus. unfold ResponseQualityMetric__call__.
  rewrite Hflags. cbv zeta. rewrite length_seq.
  rewrite bool_decide_eq_true_2 by exact Hcool. cbn [negb].
  rewrite <- Hcool at 1.
  rewrite count_reconnectable_mask by (rewrite Hcool; simpl; lia).
  rewrite drop_0. reflexivity.
Qed.

End ResponseQualityProperties.

Section RewardExits.
Context {FO : FloatOps} {OB : ObservationBase}.

(** X19: once initialized, [ResilienceReward] called with [has_error]
    returns [-1.0] for an illegal or ambiguous action, and else [0.0] when
    the episode is done; [has_error] alone changes nothing: the reward is
    the one computed without it. *)
Theorem ResilienceReward_early_exits (self : ResilienceReward)
    (action : Action) (env env' : Environment)
    (is_done is_illegal is_ambiguous : bool) :
  let reward := ResilienceReward_initialize self env' in
  ResilienceReward__call__ reward action env true is_done is_illegal is_ambiguous
  = if is_illegal || is_ambiguous then inr (RFloat (float_of_int (-1)))
    else if is_done then inr (RFloat (float_of_int 0))
    else ResilienceReward__call__ reward action env false is_done is_illegal is_ambiguous.
Proof.
  intros reward. unfold ResilienceReward__call__.
  destruct is_illegal, is_ambiguous, is_done; reflexivity.
Qed.

End RewardExits.

Section KwargsKeys.
Context {FO : FloatOps} {OB : ObservationBase} {EX : Externals}.

Lemma get_kwargs_dom (self : Environment) (with_backend : bool) :
  dom (get_kwargs self with_backend)
  = list_to_set (filter (fun p => p <> "_compat_glop_version"
                                  /\ (with_backend = false -> p <> "backend"))
                   init_parameters) :> gset string.
Proof.
  unfold get_kwargs. cbv zeta.
  destruct with_backend;
    rewrite ?dom_insert_L, ?dom_alter_L, ?dom_insert_L, dom_empty_L;
    match goal with |- ?P => apply (@bool_decide_unpack P _) end;
    vm_compute; exact I.
Qed.

(** X21: the keys of [get_kwargs] are parameters of [__init__]: all of them
    but [_compat_glop_version], and but [backend] when the backend is not
    asked for. *)
Theorem get_kwargs_keys (self : Environment) (with_backend : bool) (k : string) :
  is_Some (get_kwargs self with_backend !! k)
  <-> k ∈ init_parameters
      /\ k <> "_compat_glop_version"
      /\ (with_backend = false -> k <> "backend").
Proof.
  rewrite <- elem_of_dom, get_kwargs_dom, elem_of_list_to_set, list_elem_of_filter.
  tauto.
Qed.

(** X22: the arguments of [get_kwargs(with_backend=False)] lack the backend
    that [__init__] requires: building an environment from them raises a
    TypeError, and nothing has been called. *)
Theorem get_kwargs_without_backend (self : Environment) :
  get_kwargs self false !! "backend" = None
  /\ new_Environment (get_kwargs self false)
     = (inl (mkExc TypeError "missing a required argument"), mkCState blank_env []).
Proof.
  assert (Hgrid : get_kwargs self false !! "init_grid_path"
                  = Some (PyStr (_init_grid_path self))).
  { unfold get_kwargs. cbv zeta.
    repeat (rewrite lookup_insert_ne by discriminate). apply lookup_insert_eq. }
  assert (Hchronics : get_kwargs self false !! "chronics_handler"
                      = Some (PyChronics (chronics_handler self))).
  { unfold get_kwargs, deepcopy. cbv zeta.
    repeat (rewrite lookup_insert_ne by discriminate). apply lookup_insert_eq. }
  assert (Hbackend : get_kwargs self false !! "backend" = None).
  { unfold get_kwargs. cbv zeta.
    repeat (rewrite lookup_insert_ne by discriminate). apply lookup_empty. }
  split; [exact Hbackend |].
  unfold new_Environment, Environment__init__, required.
  rewrite Hgrid, Hchronics, Hbackend. reflexivity.
Qed.

End KwargsKeys.

(** * Examples *)

Section Examples.
#[local] Existing Instance Z_floats.
#[local] Existing Instance plain_observations.
#[local] Existing Instance plain_space.
#[local] Existing Instance calm.
#[local] Existing Instance two_lines_grid.
#[local] Existing Instance quiet.

(** [dt_int] on both sides of the largest 32-bit integer. *)
Example dt_int_examples :
  dt_int 12 = 12 /\ dt_int (-1) = -1 /\ dt_int 2147483647 = 2147483647
  /\ dt_int 2147483648 = -2147483648 /\ dt_int 4294967296 = 0.
Proof. repeat split. Qed.

(** The scenario of the specification: five steps of the empty action leave
    the episode running, the cooldowns at zero and bring the step counter to
    5; taking out of service a line that the grid cannot lose ends the
    episode with an error; the next step fails until the engine is reset. *)
Example scenario :
  verdict <$> (run (replicate 5 (OpStep do_nothing)
                    ++ [OpStep disconnect_line_0; OpStep do_nothing; OpReset;
                        OpStep do_nothing]) two_lines_world).1
  = ["running"; "running"; "running"; "running"; "running";
     "game over"; "state error"; "reset"; "running"]
  /\ nb_time_step (env_state (w_env
        (run (replicate 5 (OpStep do_nothing)) two_lines_world).2)) = 5
  /\ _times_before_line_status_actionable (env_state (w_env
        (run (replicate 5 (OpStep do_nothing)) two_lines_world).2)) = [0; 0]
  /\ _times_before_topology_actionable (env_state (w_env
        (run (replicate 5 (OpStep do_nothing)) two_lines_world).2)) = [0; 0].
Proof. repeat split; vm_compute; reflexivity. Qed.

(** Simulations on the engine with forecasts: the action that would end the
    episode is simulated, and the episode goes on; once the episode is over,
    a simulation still returns a result. *)
Example simulate_scenario :
  verdict <$> (run [OpSimulate disconnect_line_0; OpSimulate do_nothing;
                    OpStep do_nothing; OpSimulate disconnect_line_0;
                    OpStep disconnect_line_0; OpSimulate do_nothing]
                 (mkWorld two_lines_forecast_env [])).1
  = ["simulated: game over"; "simulated: running"; "running";
     "simulated: game over"; "game over"; "simulated: game over"].
Proof. vm_compute. reflexivity. Qed.

(** C9 at a duration of 12 steps, and at the duration -1 of an episode
    without end. *)
Lemma max_episode_duration_spec_witness :
  max_episode_duration (env_of_duration 12) = 12
  /\ max_episode_duration (env_of_duration (-1)) = int32_max.
Proof.
  split.
  - apply (max_episode_duration_spec (env_of_duration 12)). vm_compute. split; discriminate.
  - apply (max_episode_duration_spec (env_of_duration (-1))). vm_compute. split; discriminate.
Defined.

(** C9 as first stated fails: a nonnegative duration of 2^31 steps does not
    fit in [dt_int], and is not what [max_episode_duration] returns. *)
Lemma max_episode_duration_overflow :
  0 <= 2147483648
  /\ max_episode_duration (env_of_duration 2147483648) <> 2147483648.
Proof. split; [lia | vm_compute; discriminate]. Qed.

(** C4 at a backend already loaded: the constructor raises the error of a
    backend used twice, and has called nothing. *)
Lemma loaded_backend_rejected_witness :
  (_init_backend (PyChronics (mkChronics 0%nat 0 []))
     (PyBackend (two_lines_backend [true; true])) PyNone
     (PyType TopologyAction) (PyType CompleteObservation) (PyType FlatReward)
     (PyType AlwaysLegal) (mkCState blank_env [])).1 = inl same_backend_twice
  /\ cs_log (_init_backend (PyChronics (mkChronics 0%nat 0 []))
               (PyBackend (two_lines_backend [true; true])) PyNone
               (PyType TopologyAction) (PyType CompleteObservation)
               (PyType FlatReward) (PyType AlwaysLegal)
               (mkCState blank_env [])).2 = [].
Proof.
  destruct (loaded_backend_rejected (PyChronics (mkChronics 0%nat 0 []))
              PyNone (PyType TopologyAction) (PyType CompleteObservation)
              (PyType FlatReward) (PyType AlwaysLegal)
              (two_lines_backend [true; true]) (mkCState blank_env []))
    as [Hloaded _].
  destruct (Hloaded eq_refl) as (_ & Hlog & Hsame).
  split; [apply Hsame; reflexivity | exact Hlog].
Defined.



(** C7 on a grid with two loads and a generator, the chronics providing one
    row of forecast: the forecast field holds the row of the injections that
    the backend reports, then the row of the chronics. *)
Lemma update_forecasts_witness :
  @update Z_floats busy_observations busy_observation busy_env true
  = inr busy_observed
  /\ _forecasted_inj busy_observed
     = [(mkDatetime 2019 1 1 0 0 1,
         <["injection" :=
             <["prod_v" := [1]]>
               (<["prod_p" := [100]]>
                 (<["load_q" := [4; 6]]> (<["load_p" := [40; 60]]> ∅)))]> ∅);
        (mkDatetime 2019 1 1 0 5 1, ∅)]
  /\ _forecasted_grid busy_observed = [None; None].
Proof.
  assert (Hret : @update Z_floats busy_observations busy_observation busy_env true
                 = inr busy_observed) by (vm_compute; reflexivity).
  destruct (@update_forecasts Z_floats busy_observations busy_observation busy_env
              busy_observed Hret) as (_ & Hinj & _ & _ & _ & _ & Hgrid & _).
  split; [exact Hret |].
  split; [rewrite Hinj; vm_compute; reflexivity | rewrite Hgrid; reflexivity].
Defined.

(** A backend that reports three loads to an observation made for two:
    [update] raises the error of numpy. *)
Example update_shape_mismatch :
  @update Z_floats busy_observations busy_observation
    (set_backend
       (mkBackend (mkClass "PandaPowerBackend" ["Backend"]) true None 2%nat
          [true; true] [1; 1; 1; 1] ([100], [0], [1])
          ([40; 60; 80], [4; 6; 8], [1; 1; 1]) ([], [], [], []) ([], [], [], [])
          [0; 0] [100; 100] false ([], [], [], [], []) 1)
       two_lines_forecast_env) true
  = inl assign_error.
Proof. vm_compute. reflexivity. Qed.

(** C10 at the environment of the grid of two lines, whose backend is
    loaded: the backend of the arguments is not. *)
Lemma get_kwargs_fresh_backend_witness :
  is_loaded (backend two_lines_env) = true
  /\ exists b, get_kwargs two_lines_env true !! "backend" = Some (PyBackend b)
               /\ is_loaded b = false.
Proof.
  split; [reflexivity |].
  destruct (get_kwargs_fresh_backend two_lines_env) as (b & Hb & _ & Hfresh & _).
  exists b. split; assumption.
Defined.



(** C2 on the grid of two lines: taking line 0 out of service ends the
    episode, and the steps that follow fail. *)
Lemma done_is_terminal_witness :
  Forall (fun res => forall r, res = ResStep r -> r = inl state_error)
    (run [OpStep do_nothing; OpSimulate do_nothing; OpStep disconnect_line_0]
       (Environment_step disconnect_line_0 two_lines_world).2).1
  /\ w_env (run [OpStep do_nothing; OpSimulate do_nothing; OpStep disconnect_line_0]
              (Environment_step disconnect_line_0 two_lines_world).2).2
     = w_env (Environment_step disconnect_line_0 two_lines_world).2.
Proof.
  apply (done_is_terminal disconnect_line_0 two_lines_world
           (Environment_step disconnect_line_0 two_lines_world).2 0%nat (-1)
           (mkInfo false false false true (Some "the power flow diverged") None)).
  - vm_compute. reflexivity.
  - repeat constructor; discriminate.
Defined.

(** X2 at the arguments of the example. *)
Lemma constructor_stores_arguments_witness :
  let env := cs_self (new_Environment example_kwargs).2 in
  (forall s, arg example_kwargs "name" (PyStr "unknown") = PyStr s -> name env = s)
  /\ _read_from_local_dir env = truthy (arg example_kwargs "_read_from_local_dir" (PyBool true))
  /\ getattr env "_actionClass_orig" = arg example_kwargs "actionClass" (PyType TopologyAction)
  /\ getattr env "_observationClass_orig"
     = arg example_kwargs "observationClass" (PyType CompleteObservation)
  /\ getattr env "_rewardClass" = arg example_kwargs "rewardClass" (PyType FlatReward)
  /\ getattr env "_legalActClass" = arg example_kwargs "legalActClass" (PyType AlwaysLegal)
  /\ getattr env "_names_chronics_to_backend" = arg example_kwargs "names_chronics_to_backend" PyNone
  /\ getattr env "_compat_glop_version" = arg example_kwargs "_compat_glop_version" PyNone.
Proof.
  apply (constructor_stores_arguments example_kwargs). vm_compute. reflexivity.
Defined.

(** X3 at the environment built from the arguments of the example. *)
Lemma get_kwargs_round_trip_witness :
  get_kwargs (cs_self (new_Environment (get_kwargs built_env true)).2) false !! "name"
  = get_kwargs built_env true !! "name"
  /\ get_kwargs (cs_self (new_Environment (get_kwargs built_env true)).2) false
       !! "rewardClass"
     = get_kwargs built_env true !! "rewardClass".
Proof.
  split; apply (get_kwargs_round_trip built_env true false);
    first [ vm_compute; reflexivity | set_solver ].
Defined.

(** X4 at the same environment, built for the oldest version. *)
Lemma get_kwargs_drops_compat_version_witness :
  getattr built_env "_compat_glop_version" = PyStr "neurips_2020_compat"
  /\ get_kwargs built_env true !! "_compat_glop_version" = None
  /\ getattr (cs_self (new_Environment (get_kwargs built_env true)).2)
       "_compat_glop_version" = PyNone.
Proof.
  split; [vm_compute; reflexivity |].
  apply (get_kwargs_drops_compat_version built_env true). vm_compute. reflexivity.
Defined.

(** X1 on a grid of two lines, one of which is out of service. *)
Lemma ResilienceReward_connected_fraction_witness :
  ResilienceReward__call__ ResilienceReward__init__ disconnect_line_0 one_line_out
    false false false false
  = inr (RFloat (fadd (fmul (float_of_int 1000) (float_of_int 0))
                   (fmul (float_of_int 1000)
                      (fdiv (float_of_int 1) (float_of_int 2))))).
Proof.
  rewrite (ResilienceReward_connected_fraction ResilienceReward__init__
             disconnect_line_0 one_line_out false false false false);
    [vm_compute; reflexivity | reflexivity].
Defined.


Ltac small_grid_applies := split; [discriminate | reflexivity].

Ltac by_decision :=
  match goal with |- ?P => apply (@bool_decide_unpack P _) end; vm_compute; exact I.

Ltac small_grid_consistent :=
  split; [repeat split; simpl; lia |];
  split; [split; [by_decision | split; [vm_compute; discriminate | reflexivity]] |];
  intros [|[|i]] n Hi; simpl in Hi; try discriminate Hi;
  injection Hi as <-; (split; [lia | by_decision]).

(** X5 on the small grid. *)
Lemma compat_pos_topo_vect_witness :
  exists cls_bk',
    _handle_compat_glop_version "1.6.4" (Some "neurips_2020_compat") small_backend
    = erase_storage (grid_objects_types cls_bk')
        (store_class cls_bk' (bind_cls_bk small_backend))
    /\ dim_topo cls_bk' = dim_topo small_grid - n_storage small_grid
    /\ pos_topo_vect cls_bk' ≡ₚ seqZ 0 (dim_topo cls_bk').
Proof.
  apply (@compat_pos_topo_vect quiet "1.6.4" "neurips_2020_compat" small_backend
           small_backend eq_refl eq_refl).
  - small_grid_applies.
  - small_grid_consistent.
Defined.

(** X6 on the small grid. *)
Lemma compat_sub_pos_witness :
  exists cls_bk',
    _handle_compat_glop_version "1.6.4" (Some "neurips_2020_compat") small_backend
    = erase_storage (grid_objects_types cls_bk')
        (store_class cls_bk' (bind_cls_bk small_backend))
    /\ length (sub_info cls_bk') = length (sub_info small_grid)
    /\ forall (i : nat) (n : Z),
         sub_info cls_bk' !! i = Some n ->
         sub_pos cls_bk' (Z.of_nat i) ≡ₚ seqZ 0 n.
Proof.
  apply (@compat_sub_pos quiet "1.6.4" "neurips_2020_compat" small_backend
           small_backend eq_refl eq_refl).
  - small_grid_applies.
  - small_grid_consistent.
Defined.

(** X7 on the small grid. *)
Lemma compat_dim_topo_witness :
  exists cls_bk',
    _handle_compat_glop_version "1.6.4" (Some "neurips_2020_compat") small_backend
    = erase_storage (grid_objects_types cls_bk')
        (store_class cls_bk' (bind_cls_bk small_backend))
    /\ sum_int (sub_info cls_bk') = sum_int (sub_info small_grid) - n_storage small_grid
    /\ Z.of_nat (length (_topo_vect_to_sub cls_bk')) = sum_int (sub_info cls_bk')
    /\ (dim_topo small_grid = sum_int (sub_info small_grid) ->
        dim_topo cls_bk' = sum_int (sub_info cls_bk')).
Proof.
  apply (@compat_dim_topo quiet "1.6.4" "neurips_2020_compat" small_backend
           small_backend eq_refl eq_refl).
  - small_grid_applies.
  - small_grid_consistent.
  - repeat constructor; simpl; lia.
  - reflexivity.
Defined.

(** X8 on the small grid: the method returns, and the class of the backend
    holds the table without the row of the storage unit. *)
Lemma compat_grid_objects_types_witness :
  exists cls_bk' s',
    _handle_compat_glop_version "1.6.4" (Some "neurips_2020_compat") small_backend
    = inr s'
    /\ grid_objects_types (type_backend s') = grid_objects_types cls_bk'
    /\ Z.of_nat (length (m_rows (grid_objects_types cls_bk'))) = dim_topo cls_bk'
    /\ m_rows (grid_objects_types (type_backend s'))
       = [[0; 0; -1; -1; -1; -1]; [0; -1; -1; 0; -1; -1];
          [1; -1; 0; -1; -1; -1]; [1; -1; -1; -1; 0; -1]].
Proof.
  destruct (@compat_grid_objects_types quiet "1.6.4" "neurips_2020_compat" small_backend
              small_backend eq_refl eq_refl) as (cls_bk' & Hrun & Hfinal & Hrows & _).
  - small_grid_applies.
  - small_grid_consistent.
  - split; [reflexivity |].
    intros [|[|[|[|[|p]]]]] row Hrow; simpl in Hrow; try discriminate Hrow;
      injection Hrow as <-; simpl; split; try discriminate;
      try (intros _; by_decision); try (intros H; exfalso; apply H; by_decision).
  - exists cls_bk'. eexists. split; [vm_compute; reflexivity |].
    split; [apply Hfinal; vm_compute; reflexivity |].
    split; [exact Hrows |]. vm_compute. reflexivity.
Defined.

Ltac refute H :=
  match type of H with ?P => apply (@bool_decide_pack P _) in H end;
  vm_compute in H; exact H.

(** X9 on the directory of the example: the first write creates the
    directory of the validation environment. *)
Lemma train_val_split_checks_first_witness :
  exists rest,
    (@train_val_split (example_platform true) ["data"; "case14"] Multifolder
       ["0001"; "9999"] "train" "val" None []).2
    = Mkdir ["data"; "case14_val"] :: rest.
Proof.
  destruct (@train_val_split_checks_first (example_platform true) ["data"; "case14"]
              Multifolder ["0001"; "9999"] "train" "val" None [])
    as (_ & _ & _ & my_name & Hname & _ & _ & rest & Hrest).
  - vm_compute. discriminate.
  - vm_compute in Hname. injection Hname as <-. exists rest. exact Hrest.
Defined.

(** X10 on the directory of the example, with the suffix [val] for both
    environments. *)
Lemma train_val_split_same_suffix_witness :
  @train_val_split (example_platform true) ["data"; "case14"] Multifolder
    ["0001"; "9999"] "val" "val" None []
  = (inl (mkExc (ForeignError "FileExistsError") "File exists"),
     [Mkdir ["data"; "case14_val"]]).
Proof.
  apply (@train_val_split_same_suffix (example_platform true) ["data"; "case14"]
           Multifolder ["0001"; "9999"] "val" None "case14" []
           (mkExc (ForeignError "FileExistsError") "File exists"));
    vm_compute; reflexivity.
Defined.

(** X11 on the directory of the example: scenario 0001 goes to the
    validation environment and scenario 0000 to the training environment;
    nothing is linked for the name 9999, which is no scenario. *)
Lemma train_val_split_partition_witness :
  exists new,
    (@train_val_split (example_platform true) ["data"; "case14"] Multifolder
       ["0001"; "9999"] "train" "val" None []).2 = new
    /\ Symlink ["data"; "case14"; "chronics"; "0001"]
         ["data"; "case14_val"; "chronics"; "0001"] ∈ new
    /\ Symlink ["data"; "case14"; "chronics"; "0000"]
         ["data"; "case14_train"; "chronics"; "0000"] ∈ new
    /\ (Symlink ["data"; "case14"; "chronics"; "0000"]
          ["data"; "case14_val"; "chronics"; "0000"] ∉ new)
    /\ (Symlink ["data"; "case14"; "chronics"; "9999"]
          ["data"; "case14_val"; "chronics"; "9999"] ∉ new).
Proof.
  destruct (@train_val_split_partition (example_platform true) ["data"; "case14"]
              Multifolder ["0001"; "9999"] "train" "val" None []
              ("case14_train", "case14_val")
              (@train_val_split (example_platform true) ["data"; "case14"] Multifolder
                 ["0001"; "9999"] "train" "val" None []).2
              "case14" ["0002"; "0000"; "0001"]
              ["config.py"; "chronics"; "grid.json"; "plots"])
    as (new & Hnew & Hpart & Hnone); try (vm_compute; reflexivity).
  - discriminate.
  - by_decision.
  - exists new. split; [exact Hnew |].
    destruct (Hpart "0001") as [[_ H1] _]; [by_decision |].
    destruct (Hpart "0000") as [[H0 _] [_ H0']];
      [by_decision |].
    split; [apply H1; by_decision |].
    split; [apply H0'; intros H; refute H |].
    split; [intros H; apply H0 in H; refute H |].
    apply (Hnone "9999" ["data"; "case14"; "chronics"; "9999"] "val").
    intros H. refute H.
Defined.

(** X12 on the directory of the example: the file [config.py] is linked
    into both environments, and nothing is created for the directory
    [plots]. *)
Lemma train_val_split_entries_witness :
  exists new,
    (@train_val_split (example_platform true) ["data"; "case14"] Multifolder
       ["0001"; "9999"] "train" "val" None []).2 = new
    /\ Symlink ["data"; "case14"; "config.py"] ["data"; "case14_train"; "config.py"] ∈ new
    /\ Symlink ["data"; "case14"; "config.py"] ["data"; "case14_val"; "config.py"] ∈ new
    /\ forall op, op ∈ new ->
         created op <> ["data"; "case14_train"; "plots"]
         /\ created op <> ["data"; "case14_val"; "plots"].
Proof.
  destruct (@train_val_split_entries (example_platform true) ["data"; "case14"]
              Multifolder ["0001"; "9999"] "train" "val" None []
              ("case14_train", "case14_val")
              (@train_val_split (example_platform true) ["data"; "case14"] Multifolder
                 ["0001"; "9999"] "train" "val" None []).2
              "case14" ["config.py"; "chronics"; "grid.json"; "plots"])
    as (new & Hnew & Hent); try (vm_compute; reflexivity).
  exists new. split; [exact Hnew |].
  destruct (Hent "config.py") as [Hfile _];
    [by_decision |].
  destruct (Hent "plots") as [_ Hdir];
    [by_decision |].
  destruct (Hfile eq_refl) as [Ht Hv].
  split; [exact Ht |]. split; [exact Hv |].
  apply Hdir; [reflexivity | discriminate].
Defined.

(** X13 on the directory of the example, when no write raises. *)
Lemma train_val_split_returns_witness :
  (@train_val_split (example_platform false) ["data"; "case14"] Multifolder
     ["0001"; "9999"] "train" "val" None []).1
  = inr ("case14_train", "case14_val").
Proof.
  rewrite (@train_val_split_returns (example_platform false) ["data"; "case14"]
             Multifolder ["0001"; "9999"] "train" "val" None [] "case14"
             ["0002"; "0000"; "0001"] ["config.py"; "chronics"; "grid.json"; "plots"]);
    vm_compute; reflexivity.
Defined.


(** X16 at an instance of the rules given in place of their class: the
    construction fails after the grid has been loaded, the backend, which was
    not loaded, is left marked as loaded, and a second construction with it
    raises the error of a backend used twice. *)
Lemma started_construction_marks_backend_witness :
  let r := _init_backend (PyChronics (mkChronics 0%nat 0 []))
             (PyBackend blank_backend) PyNone (PyType TopologyAction)
             (PyType CompleteObservation) (PyType FlatReward)
             (PyInstance AlwaysLegal) (mkCState blank_env []) in
  is_loaded blank_backend = false
  /\ r.1 = inl (mkExc Grid2OpException "legalActClass should be a type (a class)")
  /\ is_loaded (backend (cs_self r.2)) = true
  /\ (_init_backend (PyChronics (mkChronics 0%nat 0 []))
        (PyBackend (backend (cs_self r.2))) PyNone (PyType TopologyAction)
        (PyType CompleteObservation) (PyType FlatReward)
        (PyType AlwaysLegal) (mkCState blank_env [])).1
     = inl same_backend_twice.
Proof.
  intros r.
  destruct (started_construction_marks_backend
              (PyChronics (mkChronics 0%nat 0 [])) PyNone (PyType TopologyAction)
              (PyType CompleteObservation) (PyType FlatReward)
              (PyInstance AlwaysLegal) blank_backend (mkCState blank_env [])
              (cs_log r.2))
    as [Hmark Hagain].
  - intros h c b _ Hreturns. discriminate Hreturns.
  - symmetry. apply app_nil_r.
  - vm_compute. repeat first [ apply list_elem_of_here | apply list_elem_of_further ].
  - split; [reflexivity |]. split; [reflexivity |]. split; [exact Hmark |].
    apply Hagain.
Defined.

(** X17 at the grid of two lines, the first of which is out of service with
    its cooldown over: the metric is [1]. *)
Lemma ResponseQualityMetric_counts_witness :
  ResponseQualityMetric__call__ disconnect_line_0
    (set_backend (two_lines_backend [false; true]) two_lines_env)
    false true false false
  = inr (RFloat 1).
Proof.
  rewrite (ResponseQualityMetric_counts disconnect_line_0
             (set_backend (two_lines_backend [false; true]) two_lines_env)
             false true false false);
    [reflexivity | reflexivity | reflexivity | vm_compute; lia].
Defined.

End Examples.
